(** * question-retriever-leetcode: selection, sent-state toggle, summary
      parsing and week range

    A shallow embedding of the testable core of the repository:

    - [client/src/models/RetrievedQuestion.ts]  ([createRetrievedQuestion]),
    - [client/src/services/questionService.ts]  (selection, mark / unmark),
    - [functions/src/utils.ts]                  ([parseAIResponse],
                                                 [getWeekRange]),
    - [functions/src/index.ts]                  (the parsing written inline in
                                                 [getQuestionSummary] and
                                                 [generateAISummary], and
                                                 [backfillWeekSummaries]).

    JavaScript strings are sequences of UTF-16 code units, Firestore
    collections are ordered lists of documents, exceptions are an error
    monad, and everything the outside world decides during a call (store
    faults, the random draw, the auto-generated document id, the clock, the
    answer of the remote summary procedure) is an explicit argument of the
    call. *)

From Stdlib Require Import String.
From Stdlib Require Import List NArith ZArith Bool Ascii Lia.
From Stdlib Require DecimalString Permutation Sorted.
Import ListNotations.

Set Implicit Arguments.

(* ================================================================= *)
(** * Part I: definitions                                             *)
(* ================================================================= *)

(** ** JavaScript strings *)

Module JsString.

(** A string value is a finite sequence of 16-bit code units. *)
Definition jsstring := list N.

(** ASCII literals of the sources, as code units. *)
Definition js (s : String.string) : jsstring :=
  List.map N_of_ascii (String.list_ascii_of_string s).

(** [a === b] on strings. *)
Fixpoint eqb (a b : jsstring) : bool :=
  match a, b with
  | [], [] => true
  | x :: a', y :: b' => (x =? y)%N && eqb a' b'
  | _, _ => false
  end.

(** Truthiness of a string: every string but the empty one. *)
Definition truthy (s : jsstring) : bool :=
  match s with [] => false | _ :: _ => true end.

(** [WhiteSpace] and [LineTerminator] code points: the characters
    removed by [String.prototype.trim] and matched by [\s]. *)
Definition isSpace (c : N) : bool :=
  ((9 <=? c) && (c <=? 13) || (c =? 32) || (c =? 160) || (c =? 5760)
   || (8192 <=? c) && (c <=? 8202) || (c =? 8232) || (c =? 8233)
   || (c =? 8239) || (c =? 8287) || (c =? 12288) || (c =? 65279))%N.

Fixpoint trimStart (s : jsstring) : jsstring :=
  match s with
  | c :: rest => if isSpace c then trimStart rest else s
  | [] => []
  end.

Definition trimEnd (s : jsstring) : jsstring := rev (trimStart (rev s)).

(** [s.trim()] *)
Definition trim (s : jsstring) : jsstring := trimEnd (trimStart s).

(** [s.startsWith(p)], returning what follows the prefix. *)
Fixpoint stripPrefix (p s : jsstring) : option jsstring :=
  match p, s with
  | [], _ => Some s
  | a :: p', b :: s' => if (a =? b)%N then stripPrefix p' s' else None
  | _ :: _, [] => None
  end.

Definition startsWith (p s : jsstring) : bool :=
  match stripPrefix p s with Some _ => true | None => false end.

(** [s.includes(p)] *)
Fixpoint includes (p s : jsstring) : bool :=
  if startsWith p s then true
  else match s with
       | [] => false
       | _ :: rest => includes p rest
       end.

(** A text with a character that is not white space. *)
Definition inked (s : jsstring) : Prop :=
  exists c, In c s /\ isSpace c = false.

(** [a || b] on strings. *)
Definition orElse (a b : jsstring) : jsstring :=
  if truthy a then a else b.

End JsString.
Import JsString.
Arguments js s%_string.

(** ** Exceptions *)

Inductive result (A : Type) : Type :=
| Ok (a : A)
| Throw.
Arguments Throw {A}.

Definition bind {A B} (r : result A) (k : A -> result B) : result B :=
  match r with
  | Ok a => k a
  | Throw => Throw
  end.

(** [try { body } catch (error) { return handler }] *)
Definition tryCatch {A} (body : result A) (handler : A) : A :=
  match body with
  | Ok a => a
  | Throw => handler
  end.

Declare Scope js_scope.
Notation "x <- c ;; k" := (bind c (fun x => k))
  (at level 61, c at next level, right associativity) : js_scope.
Notation "' p <- c ;; k" := (bind c (fun x => let p := x in k))
  (at level 61, p pattern, c at next level, right associativity) : js_scope.
Open Scope js_scope.

(** ** The document store *)

Module Firestore.

(** A document snapshot: the document id and its data. *)
Record Doc (A : Type) : Type := mkDoc { doc_id : jsstring; doc_data : A }.

(** A collection, in the order in which the store lists its documents. *)
Definition Collection (A : Type) : Type := list (Doc A).

(** [getDocs(query(col, where ...))]: the documents that satisfy the
    filter, or an exception when the store is unreachable. *)
Definition getDocs {A} (fault : bool) (where_ : A -> bool)
           (col : Collection A) : result (list (Doc A)) :=
  if fault then Throw
  else Ok (filter (fun d => where_ (doc_data d)) col).

(** [addDoc(col, data)]: the store either fails, or creates a document
    under an id of its own choosing; [place] is where the new document
    shows up in the listing order. *)
Definition addDoc {A} (outcome : result (jsstring * nat)) (data : A)
           (col : Collection A) : result jsstring * Collection A :=
  match outcome with
  | Ok (newId, place) =>
      (Ok newId, firstn place col ++ mkDoc newId data :: skipn place col)
  | Throw => (Throw, col)
  end.

(** [deleteDoc(doc(col, id))] *)
Definition deleteDoc {A} (fault : bool) (id : jsstring)
           (col : Collection A) : result unit * Collection A :=
  if fault then (Throw, col)
  else (Ok tt, filter (fun d => negb (eqb (doc_id d) id)) col).

(** [doc.ref.update({field: v})], with the field update given as a
    function on the data. *)
Definition updateDoc {A} (id : jsstring) (upd : A -> A)
           (col : Collection A) : Collection A :=
  List.map (fun d => if eqb (doc_id d) id
                     then mkDoc (doc_id d) (upd (doc_data d)) else d) col.

(** What the store guarantees about a collection: document ids are
    unique and never empty. *)
Definition wellFormed {A} (col : Collection A) : Prop :=
  NoDup (List.map (@doc_id A) col) /\
  Forall (fun d => doc_id d <> []) col.

End Firestore.
Import Firestore.

(** ** Models *)

Record TopicTag : Type := mkTopicTag { name : jsstring; slug : jsstring }.

Record AISummary : Type := mkAISummary {
  solution : jsstring;
  timeComplexity : jsstring;
  spaceComplexity : jsstring
}.

(** [Question & { id: string }] *)
Module Question.
Record t : Type := mk {
  id : jsstring;
  frontendQuestionId : jsstring;
  title : jsstring;
  titleSlug : jsstring;
  difficulty : jsstring;
  topicTags : list TopicTag
}.
End Question.

Module RetrievedQuestion.
Record t : Type := mk {
  questionId : jsstring;
  frontendQuestionId : jsstring;
  title : jsstring;
  titleSlug : jsstring;
  difficulty : jsstring;
  topicTags : list TopicTag;
  sentDate : jsstring;
  isChosen : bool;
  aiSummary : option AISummary
}.

(** [retrievedQuestion.aiSummary = s] *)
Definition set_aiSummary (s : AISummary) (r : t) : t :=
  mk (questionId r) (frontendQuestionId r) (title r) (titleSlug r)
     (difficulty r) (topicTags r) (sentDate r) (isChosen r) (Some s).
End RetrievedQuestion.

(** [createRetrievedQuestion]; [now] is [new Date().toISOString()]. *)
Definition createRetrievedQuestion (now : jsstring) (question : Question.t)
  : RetrievedQuestion.t :=
  RetrievedQuestion.mk
    (Question.id question)
    (Question.frontendQuestionId question)
    (Question.title question)
    (Question.titleSlug question)
    (Question.difficulty question)
    (Question.topicTags question)
    now
    true
    None.

(** ** [client/src/services/questionService.ts] *)

Module QuestionService.

(** [convertDocToQuestion]: [{...data, id: doc.id}] *)
Definition convertDocToQuestion (d : Doc Question.t) : Question.t :=
  let data := doc_data d in
  Question.mk (doc_id d)
              (Question.frontendQuestionId data)
              (Question.title data)
              (Question.titleSlug data)
              (Question.difficulty data)
              (Question.topicTags data).

(** Numbers are IEEE 754 double-precision values.  A double that is not
    negative is written [mant * 2^(- expo)], with a significand [mant] of
    at most 53 bits and [expo <= 1074]. *)
Record Double : Type := mkDouble { mant : Z; expo : Z }.

(** [Math.random()] yields a double that is at least 0 and less than 1:
    these are the doubles [mant * 2^(- expo)] with [mant < 2^53] and
    [53 <= expo <= 1074]. *)
Definition randomRange (rnd : Double) : Prop :=
  (0 <= mant rnd < 9007199254740992 /\ 53 <= expo rnd <= 1074)%Z.

(** [p / 2^s] rounded to the nearest integer, a tie to the even one. *)
Definition roundHalfEven (p s : Z) : Z :=
  let q := (p / 2 ^ s)%Z in
  let r := (p mod 2 ^ s)%Z in
  if ((2 ^ s <? 2 * r) || (2 ^ s =? 2 * r) && Z.odd q)%Z
  then (q + 1)%Z else q.

(** [x * n] for an integer [n] that is a double (the length of an array
    is below 2^32): the exact product [mant * n * 2^(- expo)], rounded to
    the nearest double when it has more than 53 significant bits (or
    bits below 2^(-1074)). *)
Definition timesLength (x : Double) (n : Z) : Double :=
  let p := (mant x * n)%Z in
  let s := Z.max (Z.log2 p + 1 - 53) (expo x - 1074) in
  if (s <=? 0)%Z then mkDouble p (expo x)
  else mkDouble (roundHalfEven p s) (expo x - s).

(** [Math.floor(x)] *)
Definition floor (x : Double) : Z :=
  if (0 <=? expo x)%Z then (mant x / 2 ^ expo x)%Z
  else (mant x * 2 ^ (- expo x))%Z.

(** [Math.floor(Math.random() * n)] *)
Definition randomIndex (rnd : Double) (n : nat) : nat :=
  Z.to_nat (floor (timesLength rnd (Z.of_nat n))).

(** [ids.includes(x)] on an array of strings. *)
Definition arrayIncludes (ids : list jsstring) (x : jsstring) : bool :=
  existsb (eqb x) ids.

(** What the world decides during one selection. *)
Record SelectEnv : Type := mkSelectEnv {
  questionsFault : bool;   (* the query on [questions] throws *)
  retrievedFault : bool;   (* the read of [retrievedQuestions] throws *)
  random : Double          (* the draw of [Math.random] *)
}.

(** [getRandomUnsentQuestionByDifficulty]; [None] is [null] (and the
    [undefined] of an index out of range). *)
Definition getRandomUnsentQuestionByDifficulty
           (env : SelectEnv)
           (questionsCol : Collection Question.t)
           (retrievedQuestionsCol : Collection RetrievedQuestion.t)
           (difficulty : jsstring) : option Question.t :=
  tryCatch
    (questionsByDifficultySnapshot <-
       getDocs (questionsFault env)
               (fun q => eqb (Question.difficulty q) difficulty)
               questionsCol ;;
     let questionsByDifficulty :=
       List.map convertDocToQuestion questionsByDifficultySnapshot in
     if (length questionsByDifficulty =? 0)%nat then Ok None
     else
       retrievedSnapshot <-
         getDocs (retrievedFault env) (fun _ => true)
                 retrievedQuestionsCol ;;
       let sentQuestionIds :=
         List.map (fun d => RetrievedQuestion.questionId (doc_data d))
                  retrievedSnapshot in
       let availableQuestions :=
         filter (fun question =>
                   negb (arrayIncludes sentQuestionIds
                                       (Question.id question)))
                questionsByDifficulty in
       if (length availableQuestions =? 0)%nat then
         let randomIndex_ :=
           randomIndex (random env) (length questionsByDifficulty) in
         Ok (nth_error questionsByDifficulty randomIndex_)
       else
         let randomIndex_ :=
           randomIndex (random env) (length availableQuestions) in
         Ok (nth_error availableQuestions randomIndex_))
    None.

(** The result of [isQuestionAlreadySent]:
    [{isSent: boolean, retrievedDocId?: string}]. *)
Record SentStatus : Type := mkSentStatus {
  isSent : bool;
  retrievedDocId : option jsstring
}.

(** [isQuestionAlreadySent] *)
Definition isQuestionAlreadySent
           (fault : bool)
           (retrievedQuestionsCol : Collection RetrievedQuestion.t)
           (questionId : jsstring) : SentStatus :=
  tryCatch
    (snapshot <-
       getDocs fault
               (fun r => eqb (RetrievedQuestion.questionId r) questionId)
               retrievedQuestionsCol ;;
     match snapshot with
     | d0 :: _ => Ok (mkSentStatus true (Some (doc_id d0)))
     | [] => Ok (mkSentStatus false None)
     end)
    (mkSentStatus false None).

(** [isSent && retrievedDocId], as a condition: when it holds, the
    document id it exposes. *)
Definition sentAndId (s : SentStatus) : option jsstring :=
  if isSent s then
    match retrievedDocId s with
    | Some docId => if truthy docId then Some docId else None
    | None => None
    end
  else None.

(** What the world decides during [getAISummary]: whether the
    [functions] client of [firebase/config.ts] was initialized, and how
    the callable [getQuestionSummary] answers. *)
Record AIEnv : Type := mkAIEnv {
  functionsInitialized : bool;
  callable : result AISummary
}.

(** [getAISummary] *)
Definition getAISummary (env : AIEnv) (question : Question.t)
  : option AISummary :=
  tryCatch
    (if negb (functionsInitialized env) then Ok None
     else
       data <- callable env ;;
       Ok (Some data))
    None.

(** What the world decides during [markQuestionAsSent]. *)
Record MarkEnv : Type := mkMarkEnv {
  checkFault : bool;                  (* the existence query throws *)
  ai : AIEnv;
  now : jsstring;                     (* [new Date().toISOString()] *)
  added : result (jsstring * nat)     (* how [addDoc] answers *)
}.

(** [markQuestionAsSent]: the returned id ([None] is [null]) and the
    collection afterwards. *)
Definition markQuestionAsSent
           (env : MarkEnv)
           (question : Question.t)
           (retrievedQuestionsCol : Collection RetrievedQuestion.t)
  : option jsstring * Collection RetrievedQuestion.t :=
  let status :=
    isQuestionAlreadySent (checkFault env) retrievedQuestionsCol
                          (Question.id question) in
  match sentAndId status with
  | Some docId => (Some docId, retrievedQuestionsCol)
  | None =>
      let retrievedQuestion :=
        createRetrievedQuestion (now env) question in
      let aiSummary := getAISummary (ai env) question in
      let retrievedQuestion :=
        match aiSummary with
        | Some s => RetrievedQuestion.set_aiSummary s retrievedQuestion
        | None => retrievedQuestion
        end in
      let '(retrievedDoc, col') :=
        addDoc (added env) retrievedQuestion retrievedQuestionsCol in
      (tryCatch (newId <- retrievedDoc ;; Ok (Some newId)) None, col')
  end.

(** What the world decides during [unsendQuestion]. *)
Record UnsendEnv : Type := mkUnsendEnv {
  lookupFault : bool;   (* the existence query throws *)
  deleteFault : bool    (* [deleteDoc] throws *)
}.

(** [unsendQuestion]: the returned flag and the collection afterwards. *)
Definition unsendQuestion
           (env : UnsendEnv)
           (questionId : jsstring)
           (retrievedQuestionsCol : Collection RetrievedQuestion.t)
  : bool * Collection RetrievedQuestion.t :=
  let status :=
    isQuestionAlreadySent (lookupFault env) retrievedQuestionsCol
                          questionId in
  match sentAndId status with
  | Some docId =>
      let '(deleted, col') :=
        deleteDoc (deleteFault env) docId retrievedQuestionsCol in
      (tryCatch (_ <- deleted ;; Ok true) false, col')
  | None => (false, retrievedQuestionsCol)
  end.

(** The filter [where('questionId', '==', questionId)]. *)
Definition pointsAt (questionId : jsstring)
           (d : Doc RetrievedQuestion.t) : bool :=
  eqb (RetrievedQuestion.questionId (doc_data d)) questionId.

(** The number of sent records that point at a question. *)
Definition recordsFor (questionId : jsstring)
           (col : Collection RetrievedQuestion.t) : nat :=
  length (filter (fun d => eqb (RetrievedQuestion.questionId (doc_data d))
                               questionId) col).

(** The questions of a difficulty, as the selection reads them, and the
    question ids of the sent records. *)
Definition questionsOfDifficulty (questionsCol : Collection Question.t)
           (difficulty : jsstring) : list Question.t :=
  List.map convertDocToQuestion
           (filter (fun d => eqb (Question.difficulty (doc_data d))
                                 difficulty) questionsCol).

Definition sentIds (retrievedQuestionsCol : Collection RetrievedQuestion.t)
  : list jsstring :=
  List.map (fun d => RetrievedQuestion.questionId (doc_data d))
           retrievedQuestionsCol.

Definition selectSucceeds (env : SelectEnv) : Prop :=
  questionsFault env = false /\ retrievedFault env = false /\
  randomRange (random env).

(** The record that [markQuestionAsSent] hands to [addDoc]. *)
Definition recordToAdd (env : MarkEnv) (question : Question.t)
  : RetrievedQuestion.t :=
  match getAISummary (ai env) question with
  | Some s =>
      RetrievedQuestion.set_aiSummary
        s (createRetrievedQuestion (now env) question)
  | None => createRetrievedQuestion (now env) question
  end.

(** A collection with one more document at a given place. *)
Definition withDoc {A} (place : nat) (d : Doc A) (col : Collection A)
  : Collection A :=
  firstn place col ++ d :: skipn place col.

(** The summary request fails: the [functions] client is not
    initialized, or the call throws. *)
Definition summaryFails (env : AIEnv) : Prop :=
  functionsInitialized env = false \/ callable env = Throw.

(** The world behaves: no store fault, the summary arrives or not. *)
Definition markSucceeds (env : MarkEnv) : Prop :=
  checkFault env = false /\
  exists newId place, added env = Ok (newId, place) /\ newId <> [].

Definition unsendSucceeds (env : UnsendEnv) : Prop :=
  lookupFault env = false /\ deleteFault env = false.

End QuestionService.

(** ** Regular expressions

    The fragment of ECMAScript regular expressions that the sources use,
    with the backtracking semantics of the language: a matcher tries the
    alternatives of a pattern in order and calls its continuation on each;
    the first alternative on which the continuation succeeds wins. *)

Module Regex.

(** Single-character atoms. *)
Inductive cclass : Type :=
| CAny                 (* [.] under the [s] flag *)
| CSpace               (* [\s] *)
| CNot (c : N).        (* [[^c]] *)

Definition classMatches (cl : cclass) (c : N) : bool :=
  match cl with
  | CAny => true
  | CSpace => isSpace c
  | CNot x => negb (c =? x)%N
  end.

Inductive regex : Type :=
| RLit (s : jsstring)          (* a literal text *)
| RStar (cl : cclass)          (* [cl*], greedy *)
| RPlus (cl : cclass)          (* [cl+], greedy *)
| RPlusLazy (cl : cclass)      (* [cl+?] *)
| RSeq (r1 r2 : regex)         (* [r1 r2] *)
| RAlt (r1 r2 : regex)         (* [r1|r2] *)
| RGroup (r : regex)           (* [(r)], the capture group 1 *)
| RAhead (r : regex)           (* [(?=r)] *)
| REnd.                        (* [$] without the [m] flag *)

(** The state of a match: the input still to read and capture 1. *)
Definition MatchState : Type := (jsstring * option jsstring)%type.

Definition orTry {A} (a b : option A) : option A :=
  match a with Some _ => a | None => b end.

(** [cl*]: as many characters as possible, giving back one at a time. *)
Fixpoint starGreedy (cl : cclass) (inp : jsstring)
         (k : jsstring -> option MatchState) : option MatchState :=
  match inp with
  | c :: rest =>
      if classMatches cl c then orTry (starGreedy cl rest k) (k inp)
      else k inp
  | [] => k inp
  end.

(** [cl+?]: as few characters as possible, at least one. *)
Fixpoint plusLazy (cl : cclass) (inp : jsstring)
         (k : jsstring -> option MatchState) : option MatchState :=
  match inp with
  | c :: rest =>
      if classMatches cl c then orTry (k rest) (plusLazy cl rest k)
      else None
  | [] => None
  end.

(** The continuation that ends a match. *)
Definition accept : jsstring -> option jsstring -> option MatchState :=
  fun rest cap => Some (rest, cap).

Fixpoint matchHere (r : regex) (inp : jsstring) (cap : option jsstring)
         (k : jsstring -> option jsstring -> option MatchState)
  : option MatchState :=
  match r with
  | RLit s =>
      match stripPrefix s inp with
      | Some rest => k rest cap
      | None => None
      end
  | RStar cl => starGreedy cl inp (fun rest => k rest cap)
  | RPlus cl =>
      match inp with
      | c :: rest =>
          if classMatches cl c
          then starGreedy cl rest (fun rest' => k rest' cap)
          else None
      | [] => None
      end
  | RPlusLazy cl => plusLazy cl inp (fun rest => k rest cap)
  | RSeq r1 r2 =>
      matchHere r1 inp cap (fun rest cap' => matchHere r2 rest cap' k)
  | RAlt r1 r2 => orTry (matchHere r1 inp cap k) (matchHere r2 inp cap k)
  | RGroup r1 =>
      matchHere r1 inp cap
        (fun rest _ =>
           k rest (Some (firstn (length inp - length rest) inp)))
  | RAhead r1 =>
      match matchHere r1 inp cap accept with
      | Some (_, cap') => k inp cap'
      | None => None
      end
  | REnd =>
      match inp with
      | [] => k inp cap
      | _ :: _ => None
      end
  end.

(** [content.match(r)] for a pattern without the [g] flag: the leftmost
    position at which the pattern matches; [None] is [null]. *)
Fixpoint regexMatch (r : regex) (content : jsstring) : option MatchState :=
  orTry (matchHere r content None accept)
        (match content with
         | [] => None
         | _ :: rest => regexMatch r rest
         end).

(** [m?.[1]] *)
Definition group1 (m : option MatchState) : option jsstring :=
  match m with
  | Some (_, cap) => cap
  | None => None
  end.

(** [x || y] where [x] is a string or [undefined]. *)
Definition orDefault (x : option jsstring) (y : jsstring) : jsstring :=
  match x with
  | Some s => orElse s y
  | None => y
  end.

End Regex.
Import Regex.

(** ** The labels of the reply format *)

Definition colon : jsstring := js ":".
Definition newline : jsstring := [10%N].
(** The Hebrew words of the format: "solution", "time", "space". *)
Definition pitaron : jsstring := [1508; 1514; 1512; 1493; 1503]%N.
Definition zman : jsstring := [1494; 1502; 1503]%N.
Definition makom : jsstring := [1502; 1511; 1493; 1501]%N.

Definition solutionLabel : jsstring := pitaron ++ colon.
Definition timeLabel : jsstring := zman ++ colon.
Definition spaceLabel : jsstring := makom ++ colon.

(** [O\([^)]+\)] in a capture group, after a label and [\s*]. *)
Definition complexityRe (label : jsstring) : regex :=
  RSeq (RLit label)
       (RSeq (RStar CSpace)
             (RGroup (RSeq (RLit (js "O("))
                           (RSeq (RPlus (CNot 41%N)) (RLit (js ")")))))).

Definition unknownComplexity : jsstring := js "O(?)".

(** ** [functions/src/utils.ts]: [parseAIResponse] *)

Module Utils.

(** [/פתרון:\s*(.+?)(?=\n(?:זמן|מקום):|$)/s] *)
Definition solutionRe : regex :=
  RSeq (RLit solutionLabel)
       (RSeq (RStar CSpace)
             (RSeq (RGroup (RPlusLazy CAny))
                   (RAhead
                      (RAlt (RSeq (RLit newline)
                                  (RSeq (RAlt (RLit zman) (RLit makom))
                                        (RLit colon)))
                            REnd)))).

Definition parseAIResponse (content : jsstring) : AISummary :=
  let solutionMatch := regexMatch solutionRe content in
  let timeMatch := regexMatch (complexityRe timeLabel) content in
  let spaceMatch := regexMatch (complexityRe spaceLabel) content in
  mkAISummary
    (orDefault (option_map trim (group1 solutionMatch)) (trim content))
    (orDefault (group1 timeMatch) unknownComplexity)
    (orDefault (group1 spaceMatch) unknownComplexity).

End Utils.

(** ** [functions/src/index.ts]: the parsing inside [getQuestionSummary]
       (and, identically, inside [generateAISummary]) *)

Module Index.

(** [/פתרון:\s*(.+?)(?=\nזמן:|$)/s] *)
Definition solutionRe : regex :=
  RSeq (RLit solutionLabel)
       (RSeq (RStar CSpace)
             (RSeq (RGroup (RPlusLazy CAny))
                   (RAhead (RAlt (RLit (newline ++ timeLabel)) REnd)))).

(** The statements under "Parse the response". *)
Definition parseContent (content : jsstring) : AISummary :=
  let solutionMatch := regexMatch solutionRe content in
  let timeMatch := regexMatch (complexityRe timeLabel) content in
  let spaceMatch := regexMatch (complexityRe spaceLabel) content in
  mkAISummary
    (orDefault (option_map trim (group1 solutionMatch)) (trim content))
    (orDefault (group1 timeMatch) unknownComplexity)
    (orDefault (group1 spaceMatch) unknownComplexity).

(** How the request to the text-generation endpoint ends. *)
Inductive FetchOutcome : Type :=
| FetchThrows                       (* transport error *)
| FetchNotOk                        (* [!response.ok] *)
| FetchOk (content : option jsstring).
                (* [result.choices?.[0]?.message?.content] *)

(** [getQuestionSummary]; [Throw] is an [HttpsError]. *)
Definition getQuestionSummary (apiKey : option jsstring)
           (response : FetchOutcome) : result AISummary :=
  match apiKey with
  | None => Throw
  | Some key =>
      if negb (truthy key) then Throw
      else
        match response with
        | FetchThrows => Throw
        | FetchNotOk => Throw
        | FetchOk c => Ok (parseContent (orDefault c []))
        end
  end.

End Index.

(** ** Dates

    The time value of a [Date] is a number of milliseconds since the epoch,
    or NaN for an invalid date.  The abstract operations are those of the
    language definition ("Date objects"); the local time zone is a
    parameter. *)

Module JsDate.

Local Open Scope Z_scope.

(** A time value; [None] is NaN. *)
Definition Date : Type := option Z.

Definition msPerDay : Z := 86400000.
Definition msPerHour : Z := 3600000.
Definition msPerMinute : Z := 60000.
Definition msPerSecond : Z := 1000.
Definition maxTime : Z := 8640000000000000.

Definition Day (t : Z) : Z := t / msPerDay.
Definition TimeWithinDay (t : Z) : Z := t mod msPerDay.

Definition DaysInYear (y : Z) : Z :=
  if (y mod 4 =? 0) && (negb (y mod 100 =? 0) || (y mod 400 =? 0))
  then 366 else 365.

Definition DayFromYear (y : Z) : Z :=
  365 * (y - 1970) + (y - 1969) / 4 - (y - 1901) / 100 + (y - 1601) / 400.

(** The largest year that starts on or before day [d], searched upwards
    from a year that starts before it. *)
Fixpoint yearSearch (fuel : nat) (d y : Z) : Z :=
  match fuel with
  | O => y
  | S fuel' =>
      if DayFromYear (y + 1) <=? d then yearSearch fuel' d (y + 1) else y
  end.

Definition YearFromTime (t : Z) : Z :=
  let d := Day t in
  let y0 := 1969 + Z.min (d / 365) (d / 366) in
  yearSearch (Z.to_nat (Z.abs d / 100000 + 3)) d y0.

Definition InLeapYear (t : Z) : bool := DaysInYear (YearFromTime t) =? 366.

Definition DayWithinYear (t : Z) : Z := Day t - DayFromYear (YearFromTime t).

(** The day of the year on which month [m] (0 to 11) starts. *)
Definition monthStart (m : Z) (leap : bool) : Z :=
  let l := if leap then 1 else 0 in
  if m =? 0 then 0
  else if m =? 1 then 31
  else if m =? 2 then 59 + l
  else if m =? 3 then 90 + l
  else if m =? 4 then 120 + l
  else if m =? 5 then 151 + l
  else if m =? 6 then 181 + l
  else if m =? 7 then 212 + l
  else if m =? 8 then 243 + l
  else if m =? 9 then 273 + l
  else if m =? 10 then 304 + l
  else 334 + l.

Definition MonthFromTime (t : Z) : Z :=
  let d := DayWithinYear t in
  let l := if InLeapYear t then 1 else 0 in
  if d <? 31 then 0
  else if d <? 59 + l then 1
  else if d <? 90 + l then 2
  else if d <? 120 + l then 3
  else if d <? 151 + l then 4
  else if d <? 181 + l then 5
  else if d <? 212 + l then 6
  else if d <? 243 + l then 7
  else if d <? 273 + l then 8
  else if d <? 304 + l then 9
  else if d <? 334 + l then 10
  else 11.

Definition DateFromTime (t : Z) : Z :=
  DayWithinYear t - monthStart (MonthFromTime t) (InLeapYear t) + 1.

Definition WeekDay (t : Z) : Z := (Day t + 4) mod 7.

Definition HourFromTime (t : Z) : Z := (t / msPerHour) mod 24.
Definition MinFromTime (t : Z) : Z := (t / msPerMinute) mod 60.
Definition SecFromTime (t : Z) : Z := (t / msPerSecond) mod 60.
Definition msFromTime (t : Z) : Z := t mod msPerSecond.

Definition MakeTime (hour min sec ms : Z) : Z :=
  hour * msPerHour + min * msPerMinute + sec * msPerSecond + ms.

Definition MakeDay (year month date : Z) : Z :=
  let ym := year + month / 12 in
  let mn := month mod 12 in
  DayFromYear ym + monthStart mn (DaysInYear ym =? 366) + date - 1.

Definition MakeDate (day time : Z) : Z := day * msPerDay + time.

Definition TimeClip (t : Z) : Date :=
  if Z.abs t <=? maxTime then Some t else None.

Section LocalZone.

(** [LocalTZA t isUTC]: the offset of local time from UTC, in
    milliseconds, at the UTC time [t] ([isUTC = true]) or at the local
    time [t] ([isUTC = false]); it is what the host knows about the
    time zone. *)
Variable LocalTZA : Z -> bool -> Z.

Definition LocalTime (t : Z) : Z := t + LocalTZA t true.
Definition UTC (t : Z) : Z := t - LocalTZA t false.

(** The zone keeps the offset [tza], of less than a day, from eight days
    before the instant [t] to six days after it. *)
Definition steadyAround (tza t : Z) : Prop :=
  - msPerDay <= tza <= msPerDay /\
  forall x isUTC,
    t - 8 * msPerDay <= x <= t + 6 * msPerDay -> LocalTZA x isUTC = tza.

(** Getters: NaN on an invalid date. *)
Definition getDay (d : Date) : option Z :=
  option_map (fun t => WeekDay (LocalTime t)) d.
Definition getDate (d : Date) : option Z :=
  option_map (fun t => DateFromTime (LocalTime t)) d.
Definition getHours (d : Date) : option Z :=
  option_map (fun t => HourFromTime (LocalTime t)) d.
Definition getMinutes (d : Date) : option Z :=
  option_map (fun t => MinFromTime (LocalTime t)) d.
Definition getSeconds (d : Date) : option Z :=
  option_map (fun t => SecFromTime (LocalTime t)) d.
Definition getMilliseconds (d : Date) : option Z :=
  option_map (fun t => msFromTime (LocalTime t)) d.

(** [d.setDate(dt)]: the date after the assignment. *)
Definition setDate (d : Date) (dt : option Z) : Date :=
  match d, dt with
  | Some tv, Some dt' =>
      let t := LocalTime tv in
      let newDate :=
        MakeDate (MakeDay (YearFromTime t) (MonthFromTime t) dt')
                 (TimeWithinDay t) in
      TimeClip (UTC newDate)
  | _, _ => None
  end.

(** [d.setHours(hour, min, sec, ms)]: the date after the assignment. *)
Definition setHours (d : Date) (hour min sec ms : Z) : Date :=
  match d with
  | Some tv =>
      let t := LocalTime tv in
      let date := MakeDate (Day t) (MakeTime hour min sec ms) in
      TimeClip (UTC date)
  | None => None
  end.

(** Arithmetic on numbers that may be NaN. *)
Definition numSub (a b : option Z) : option Z :=
  match a, b with Some x, Some y => Some (x - y) | _, _ => None end.
Definition numAdd (a b : option Z) : option Z :=
  match a, b with Some x, Some y => Some (x + y) | _, _ => None end.

(** [a < b] and [a > b] on dates; false when either is invalid. *)
Definition dateLt (a b : Date) : bool :=
  match a, b with Some x, Some y => x <? y | _, _ => false end.
Definition dateGt (a b : Date) : bool := dateLt b a.

Record WeekRange : Type := mkWeekRange { start : Date; end_ : Date }.

(** [functions/src/utils.ts]: [getWeekRange] *)
Definition getWeekRange (now : Date) : WeekRange :=
  let dayOfWeek := getDay now in
  let sunday := now in
  let sunday := setDate sunday (numSub (getDate now) dayOfWeek) in
  let sunday := setHours sunday 0 0 0 0 in
  let thursday := sunday in
  let thursday := setDate thursday (numAdd (getDate sunday) (Some 4)) in
  let thursday := setHours thursday 23 59 59 999 in
  mkWeekRange sunday thursday.

(** A reference instant whose week lies inside the range of time
    values that a [Date] can hold. *)
Definition weekRepresentable (t : Z) : Prop :=
  - maxTime + 7 * msPerDay <= t <= maxTime - 5 * msPerDay.

End LocalZone.

End JsDate.

(** ** The local times of a week on the clock of a zone

    What [getWeekRange] needs from the zone: the local times that it
    passes through, from the reference instant to the end of the
    Thursday, are on the clock, and the instants that stand for them are
    time values. *)

Module WeekClock.

Import JsDate.

Local Open Scope Z_scope.

Section Zone.

Variable LocalTZA : Z -> bool -> Z.

(** The local time at which the local week of the instant [t] starts:
    the midnight that begins its Sunday. *)
Definition weekSunday (t : Z) : Z :=
  (Day (LocalTime LocalTZA t) - WeekDay (LocalTime LocalTZA t)) * msPerDay.

(** The clock shows the local time [tl]: the instant that stands for it
    has this local time (no clock change skips it). *)
Definition shown (tl : Z) : Prop :=
  LocalTime LocalTZA (UTC LocalTZA tl) = tl.

(** The clock shows [tl], and the week that starts at [tl] begins at
    the instant that stands for it: no earlier instant has a local time
    in the seven days from [tl]. *)
Definition begins (tl : Z) : Prop :=
  shown tl /\
  forall x,
    tl <= LocalTime LocalTZA x < tl + 7 * msPerDay -> UTC LocalTZA tl <= x.

(** The instant that stands for the local time [tl] is on the local day
    of [tl]: a clock change may skip [tl], but not move it to another
    day. *)
Definition keepsDay (tl : Z) : Prop :=
  Day (LocalTime LocalTZA (UTC LocalTZA tl)) = Day tl.

(** A time value that a [Date] can hold. *)
Definition holds (x : Z) : Prop := - maxTime <= x <= maxTime.

(** The week of the instant [t] is on the clock: the Sunday at the time
    of day of [t] and the Thursday at 00:00 stay on their days, the
    Sunday at 00:00:00.000 begins on the clock, the Thursday at
    23:59:59.999 is on it, and the four instants are time values. *)
Definition weekOnClock (t : Z) : Prop :=
  let sunday := weekSunday t in
  let sameTime := sunday + TimeWithinDay (LocalTime LocalTZA t) in
  let thursday := sunday + 4 * msPerDay in
  let lastMs := sunday + 5 * msPerDay - 1 in
  (keepsDay sameTime /\ holds (UTC LocalTZA sameTime)) /\
  (begins sunday /\ holds (UTC LocalTZA sunday)) /\
  (keepsDay thursday /\ holds (UTC LocalTZA thursday)) /\
  (shown lastMs /\ holds (UTC LocalTZA lastMs)).

(** The local days of the zone never go back: a later instant is on the
    same local day or on a later one. *)
Definition dayMonotone : Prop :=
  forall x y,
    x <= y -> Day (LocalTime LocalTZA x) <= Day (LocalTime LocalTZA y).

End Zone.

End WeekClock.

(** ** [functions/src/index.ts]: [backfillWeekSummaries] *)

Module Backfill.

Import JsDate.

(** What the world decides during one backfill. *)
Record BackfillEnv : Type := mkBackfillEnv {
  apiKey : option jsstring;
  localTZA : Z -> bool -> Z;                 (* the zone of the server *)
  now : Date;                                (* [new Date()] *)
  parseDate : jsstring -> Date;              (* [new Date(text)] *)
  listFault : bool;                          (* the read throws *)
  fetch : Doc RetrievedQuestion.t -> Index.FetchOutcome;
                                             (* the request made for a
                                                document *)
  updateFault : Doc RetrievedQuestion.t -> bool
                                             (* the update of a document
                                                throws *)
}.

(** [generateAISummary]; [Throw] is the error of a failed request. *)
Definition generateAISummary (response : Index.FetchOutcome)
  : result AISummary :=
  match response with
  | Index.FetchThrows => Throw
  | Index.FetchNotOk => Throw
  | Index.FetchOk c => Ok (Index.parseContent (orDefault c []))
  end.

Record Counters : Type := mkCounters { updated : nat; errors : nat }.

(** The body of the loop over the documents of the snapshot; the range
    is computed by the statements of [getWeekRange], repeated inline. *)
Definition visit (env : BackfillEnv)
           (acc : Counters * Collection RetrievedQuestion.t)
           (doc : Doc RetrievedQuestion.t)
  : Counters * Collection RetrievedQuestion.t :=
  let '(n, col) := acc in
  let range := getWeekRange (localTZA env) (now env) in
  let sunday := start range in
  let thursday := end_ range in
  let question := doc_data doc in
  let sentDate := parseDate env (RetrievedQuestion.sentDate question) in
  if dateLt sentDate sunday || dateGt sentDate thursday then acc
  else
    match RetrievedQuestion.aiSummary question with
    | Some _ => acc
    | None =>
        match generateAISummary (fetch env doc) with
        | Ok aiSummary =>
            if updateFault env doc
            then (mkCounters (updated n) (S (errors n)), col)
            else
              (mkCounters (S (updated n)) (errors n),
               updateDoc (doc_id doc)
                         (RetrievedQuestion.set_aiSummary aiSummary) col)
        | Throw => (mkCounters (updated n) (S (errors n)), col)
        end
    end.

(** [backfillWeekSummaries]: the counters (or the error) and the
    collection afterwards. *)
Definition backfillWeekSummaries (env : BackfillEnv)
           (col : Collection RetrievedQuestion.t)
  : result Counters * Collection RetrievedQuestion.t :=
  match apiKey env with
  | None => (Throw, col)
  | Some key =>
      if negb (truthy key) then (Throw, col)
      else
        match getDocs (listFault env) (fun _ => true) col with
        | Throw => (Throw, col)
        | Ok snapshot =>
            let '(n, col') :=
              fold_left (visit env) snapshot (mkCounters 0 0, col) in
            (Ok n, col')
        end
  end.

End Backfill.

(** ** The system as a transition system on the sent-record collection

    The operations that write to [retrievedQuestions]. *)

Module System.

Import QuestionService.

Definition Store : Type := Collection RetrievedQuestion.t.

Inductive step : Store -> Store -> Prop :=
| step_mark (env : MarkEnv) (question : Question.t) (col : Store) :
    step col (snd (markQuestionAsSent env question col))
| step_unsend (env : UnsendEnv) (questionId : jsstring) (col : Store) :
    step col (snd (unsendQuestion env questionId col))
| step_backfill (env : Backfill.BackfillEnv) (col : Store) :
    step col (snd (Backfill.backfillWeekSummaries env col)).

(** The states reachable from the empty collection. *)
Inductive reachable : Store -> Prop :=
| reachable_empty : reachable []
| reachable_step (col col' : Store) :
    reachable col -> step col col' -> reachable col'.

Definition allChosen (col : Store) : Prop :=
  Forall (fun d => RetrievedQuestion.isChosen (doc_data d) = true) col.

End System.

(** ** The parsing rule of the specification *)

Module ParseSpec.

(** The text begins with a new line that begins with the time label, or
    with the space label. *)
Definition atTimeLine (s : jsstring) : bool :=
  startsWith (newline ++ timeLabel) s.

Definition atSpaceLine (s : jsstring) : bool :=
  startsWith (newline ++ spaceLabel) s.

Definition atNextLabel (s : jsstring) : bool :=
  atTimeLine s || atSpaceLine s.

(** The text before the first place at which [stops] holds, or all of it. *)
Fixpoint upto (stops : jsstring -> bool) (s : jsstring) : jsstring :=
  if stops s then []
  else match s with
       | [] => []
       | c :: rest => c :: upto stops rest
       end.

(** What follows the first occurrence of the solution label. *)
Fixpoint afterSolutionLabel (s : jsstring) : option jsstring :=
  match stripPrefix solutionLabel s with
  | Some rest => Some rest
  | None => match s with
            | [] => None
            | _ :: rest => afterSolutionLabel rest
            end
  end.

(** The trimmed text between the solution label and the first place at
    which [stops] holds; the whole trimmed text when the label is
    absent. *)
Definition segment (stops : jsstring -> bool) (content : jsstring)
  : jsstring :=
  match afterSolutionLabel content with
  | Some rest => trim (upto stops rest)
  | None => trim content
  end.

(** "Everything after the solution label up to, and not including, the
    next line beginning with the time or space label, or end of text if
    neither follows", trimmed. *)
Definition solutionOf (content : jsstring) : jsstring :=
  segment atNextLabel content.

(** The same with the time label alone. *)
Definition solutionUptoTime (content : jsstring) : jsstring :=
  segment atTimeLine content.

(** The shape shared by the solution patterns of the sources:
    the label, [\s*], a lazy capture, and a lookahead. *)
Definition afterLabel (ahead : regex) : regex :=
  RSeq (RStar CSpace) (RSeq (RGroup (RPlusLazy CAny)) (RAhead ahead)).

Definition solutionPattern (ahead : regex) : regex :=
  RSeq (RLit solutionLabel) (afterLabel ahead).

(** [solutionMatch?.[1]?.trim() || content.trim()] *)
Definition solutionBy (re : regex) (content : jsstring) : jsstring :=
  orDefault (option_map trim (group1 (regexMatch re content)))
            (trim content).

End ParseSpec.

(** ** Sample data *)

Module Examples.

Import QuestionService.

Definition easy : jsstring := js "Easy".
Definition noon : jsstring := js "2026-01-01T12:00:00.000Z".

Definition twoSum : Question.t :=
  Question.mk (js "test-id-123") (js "42") (js "Two Sum") (js "two-sum")
              easy
              [mkTopicTag (js "Array") (js "array");
               mkTopicTag (js "Hash Table") (js "hash-table")].

Definition addTwo : Question.t :=
  Question.mk (js "test-id-2") (js "2") (js "Add Two Numbers")
              (js "add-two-numbers") easy [].

Definition questions : Collection Question.t :=
  [mkDoc (js "test-id-123") twoSum; mkDoc (js "test-id-2") addTwo].

(** [twoSum] was sent. *)
Definition sentTwoSum : Collection RetrievedQuestion.t :=
  [mkDoc (js "rec-1") (createRetrievedQuestion noon twoSum)].

(** Both questions were sent. *)
Definition sentBoth : Collection RetrievedQuestion.t :=
  [mkDoc (js "rec-1") (createRetrievedQuestion noon twoSum);
   mkDoc (js "rec-2") (createRetrievedQuestion noon addTwo)].

(** [twoSum] was recorded twice, as two racing writers leave it. *)
Definition sentTwice : Collection RetrievedQuestion.t :=
  [mkDoc (js "rec-1") (createRetrievedQuestion noon twoSum);
   mkDoc (js "rec-3") (createRetrievedQuestion noon twoSum)].

Definition quietSelect : SelectEnv :=
  mkSelectEnv false false (mkDouble 0 53).

(** The summary service is down. *)
Definition aiDown : AIEnv := mkAIEnv true Throw.

Definition markEnv (newId : jsstring) : MarkEnv :=
  mkMarkEnv false aiDown noon (Ok (newId, 0%nat)).

Definition quietUnsend : UnsendEnv := mkUnsendEnv false false.

(** The reply of the test "should handle missing time complexity":
    the solution label, the text [simpleSolution], and on the next line
    the space label with [O(1)]. *)
Definition simpleSolution : jsstring :=
  [1508; 1514; 1512; 1493; 1503; 32; 1508; 1513; 1493; 1496]%N.

Definition missingTime : jsstring :=
  solutionLabel ++ js " " ++ simpleSolution ++
  newline ++ spaceLabel ++ js " O(1)".

(** A reply whose solution line is empty. *)
Definition emptySolution : jsstring :=
  solutionLabel ++ newline ++ timeLabel ++ js " O(n)".

(** Time zones: UTC; UTC+2 all year; and Santiago de Chile around the
    night of 7 to 8 September 2024, when the clocks went from 24:00
    (UTC-4) straight to 01:00 (UTC-3), at 2024-09-08T04:00:00Z. *)
Definition utc : Z -> bool -> Z := fun _ _ => 0%Z.

Definition utcPlus2 : Z -> bool -> Z := fun _ _ => 7200000%Z.

Definition santiago2024 : Z -> bool -> Z :=
  fun t isUTC =>
    if isUTC
    then (if t <? 1725768000000 then -14400000 else -10800000)%Z
    else (if t <? 1725757200000 then -14400000 else -10800000)%Z.

(** Berlin in 2024: UTC+1, and UTC+2 from 31 March, 01:00 UTC, to
    27 October, 01:00 UTC.  A local time that a change skips or repeats
    is read with the offset before the change. *)
Definition berlin2024 : Z -> bool -> Z :=
  fun t isUTC =>
    if isUTC
    then (if t <? 1711846800000 then 3600000
          else if t <? 1729990800000 then 7200000 else 3600000)%Z
    else (if t <? 1711854000000 then 3600000
          else if t <? 1729998000000 then 7200000 else 3600000)%Z.

(** Wednesday 2024-04-03T12:00:00 in Berlin, three days after the
    clocks went forward. *)
Definition berlinWednesday : Z := 1712138400000%Z.

(** Thursday 2026-01-01T12:00:00 in UTC+2. *)
Definition newYearNoon : Z := 1767261600000%Z.

(** Wednesday 2024-09-11T12:00:00 in Santiago, and two weeks later. *)
Definition santiagoWednesday : Z := 1726066800000%Z.
Definition santiagoLater : Z := 1727276400000%Z.

End Examples.

(** ** The sequential system with working existence checks

    The steps in which the existence check of a mark is answered and the
    store creates documents under ids that are not empty and not in use. *)

Module Checked.

Import QuestionService.

(** [addDoc] picks a usable id: not empty and not in use. *)
Definition freshId (env : MarkEnv)
           (col : Collection RetrievedQuestion.t) : Prop :=
  forall newId place,
    added env = Ok (newId, place) ->
    newId <> [] /\ ~ In newId (List.map (@doc_id _) col).

Inductive step : System.Store -> System.Store -> Prop :=
| step_mark (env : MarkEnv) (question : Question.t) (col : System.Store) :
    checkFault env = false ->
    freshId env col ->
    step col (snd (markQuestionAsSent env question col))
| step_unsend (env : UnsendEnv) (questionId : jsstring)
              (col : System.Store) :
    step col (snd (unsendQuestion env questionId col))
| step_backfill (env : Backfill.BackfillEnv) (col : System.Store) :
    step col (snd (Backfill.backfillWeekSummaries env col)).

Inductive reachable : System.Store -> Prop :=
| reachable_empty : reachable []
| reachable_step (col col' : System.Store) :
    reachable col -> step col col' -> reachable col'.

(** At most one sent record for each question. *)
Definition uniqueRecords (col : System.Store) : Prop :=
  forall questionId, (recordsFor questionId col <= 1)%nat.

End Checked.

(** ** [client/src/App.tsx]: the handlers of the question card *)

Module App.

Import QuestionService.

(** The component state that the handlers read and set. *)
Record State : Type := mkState {
  selectedDifficulty : jsstring;
  randomQuestion : option Question.t;
  isRetrieving : bool;
  retrievalError : option jsstring;
  questionSent : bool
}.

(** [`No more unsent ${selectedDifficulty} questions available!`] *)
Definition noMoreUnsent (selectedDifficulty : jsstring) : jsstring :=
  js "No more unsent " ++ selectedDifficulty ++ js " questions available!".

(** What the world decides during [handleGetRandomQuestion]. *)
Record RetrieveEnv : Type := mkRetrieveEnv {
  selecting : SelectEnv;
  marking : MarkEnv;
  recheckFault : bool    (* the query of the fallback check throws *)
}.

(** [handleGetRandomQuestion]: the state once the handler has run, and
    the sent-record collection. *)
Definition handleGetRandomQuestion
           (env : RetrieveEnv) (st : State)
           (questionsCol : Collection Question.t)
           (retrievedQuestionsCol : Collection RetrievedQuestion.t)
  : State * Collection RetrievedQuestion.t :=
  let question :=
    getRandomUnsentQuestionByDifficulty
      (selecting env) questionsCol retrievedQuestionsCol
      (selectedDifficulty st) in
  match question with
  | None =>
      (mkState (selectedDifficulty st) None false
               (Some (noMoreUnsent (selectedDifficulty st)))
               (questionSent st),
       retrievedQuestionsCol)
  | Some q =>
      let '(retrievedId, col') :=
        markQuestionAsSent (marking env) q retrievedQuestionsCol in
      let sent :=
        match retrievedId with
        | Some docId =>
            if truthy docId then true
            else isSent (isQuestionAlreadySent (recheckFault env) col'
                                               (Question.id q))
        | None =>
            isSent (isQuestionAlreadySent (recheckFault env) col'
                                          (Question.id q))
        end in
      (mkState (selectedDifficulty st) (Some q) false None sent, col')
  end.

(** What the world decides during [handleToggleSentStatus]. *)
Record ToggleEnv : Type := mkToggleEnv {
  unsending : UnsendEnv;
  remarking : MarkEnv
}.

(** [handleToggleSentStatus] *)
Definition handleToggleSentStatus
           (env : ToggleEnv) (st : State)
           (retrievedQuestionsCol : Collection RetrievedQuestion.t)
  : State * Collection RetrievedQuestion.t :=
  match randomQuestion st with
  | None => (st, retrievedQuestionsCol)
  | Some q =>
      if questionSent st then
        let '(success, col') :=
          unsendQuestion (unsending env) (Question.id q)
                         retrievedQuestionsCol in
        (mkState (selectedDifficulty st) (randomQuestion st) false
                 (retrievalError st)
                 (if success then false else questionSent st),
         col')
      else
        let '(retrievedId, col') :=
          markQuestionAsSent (remarking env) q retrievedQuestionsCol in
        (mkState (selectedDifficulty st) (randomQuestion st) false
                 (retrievalError st)
                 (match retrievedId with
                  | Some docId =>
                      if truthy docId then true else questionSent st
                  | None => questionSent st
                  end),
         col')
  end.

(** The flag of the card agrees with the store: the question shown, if
    any, has one record when the flag is set and none otherwise. *)
Definition consistent (st : State)
           (col : Collection RetrievedQuestion.t) : Prop :=
  match randomQuestion st with
  | None => True
  | Some q =>
      recordsFor (Question.id q) col =
      if questionSent st then 1%nat else 0%nat
  end.

(** The statistics of the header. *)
Record Stats : Type := mkStats {
  total : nat; easy : nat; medium : nat; hard : nat;
  sent : nat; sentEasy : nat; sentMedium : nat; sentHard : nat
}.

(** The loop of the listener on [retrievedQuestions]: one counter per
    known difficulty. *)
Definition countDifficulty
           (acc : nat * nat * nat) (doc : Doc RetrievedQuestion.t)
  : nat * nat * nat :=
  let '(sentEasy_, sentMedium_, sentHard_) := acc in
  let difficulty := RetrievedQuestion.difficulty (doc_data doc) in
  if eqb difficulty (js "Easy") then (S sentEasy_, sentMedium_, sentHard_)
  else if eqb difficulty (js "Medium")
       then (sentEasy_, S sentMedium_, sentHard_)
       else if eqb difficulty (js "Hard")
            then (sentEasy_, sentMedium_, S sentHard_)
            else acc.

(** The listener: [setStats(prevStats => ({...prevStats, sent, sentEasy,
    sentMedium, sentHard}))]. *)
Definition onRetrievedSnapshot
           (snapshot : Collection RetrievedQuestion.t) (prevStats : Stats)
  : Stats :=
  let '(sentEasy_, sentMedium_, sentHard_) :=
    fold_left countDifficulty snapshot (0, 0, 0)%nat in
  mkStats (total prevStats) (easy prevStats) (medium prevStats)
          (hard prevStats)
          (length snapshot) sentEasy_ sentMedium_ sentHard_.

(** A record whose difficulty is one of the three the listener counts. *)
Definition knownDifficulty (doc : Doc RetrievedQuestion.t) : bool :=
  let difficulty := RetrievedQuestion.difficulty (doc_data doc) in
  eqb difficulty (js "Easy") || eqb difficulty (js "Medium")
  || eqb difficulty (js "Hard").

End App.

(** ** Views on a backfill *)

Module BackfillView.

Import JsDate Backfill.

(** The documents that the loop does not skip: the sent date is neither
    before the Sunday nor after the Thursday, and there is no summary. *)
Definition pending (env : BackfillEnv) (doc : Doc RetrievedQuestion.t)
  : bool :=
  let range := getWeekRange (localTZA env) (now env) in
  let sentDate :=
    parseDate env (RetrievedQuestion.sentDate (doc_data doc)) in
  negb (dateLt sentDate (start range) || dateGt sentDate (end_ range))
  && match RetrievedQuestion.aiSummary (doc_data doc) with
     | Some _ => false
     | None => true
     end.

(** The summary that the loop writes into a document, when the request
    and the update both succeed. *)
Definition written (env : BackfillEnv) (doc : Doc RetrievedQuestion.t)
  : option AISummary :=
  match generateAISummary (fetch env doc) with
  | Ok aiSummary => if updateFault env doc then None else Some aiSummary
  | Throw => None
  end.

(** A document after the backfill. *)
Definition refreshed (env : BackfillEnv) (doc : Doc RetrievedQuestion.t)
  : Doc RetrievedQuestion.t :=
  if pending env doc then
    match written env doc with
    | Some aiSummary =>
        mkDoc (doc_id doc)
              (RetrievedQuestion.set_aiSummary aiSummary (doc_data doc))
    | None => doc
    end
  else doc.

(** The same document but for its summary. *)
Definition sameButSummary (a b : Doc RetrievedQuestion.t) : Prop :=
  doc_id a = doc_id b /\
  RetrievedQuestion.questionId (doc_data a) =
  RetrievedQuestion.questionId (doc_data b) /\
  RetrievedQuestion.frontendQuestionId (doc_data a) =
  RetrievedQuestion.frontendQuestionId (doc_data b) /\
  RetrievedQuestion.title (doc_data a) =
  RetrievedQuestion.title (doc_data b) /\
  RetrievedQuestion.titleSlug (doc_data a) =
  RetrievedQuestion.titleSlug (doc_data b) /\
  RetrievedQuestion.difficulty (doc_data a) =
  RetrievedQuestion.difficulty (doc_data b) /\
  RetrievedQuestion.topicTags (doc_data a) =
  RetrievedQuestion.topicTags (doc_data b) /\
  RetrievedQuestion.sentDate (doc_data a) =
  RetrievedQuestion.sentDate (doc_data b) /\
  RetrievedQuestion.isChosen (doc_data a) =
  RetrievedQuestion.isChosen (doc_data b).

(** The backfill can run: the key is set and the listing answers. *)
Definition runs (env : BackfillEnv) : Prop :=
  (exists key, apiKey env = Some key /\ key <> []) /\ listFault env = false.

(** A backfill [env'] in the week of the backfill [env]: its instant
    and its zone give the same range, and it reads the sent dates of the
    documents as the first one does.  The key, the requests and the
    faults of the store are its own. *)
Definition sameWeek (env env' : BackfillEnv)
           (col : Collection RetrievedQuestion.t) : Prop :=
  getWeekRange (localTZA env') (now env') =
  getWeekRange (localTZA env) (now env) /\
  forall d, In d col ->
            parseDate env' (RetrievedQuestion.sentDate (doc_data d)) =
            parseDate env (RetrievedQuestion.sentDate (doc_data d)).

End BackfillView.

(** ** Outcomes of the loop of a backfill *)

Module BackfillCount.

Import Backfill BackfillView.

(** The pending documents for which the request and the update succeed,
    and those for which one of them fails. *)
Definition succeeds (env : BackfillEnv) (doc : Doc RetrievedQuestion.t)
  : bool :=
  pending env doc &&
  match written env doc with Some _ => true | None => false end.

Definition fails (env : BackfillEnv) (doc : Doc RetrievedQuestion.t)
  : bool :=
  pending env doc &&
  match written env doc with Some _ => false | None => true end.

End BackfillCount.

(** ** More sample data *)

Module Samples.

Import QuestionService.

(** [new Date(text)] for the one date text of the samples,
    2026-01-01T12:00:00.000Z. *)
Definition parseNoon (text : jsstring) : JsDate.Date :=
  if eqb text Examples.noon then Some 1767268800000%Z else None.

Definition someSummary : AISummary :=
  mkAISummary Examples.simpleSolution (js "O(n)") (js "O(1)").

(** [twoSum] was sent and has its summary; [addTwo] was sent and has
    none. *)
Definition sentHalfSummarized : Collection RetrievedQuestion.t :=
  [mkDoc (js "rec-1")
         (RetrievedQuestion.set_aiSummary
            someSummary
            (createRetrievedQuestion Examples.noon Examples.twoSum));
   mkDoc (js "rec-2")
         (createRetrievedQuestion Examples.noon Examples.addTwo)].

(** A backfill on Thursday 2026-01-01 in UTC+2, with requests that are
    answered by [Examples.missingTime]. *)
Definition backfillEnv : Backfill.BackfillEnv :=
  Backfill.mkBackfillEnv
    (Some (js "key")) Examples.utcPlus2 (Some Examples.newYearNoon)
    parseNoon false
    (fun _ => Index.FetchOk (Some Examples.missingTime))
    (fun _ => false).

(** A second backfill, eight hours later on the same Thursday, with
    another key, requests that fail and updates that fail. *)
Definition laterBackfillEnv : Backfill.BackfillEnv :=
  Backfill.mkBackfillEnv
    (Some (js "other-key")) Examples.utcPlus2 (Some 1767290400000%Z)
    parseNoon false
    (fun _ => Index.FetchThrows)
    (fun _ => true).

Definition card (q : option Question.t) (sent : bool) : App.State :=
  App.mkState Examples.easy q false None sent.

Definition retrieveEnv : App.RetrieveEnv :=
  App.mkRetrieveEnv Examples.quietSelect (Examples.markEnv (js "rec-2"))
                    false.

Definition toggleEnv : App.ToggleEnv :=
  App.mkToggleEnv Examples.quietUnsend (Examples.markEnv (js "rec-2")).

End Samples.

(** ** [functions/src/utils.ts]: [isDateInWeekRange] *)

Module WeekCheck.

Import JsDate.

Local Open Scope Z_scope.

(** [a >= b] and [a <= b] on dates; false when either is invalid. *)
Definition dateGe (a b : Date) : bool :=
  match a, b with Some x, Some y => y <=? x | _, _ => false end.
Definition dateLe (a b : Date) : bool :=
  match a, b with Some x, Some y => x <=? y | _, _ => false end.

Definition isDateInWeekRange (date : Date) (range : WeekRange) : bool :=
  dateGe date (start range) && dateLe date (end_ range).

(** The instant at which the local week of [t] starts, in a zone at the
    offset [tza]: the local midnight that begins its Sunday. *)
Definition weekStart (tza t : Z) : Z :=
  (Day (t + tza) - WeekDay (t + tza)) * msPerDay - tza.

(** A zone that keeps the offset [tza], of at most a day, at all
    times. *)
Definition fixedZone (LocalTZA : Z -> bool -> Z) (tza : Z) : Prop :=
  - msPerDay <= tza <= msPerDay /\
  forall x isUTC, LocalTZA x isUTC = tza.

End WeekCheck.

(** ** The reply format

    The format that the prompt of [getQuestionSummary] asks for: the
    solution label and the solution, then a line with the time label and
    [O(...)], then a line with the space label and [O(...)]. *)

Module ReplyFormat.

(** [O(body)] *)
Definition bigO (body : jsstring) : jsstring := js "O(" ++ body ++ js ")".

Definition reply (sol time space : jsstring) : jsstring :=
  solutionLabel ++ js " " ++ sol ++
  newline ++ timeLabel ++ js " " ++ bigO time ++
  newline ++ spaceLabel ++ js " " ++ bigO space.

(** A text without the character [c]. *)
Definition lacks (c : N) (s : jsstring) : bool :=
  forallb (fun x => negb (x =? c)%N) s.

(** A complexity of the form [O(body)], with a body that is not empty
    and has no closing parenthesis. *)
Definition wellFormedComplexity (c : jsstring) : Prop :=
  exists body, c = bigO body /\ body <> [] /\ lacks 41 body = true.

(** A text of white space only. *)
Definition blank (s : jsstring) : bool := forallb isSpace s.

End ReplyFormat.

(** ** [client/src/components/WeeklySummary.tsx] *)

Module WeeklySummary.

Import JsDate.

Local Open Scope Z_scope.

(** What the world decides during one load of the weekly summary. *)
Record WeekEnv : Type := mkWeekEnv {
  localTZA : Z -> bool -> Z;                 (* the zone of the browser *)
  now : Date;                                (* [new Date()] *)
  parseDate : jsstring -> Date;              (* [new Date(text)] *)
  listFault : bool                           (* the read throws *)
}.

(** The component state that [fetchWeekQuestions] sets. *)
Record State : Type := mkState {
  weekQuestions : list (Doc RetrievedQuestion.t);
  isLoading : bool;
  message : jsstring;
  dateRange : option WeekRange
}.

(** [date.getMonth()] *)
Definition getMonth (tza : Z -> bool -> Z) (d : Date) : option Z :=
  option_map (fun t => MonthFromTime (LocalTime tza t)) d.

(** [a === b] on numbers: NaN is equal to nothing. *)
Definition numEq (a b : option Z) : bool :=
  match a, b with Some x, Some y => x =? y | _, _ => false end.

(** A number in a template: an integer in decimal digits, or [NaN]. *)
Definition numberToString (n : option Z) : jsstring :=
  match n with
  | Some z => js (DecimalString.NilEmpty.string_of_int (Z.to_int z))
  | None => js "NaN"
  end.

(** ינואר, פברואר, מרץ, אפריל, מאי, יוני, יולי, אוגוסט, ספטמבר, אוקטובר, נובמבר, דצמבר *)
Definition months : list jsstring :=
  ([
    [1497; 1504; 1493; 1488; 1512];
    [1508; 1489; 1512; 1493; 1488; 1512];
    [1502; 1512; 1509];
    [1488; 1508; 1512; 1497; 1500];
    [1502; 1488; 1497];
    [1497; 1493; 1504; 1497];
    [1497; 1493; 1500; 1497];
    [1488; 1493; 1490; 1493; 1505; 1496];
    [1505; 1508; 1496; 1502; 1489; 1512];
    [1488; 1493; 1511; 1496; 1493; 1489; 1512];
    [1504; 1493; 1489; 1502; 1489; 1512];
    [1491; 1510; 1502; 1489; 1512]
  ])%N.

(** [months[i]] in a template: [undefined] out of the array. *)
Definition monthName (i : option Z) : jsstring :=
  match i with
  | Some z =>
      if 0 <=? z then nth (Z.to_nat z) months (js "undefined")
      else js "undefined"
  | None => js "undefined"
  end.

(** [formatDateRange] *)
Definition formatDateRange (tza : Z -> bool -> Z) (start end_ : Date)
  : jsstring :=
  let startDay := getDate tza start in
  let endDay := getDate tza end_ in
  let month := monthName (getMonth tza end_) in
  if numEq (getMonth tza start) (getMonth tza end_)
  then numberToString startDay ++ js "-" ++ numberToString endDay ++
       js " " ++ month
  else
    let startMonth := monthName (getMonth tza start) in
    numberToString startDay ++ js " " ++ startMonth ++ js " - " ++
    numberToString endDay ++ js " " ++ month.

(** [parts.join(sep)] *)
Fixpoint join (sep : jsstring) (parts : list jsstring) : jsstring :=
  match parts with
  | [] => []
  | [p] => p
  | p :: rest => p ++ sep ++ join sep rest
  end.

(** The bullet and the number sign that open the line of a question. *)
Definition bulletSign : jsstring := [8226; 32; 35]%N.

(** [formatQuestion] *)
Definition formatQuestion (q : Doc RetrievedQuestion.t) : jsstring :=
  let topics :=
    orElse (join (js ", ")
                 (List.map name (RetrievedQuestion.topicTags (doc_data q))))
           [] in
  let topicsPart :=
    if truthy topics then js " (" ++ topics ++ js ")" else [] in
  bulletSign ++ RetrievedQuestion.frontendQuestionId (doc_data q) ++
  js " " ++ RetrievedQuestion.title (doc_data q) ++ topicsPart.

(** [formatSection] *)
Definition formatSection (label emoji : jsstring)
           (qs : list (Doc RetrievedQuestion.t)) : jsstring :=
  match qs with
  | [] => []
  | _ :: _ =>
      emoji ++ js " " ++ label ++ js ":" ++ newline ++
      join newline (List.map formatQuestion qs) ++ newline
  end.

(** [q.difficulty === label] *)
Definition hasDifficulty (label : jsstring) (q : Doc RetrievedQuestion.t)
  : bool :=
  eqb (RetrievedQuestion.difficulty (doc_data q)) label.

(** The message of a week without questions: אין שאלות לשבוע זה *)
Definition noQuestions : jsstring :=
  [1488; 1497; 1503; 32; 1513; 1488; 1500; 1493; 1514; 32; 1500; 1513;
   1489; 1493; 1506; 32; 1494; 1492]%N.

(** The fixed parts of the message.
    Before the range of dates: 📊 סיכום שבועי - שאלות LeetCode / 🗓️ שבוע  *)
Definition heading : jsstring :=
  [55357; 56522; 32; 1505; 1497; 1499; 1493; 1501; 32; 1513; 1489; 1493;
   1506; 1497; 32; 45; 32; 1513; 1488; 1500; 1493; 1514; 32; 76; 101;
   101; 116; 67; 111; 100; 101; 10; 10; 55357; 56787; 65039; 32; 1513;
   1489; 1493; 1506; 32]%N.

(** The label of the total, before the number of questions. *)
Definition totalLabel : jsstring :=
  [10; 1505; 1492; 34; 1499; 58; 32]%N.

(** After the number of questions:  שאלות השבוע / 🚀 שבוע מעולה! 💪 *)
Definition closing : jsstring :=
  [32; 1513; 1488; 1500; 1493; 1514; 32; 1492; 1513; 1489; 1493; 1506;
   10; 10; 55357; 56960; 32; 1513; 1489; 1493; 1506; 32; 1502; 1506;
   1493; 1500; 1492; 33; 32; 55357; 56490; 10]%N.

Definition greenBook : jsstring := [55357; 56535]%N.
Definition orangeBook : jsstring := [55357; 56537]%N.
Definition redBook : jsstring := [55357; 56533]%N.

(** [generateMessage]: the text given to [setMessage]. *)
Definition generateMessage (tza : Z -> bool -> Z)
           (questions : list (Doc RetrievedQuestion.t)) (range : WeekRange)
  : jsstring :=
  match questions with
  | [] => noQuestions
  | _ :: _ =>
      let easy := filter (hasDifficulty (js "Easy")) questions in
      let medium := filter (hasDifficulty (js "Medium")) questions in
      let hard := filter (hasDifficulty (js "Hard")) questions in
      let dateRangeStr := formatDateRange tza (start range) (end_ range) in
      heading ++ dateRangeStr ++ newline ++ newline ++
      formatSection (js "Easy") greenBook easy ++
      formatSection (js "Medium") orangeBook medium ++
      formatSection (js "Hard") redBook hard ++
      totalLabel ++ numberToString (Some (Z.of_nat (length questions))) ++
      closing
  end.

(** [new Date(q.sentDate)] *)
Definition sentTime (env : WeekEnv) (q : Doc RetrievedQuestion.t) : Date :=
  parseDate env (RetrievedQuestion.sentDate (doc_data q)).

(** The filter of [fetchWeekQuestions]:
    [sentDate >= range.start && sentDate <= range.end]. *)
Definition inRange (env : WeekEnv) (range : WeekRange)
           (q : Doc RetrievedQuestion.t) : bool :=
  WeekCheck.dateGe (sentTime env q) (start range) &&
  WeekCheck.dateLe (sentTime env q) (end_ range).

(** The comparator given to [sort]: the difference of the two times. *)
Definition compareSent (env : WeekEnv) (a b : Doc RetrievedQuestion.t)
  : option Z :=
  numSub (sentTime env a) (sentTime env b).

(** The comparison that [Array.prototype.sort] makes with a comparator:
    a result that is NaN counts as zero. *)
Definition sortCompare (env : WeekEnv) (a b : Doc RetrievedQuestion.t)
  : Z :=
  match compareSent env a b with Some v => v | None => 0 end.

(** [Array.prototype.sort] is stable: an element goes before the first
    one that it does not compare greater than.  (With a comparator that
    is not consistent the language leaves the order open; the comparator
    is consistent on the elements that passed the filter, whose dates are
    valid.) *)
Fixpoint insertSorted (env : WeekEnv) (x : Doc RetrievedQuestion.t)
         (sorted : list (Doc RetrievedQuestion.t))
  : list (Doc RetrievedQuestion.t) :=
  match sorted with
  | [] => [x]
  | y :: rest =>
      if sortCompare env x y <=? 0 then x :: sorted
      else y :: insertSorted env x rest
  end.

Definition sort (env : WeekEnv) (l : list (Doc RetrievedQuestion.t))
  : list (Doc RetrievedQuestion.t) :=
  fold_right (insertSorted env) [] l.

(** [fetchWeekQuestions]: the state after the load.  A read that throws
    is caught and logged; the range has been set by then. *)
Definition fetchWeekQuestions (env : WeekEnv)
           (col : Collection RetrievedQuestion.t) (st : State) : State :=
  let range := getWeekRange (localTZA env) (now env) in
  match getDocs (listFault env) (fun _ => true) col with
  | Throw => mkState (weekQuestions st) false (message st) (Some range)
  | Ok snapshot =>
      let questions := sort env (filter (inRange env range) snapshot) in
      mkState questions false
              (generateMessage (localTZA env) questions range)
              (Some range)
  end.

(** The number of bullets in a text. *)
Definition bullets (s : jsstring) : nat :=
  length (filter (fun c => (c =? 8226)%N) s).

(** A question with one of the three difficulties of the sections. *)
Definition knownDifficulty (q : Doc RetrievedQuestion.t) : bool :=
  hasDifficulty (js "Easy") q || hasDifficulty (js "Medium") q ||
  hasDifficulty (js "Hard") q.

(** A question without a bullet in its number, its title and the names
    of its topics. *)
Definition plain (q : Doc RetrievedQuestion.t) : bool :=
  ReplyFormat.lacks 8226 (RetrievedQuestion.frontendQuestionId (doc_data q))
  && ReplyFormat.lacks 8226 (RetrievedQuestion.title (doc_data q))
  && forallb (fun t => ReplyFormat.lacks 8226 (name t))
             (RetrievedQuestion.topicTags (doc_data q)).

(** The questions sent at the instant [t]. *)
Definition sentAt (env : WeekEnv) (t : Z) (q : Doc RetrievedQuestion.t)
  : bool :=
  match sentTime env q with Some x => x =? t | None => false end.

(** [a] was sent no later than [b], and both dates are valid. *)
Definition notLater (env : WeekEnv) (a b : Doc RetrievedQuestion.t)
  : Prop :=
  exists x y, sentTime env a = Some x /\ sentTime env b = Some y /\ x <= y.

(** A backfill on the clock of a load of the weekly summary: the same
    zone, the same instant, the same reading of dates. *)
Definition sameClock (benv : Backfill.BackfillEnv) (env : WeekEnv) : Prop :=
  Backfill.localTZA benv = localTZA env /\
  Backfill.now benv = now env /\
  Backfill.parseDate benv = parseDate env.

End WeeklySummary.

Module WeekSamples.

Definition saturday : jsstring := js "2026-01-03T12:00:00.000Z".

(** [new Date(text)] for the date texts of the samples. *)
Definition parseDates (text : jsstring) : JsDate.Date :=
  if eqb text Examples.noon then Some 1767268800000%Z
  else if eqb text saturday then Some 1767441600000%Z
  else None.

(** Thursday 2026-01-01 in UTC+2. *)
Definition weekEnv : WeeklySummary.WeekEnv :=
  WeeklySummary.mkWeekEnv Examples.utcPlus2 (Some Examples.newYearNoon)
                          parseDates false.

Definition backfillEnv : Backfill.BackfillEnv :=
  Backfill.mkBackfillEnv
    (Some (js "key")) Examples.utcPlus2 (Some Examples.newYearNoon)
    parseDates false
    (fun _ => Index.FetchOk (Some Examples.missingTime))
    (fun _ => false).

Definition sentOn (date id : jsstring) (q : Question.t)
  : Doc RetrievedQuestion.t :=
  mkDoc id (createRetrievedQuestion date q).

Definition onSaturday : Doc RetrievedQuestion.t :=
  sentOn saturday (js "rec-3") Examples.twoSum.
Definition onThursday : Doc RetrievedQuestion.t :=
  sentOn Examples.noon (js "rec-1") Examples.addTwo.
Definition undated : Doc RetrievedQuestion.t :=
  sentOn (js "soon") (js "rec-4") Examples.twoSum.

Definition week : Collection RetrievedQuestion.t :=
  [onSaturday; onThursday; undated].

Definition unloaded : WeeklySummary.State :=
  WeeklySummary.mkState [] false [] None.

(** A record sent in Berlin on Saturday 2024-03-30 at 23:30, the night
    before the clocks went forward, and a load of the weekly summary on
    the Wednesday after. *)
Definition saturdayNight : jsstring := js "2024-03-30T22:30:00.000Z".

Definition parseBerlin (text : jsstring) : JsDate.Date :=
  if eqb text saturdayNight then Some 1711837800000%Z else None.

Definition berlinEnv : WeeklySummary.WeekEnv :=
  WeeklySummary.mkWeekEnv Examples.berlin2024
                          (Some Examples.berlinWednesday)
                          parseBerlin false.

Definition berlinBackfillEnv : Backfill.BackfillEnv :=
  Backfill.mkBackfillEnv
    (Some (js "key")) Examples.berlin2024 (Some Examples.berlinWednesday)
    parseBerlin false
    (fun _ => Index.FetchOk (Some Examples.missingTime))
    (fun _ => false).

Definition lateOnSaturday : Doc RetrievedQuestion.t :=
  sentOn saturdayNight (js "rec-5") Examples.twoSum.

End WeekSamples.

(* ================================================================= *)
(** * Part II: theorems                                               *)
(* ================================================================= *)

(** ** Strings *)

Section StringFacts.

Lemma eqb_eq (a b : jsstring) : eqb a b = true <-> a = b.
Proof.
  revert b. induction a as [| x a IH]; intros [| y b]; simpl;
    try (split; congruence).
  rewrite andb_true_iff, N.eqb_eq, IH. split.
  - intros [-> ->]. reflexivity.
  - intros E. inversion E. split; reflexivity.
Qed.

Lemma eqb_refl (a : jsstring) : eqb a a = true.
Proof. apply eqb_eq. reflexivity. Qed.

Lemma eqb_neq (a b : jsstring) : eqb a b = false <-> a <> b.
Proof.
  rewrite <- eqb_eq. destruct (eqb a b); split; congruence.
Qed.

Lemma truthy_nonempty (s : jsstring) : truthy s = true <-> s <> [].
Proof. destruct s; simpl; split; congruence. Qed.

End StringFacts.

(** ** Selection *)

Section Selection.

Import QuestionService.

Variable env : SelectEnv.
Variable questionsCol : Collection Question.t.
Variable retrievedQuestionsCol : Collection RetrievedQuestion.t.
Variable difficulty : jsstring.

Lemma arrayIncludes_In (ids : list jsstring) (x : jsstring) :
  arrayIncludes ids x = true <-> In x ids.
Proof.
  unfold arrayIncludes. rewrite existsb_exists. split.
  - intros (y & Hy & E). apply eqb_eq in E. subst. exact Hy.
  - intros H. exists x. split; [exact H | apply eqb_refl].
Qed.

(** Rounding to the nearest moves a number by half a unit at most. *)
Lemma roundHalfEven_le (p h : Z) (s : Z) :
  (0 < h)%Z -> (2 ^ s = 2 * h)%Z ->
  (roundHalfEven p s * (2 * h) <= p + h)%Z.
Proof.
  intros Hh Hs. unfold roundHalfEven. rewrite Hs.
  pose proof (Z.div_mod p (2 * h)) as Hdm.
  pose proof (Z.mod_pos_bound p (2 * h)) as Hr.
  set (q := (p / (2 * h))%Z) in *. set (r := (p mod (2 * h))%Z) in *.
  destruct ((2 * h <? 2 * r) || (2 * h =? 2 * r) && Z.odd q)%Z eqn:E.
  - assert (Hhalf : (h <= r)%Z).
    { apply orb_true_iff in E as [E | E].
      - apply Z.ltb_lt in E. lia.
      - apply andb_true_iff in E as [E _]. apply Z.eqb_eq in E. lia. }
    nia.
  - nia.
Qed.

(** The product of a draw and a length rounds to a double below the
    length: the index is in the array.  (The product itself can round up
    to the next integer.) *)
Lemma floor_timesLength_lt (rnd : Double) (n : Z) :
  randomRange rnd -> (0 < n)%Z -> (floor (timesLength rnd n) < n)%Z.
Proof.
  intros ((Hm0 & Hm) & (Hk & Hk')) Hn.
  set (m := mant rnd) in *. set (k := expo rnd) in *.
  assert (H53 : (2 ^ 53 = 9007199254740992)%Z) by reflexivity.
  assert (Hpk : (2 ^ 53 <= 2 ^ k)%Z) by (apply Z.pow_le_mono_r; lia).
  assert (Hprod : (m * n + n <= n * 2 ^ k)%Z) by nia.
  unfold timesLength. fold m k. set (p := (m * n)%Z) in *.
  destruct (Z.leb_spec (Z.max (Z.log2 p + 1 - 53) (k - 1074)) 0)
    as [Hs | Hs].
  - unfold floor. cbn [mant expo].
    destruct (Z.leb_spec 0 k); [| lia].
    apply Z.div_lt_upper_bound; [lia |]. nia.
  - assert (Es : (Z.max (Z.log2 p + 1 - 53) (k - 1074) = Z.log2 p - 52)%Z)
      by lia.
    rewrite Es in *. set (s := (Z.log2 p - 52)%Z) in *.
    assert (Hp : (0 < p)%Z).
    { destruct (Z.ltb_spec 0 p) as [H | H]; [exact H |].
      pose proof (Z.log2_nonpos p H). unfold s in Hs. lia. }
    pose proof (Z.log2_spec p Hp) as [Hlo _].
    set (h := (2 ^ (s - 1))%Z).
    assert (Hh : (0 < h)%Z) by (apply Z.pow_pos_nonneg; lia).
    assert (E2 : (2 ^ s = 2 * h)%Z).
    { unfold h. rewrite <- (Z.pow_succ_r 2 (s - 1)) by lia.
      f_equal. lia. }
    assert (Elog : (2 ^ Z.log2 p = h * 2 ^ 53)%Z).
    { unfold h. rewrite <- Z.pow_add_r by lia. f_equal. lia. }
    assert (Hhn : (h < n)%Z) by nia.
    pose proof (@roundHalfEven_le p h s Hh E2) as Hround.
    set (q := roundHalfEven p s) in *.
    assert (Hq : (q * (2 * h) < n * 2 ^ k)%Z) by lia.
    unfold floor. cbn [mant expo].
    destruct (Z.leb_spec 0 (k - s)) as [Hks | Hks].
    + assert (Ek : (2 ^ k = 2 ^ (k - s) * (2 * h))%Z).
      { rewrite <- E2, <- Z.pow_add_r by lia. f_equal. lia. }
      assert (He : (0 < 2 ^ (k - s))%Z) by (apply Z.pow_pos_nonneg; lia).
      apply Z.div_lt_upper_bound; [exact He |]. nia.
    + assert (Ek : (2 * h = 2 ^ (- (k - s)) * 2 ^ k)%Z).
      { rewrite <- E2, <- Z.pow_add_r by lia. f_equal. lia. }
      assert (He : (0 < 2 ^ k)%Z) by (apply Z.pow_pos_nonneg; lia).
      nia.
Qed.

Lemma randomIndex_lt (rnd : Double) (n : nat) :
  randomRange rnd -> (0 < n)%nat -> (randomIndex rnd n < n)%nat.
Proof.
  intros Hr Hn. unfold randomIndex.
  pose proof (@floor_timesLength_lt rnd (Z.of_nat n) Hr) as H. lia.
Qed.

(** The index follows the rounding of the product: for the double
    nearest to 4/7 and a length of 7, the product is the double 4. *)
Lemma randomIndex_rounds_up :
  randomRange (mkDouble 5146971002709138 53) /\
  randomIndex (mkDouble 5146971002709138 53) 7 = 4%nat /\
  Z.to_nat (5146971002709138 * 7 / 2 ^ 53) = 3%nat.
Proof.
  split; [unfold randomRange; cbn [mant expo]; lia |].
  split; vm_compute; reflexivity.
Qed.

(** A draw from a non-empty array is one of its elements. *)
Lemma random_pick {A} (rnd : Double) (l : list A) :
  randomRange rnd -> l <> [] ->
  exists x, nth_error l (randomIndex rnd (length l)) = Some x /\ In x l.
Proof.
  intros Hr Hl.
  assert (Hlen : (0 < length l)%nat) by (destruct l; simpl; [congruence | lia]).
  pose proof (randomIndex_lt Hr Hlen) as Hi.
  destruct (nth_error l (randomIndex rnd (length l))) as [x |] eqn:E.
  - exists x. split; [reflexivity | eapply nth_error_In; exact E].
  - apply nth_error_None in E. lia.
Qed.

Lemma questionsOfDifficulty_difficulty (q : Question.t) :
  In q (questionsOfDifficulty questionsCol difficulty) ->
  Question.difficulty q = difficulty.
Proof.
  unfold questionsOfDifficulty. rewrite in_map_iff.
  intros (d & <- & Hd). apply filter_In in Hd as [_ Hd].
  apply eqb_eq in Hd. exact Hd.
Qed.

(** The selection, once the store has answered. *)
Lemma select_unfold :
  selectSucceeds env ->
  getRandomUnsentQuestionByDifficulty env questionsCol
                                      retrievedQuestionsCol difficulty =
  let questionsByDifficulty :=
    questionsOfDifficulty questionsCol difficulty in
  let availableQuestions :=
    filter (fun question =>
              negb (arrayIncludes (sentIds retrievedQuestionsCol)
                                  (Question.id question)))
           questionsByDifficulty in
  match questionsByDifficulty, availableQuestions with
  | [], _ => None
  | _ :: _, [] =>
      nth_error questionsByDifficulty
                (randomIndex (random env) (length questionsByDifficulty))
  | _ :: _, _ :: _ =>
      nth_error availableQuestions
                (randomIndex (random env) (length availableQuestions))
  end.
Proof.
  intros (Hq & Hr & _).
  unfold getRandomUnsentQuestionByDifficulty, getDocs.
  rewrite Hq, Hr. cbn [bind tryCatch].
  fold (questionsOfDifficulty questionsCol difficulty).
  destruct (questionsOfDifficulty questionsCol difficulty) as [| q0 qs] eqn:E;
    [reflexivity |].
  cbn [length Nat.eqb bind tryCatch].
  assert (Hall : filter (fun _ : Doc RetrievedQuestion.t => true)
                        retrievedQuestionsCol = retrievedQuestionsCol).
  { clear. induction retrievedQuestionsCol as [| d l IH]; simpl;
      [reflexivity | now rewrite IH]. }
  rewrite Hall. fold (sentIds retrievedQuestionsCol).
  cbv zeta.
  destruct (filter _ (q0 :: qs)) as [| a av]; reflexivity.
Qed.

End Selection.

Section SelectionClaims.

Import QuestionService.

Variable env : SelectEnv.
Variable questionsCol : Collection Question.t.
Variable retrievedQuestionsCol : Collection RetrievedQuestion.t.
Variable difficulty : jsstring.

Local Abbreviation select :=
  (getRandomUnsentQuestionByDifficulty env questionsCol
                                       retrievedQuestionsCol difficulty).

(** C1: when the store answers and some question of the requested
    difficulty has an id that no sent record carries as [questionId],
    the selection returns a question of the requested difficulty whose
    id is not among the sent ids. *)
Theorem select_returns_unsent :
  selectSucceeds env ->
  (exists d, In d questionsCol /\
             Question.difficulty (doc_data d) = difficulty /\
             ~ In (doc_id d) (sentIds retrievedQuestionsCol)) ->
  exists q, select = Some q /\
            In q (questionsOfDifficulty questionsCol difficulty) /\
            Question.difficulty q = difficulty /\
            ~ In (Question.id q) (sentIds retrievedQuestionsCol).
Proof.
  intros Henv (d & Hd & Hdiff & Hunsent).
  rewrite select_unfold by exact Henv. cbv zeta.
  remember (questionsOfDifficulty questionsCol difficulty) as qs eqn:Eqs.
  remember (filter _ qs) as av eqn:Eav.
  assert (Hav : In (convertDocToQuestion d) av).
  { rewrite Eav. apply filter_In. split.
    - rewrite Eqs. unfold questionsOfDifficulty. apply in_map, filter_In.
      split; [exact Hd | apply eqb_eq; exact Hdiff].
    - apply negb_true_iff. simpl.
      destruct (arrayIncludes _ (doc_id d)) eqn:E; [| reflexivity].
      apply arrayIncludes_In in E. contradiction. }
  assert (Hne : av <> []) by (destruct av; [inversion Hav | congruence]).
  destruct Henv as (_ & _ & Hrnd).
  destruct (random_pick Hrnd Hne) as (q & Hq & Hin).
  assert (Hq' : In q qs /\
                negb (arrayIncludes (sentIds retrievedQuestionsCol)
                                    (Question.id q)) = true).
  { rewrite Eav in Hin. apply filter_In in Hin. exact Hin. }
  destruct Hq' as [Hin' Hneg].
  exists q. split.
  - destruct qs as [| q0 qs']; [inversion Hin' |].
    destruct av as [| a av']; [congruence | exact Hq].
  - split; [exact Hin' |].
    split; [eapply questionsOfDifficulty_difficulty; rewrite <- Eqs;
            exact Hin' |].
    intros Hsent. apply arrayIncludes_In in Hsent.
    rewrite Hsent in Hneg. discriminate.
Qed.

(** C2: when the store answers and the requested difficulty has N > 0
    questions, the selection never returns null: it returns one of the
    N questions, and it does so even when each of them already has a
    sent record. *)
Theorem select_never_null :
  selectSucceeds env ->
  questionsOfDifficulty questionsCol difficulty <> [] ->
  (exists q, select = Some q /\
             In q (questionsOfDifficulty questionsCol difficulty)) /\
  ((forall q, In q (questionsOfDifficulty questionsCol difficulty) ->
              In (Question.id q) (sentIds retrievedQuestionsCol)) ->
   select =
   nth_error (questionsOfDifficulty questionsCol difficulty)
             (randomIndex (random env)
                (length (questionsOfDifficulty questionsCol difficulty)))).
Proof.
  intros Henv Hne.
  rewrite select_unfold by exact Henv. cbv zeta.
  set (qs := questionsOfDifficulty questionsCol difficulty) in *.
  set (av := filter _ qs).
  destruct Henv as (_ & _ & Hrnd).
  split.
  - destruct qs as [| q0 qs'] eqn:Eqs; [congruence |].
    destruct av as [| a av'] eqn:Eav.
    + apply random_pick; [exact Hrnd | congruence].
    + destruct (@random_pick _ (random env) av Hrnd) as (q & Hq & Hin).
      { rewrite Eav. congruence. }
      exists q. rewrite <- Eav. split; [exact Hq |].
      unfold av in Hin. apply filter_In in Hin as [Hin _]. exact Hin.
  - intros Hall.
    assert (Eav : av = []).
    { unfold av. clear -Hall. induction qs as [| q l IH]; [reflexivity |].
      simpl. destruct (arrayIncludes _ (Question.id q)) eqn:E; simpl.
      - apply IH. intros q' Hq'. apply Hall. right. exact Hq'.
      - exfalso. assert (H : In (Question.id q) (sentIds retrievedQuestionsCol))
          by (apply Hall; left; reflexivity).
        apply arrayIncludes_In in H. congruence. }
    rewrite Eav. destruct qs; [congruence | reflexivity].
Qed.

End SelectionClaims.

Lemma select_returns_unsent_witness :
  exists q,
    QuestionService.getRandomUnsentQuestionByDifficulty
      Examples.quietSelect Examples.questions Examples.sentTwoSum
      Examples.easy = Some q /\
    In q (QuestionService.questionsOfDifficulty Examples.questions
                                                 Examples.easy) /\
    Question.difficulty q = Examples.easy /\
    ~ In (Question.id q) (QuestionService.sentIds Examples.sentTwoSum).
Proof.
  apply select_returns_unsent.
  - split; [reflexivity | split; [reflexivity |]].
    unfold QuestionService.randomRange. simpl. lia.
  - exists (mkDoc (js "test-id-2") Examples.addTwo).
    split; [right; left; reflexivity |].
    split; [reflexivity |].
    simpl. intros [H | []]. discriminate H.
Defined.

Lemma select_never_null_witness :
  (exists q,
      QuestionService.getRandomUnsentQuestionByDifficulty
        Examples.quietSelect Examples.questions Examples.sentBoth
        Examples.easy = Some q /\
      In q (QuestionService.questionsOfDifficulty Examples.questions
                                                   Examples.easy)) /\
  ((forall q, In q (QuestionService.questionsOfDifficulty
                      Examples.questions Examples.easy) ->
              In (Question.id q)
                 (QuestionService.sentIds Examples.sentBoth)) ->
   QuestionService.getRandomUnsentQuestionByDifficulty
     Examples.quietSelect Examples.questions Examples.sentBoth
     Examples.easy =
   nth_error (QuestionService.questionsOfDifficulty Examples.questions
                                                     Examples.easy)
             (QuestionService.randomIndex
                (QuestionService.random Examples.quietSelect)
                (length (QuestionService.questionsOfDifficulty
                           Examples.questions Examples.easy)))).
Proof.
  apply select_never_null.
  - split; [reflexivity | split; [reflexivity |]].
    unfold QuestionService.randomRange. simpl. lia.
  - discriminate.
Defined.

(** ** The sent-record collection *)

Section SentRecords.

Import QuestionService.

Implicit Types (col : Collection RetrievedQuestion.t) (qid : jsstring).

Lemma recordsFor_zero qid col :
  recordsFor qid col = 0%nat <->
  forall d, In d col -> RetrievedQuestion.questionId (doc_data d) <> qid.
Proof.
  unfold recordsFor. split.
  - intros H d Hd E.
    assert (Hin : In d (filter (pointsAt qid) col)).
    { apply filter_In. split; [exact Hd | apply eqb_eq; exact E]. }
    unfold pointsAt in Hin.
    destruct (filter _ col); [inversion Hin | discriminate H].
  - intros H. induction col as [| d l IH]; [reflexivity |].
    simpl. destruct (eqb _ qid) eqn:E.
    + apply eqb_eq in E. exfalso. apply (H d); [left; reflexivity | exact E].
    + apply IH. intros d' Hd'. apply H. right. exact Hd'.
Qed.

Lemma recordsFor_app qid col1 col2 :
  recordsFor qid (col1 ++ col2) =
  (recordsFor qid col1 + recordsFor qid col2)%nat.
Proof. unfold recordsFor. rewrite filter_app, length_app. reflexivity. Qed.

Lemma recordsFor_cons qid d col :
  recordsFor qid (d :: col) =
  ((if pointsAt qid d then 1 else 0) + recordsFor qid col)%nat.
Proof.
  unfold recordsFor, pointsAt. simpl. destruct (eqb _ qid); reflexivity.
Qed.

Lemma recordsFor_withDoc qid place d col :
  recordsFor qid (withDoc place d col) =
  ((if pointsAt qid d then 1 else 0) + recordsFor qid col)%nat.
Proof.
  unfold withDoc. rewrite recordsFor_app, recordsFor_cons.
  rewrite <- (firstn_skipn place col) at 3. rewrite recordsFor_app. lia.
Qed.

Lemma in_withDoc {A} (place : nat) (d x : Doc A) (l : Collection A) :
  In x (withDoc place d l) <-> x = d \/ In x l.
Proof.
  unfold withDoc. rewrite in_app_iff. simpl.
  rewrite <- (firstn_skipn place l) at 3. rewrite in_app_iff.
  intuition congruence.
Qed.

(** The existence check when the store answers. *)
Lemma check_unfold col qid :
  isQuestionAlreadySent false col qid =
  match filter (pointsAt qid) col with
  | d0 :: _ => mkSentStatus true (Some (doc_id d0))
  | [] => mkSentStatus false None
  end.
Proof.
  unfold isQuestionAlreadySent, getDocs. cbn [bind tryCatch].
  change (fun d : Doc RetrievedQuestion.t =>
            eqb (RetrievedQuestion.questionId (doc_data d)) qid)
    with (pointsAt qid).
  destruct (filter (pointsAt qid) col); reflexivity.
Qed.

(** No record: the check says so, whether the store answers or not. *)
Lemma check_absent fault col qid :
  recordsFor qid col = 0%nat ->
  isQuestionAlreadySent fault col qid = mkSentStatus false None.
Proof.
  intros H. destruct fault; [reflexivity |].
  rewrite check_unfold. unfold recordsFor in H. fold (pointsAt qid) in H.
  destruct (filter (pointsAt qid) col); [reflexivity | discriminate H].
Qed.

(** Some record: the check exposes the id of the first one listed. *)
Lemma check_present col qid :
  wellFormed col -> (0 < recordsFor qid col)%nat ->
  exists d, In d col /\ pointsAt qid d = true /\ doc_id d <> [] /\
            isQuestionAlreadySent false col qid =
            mkSentStatus true (Some (doc_id d)) /\
            sentAndId (isQuestionAlreadySent false col qid) =
            Some (doc_id d).
Proof.
  intros [_ Hids] Hpos. rewrite check_unfold.
  unfold recordsFor in Hpos. fold (pointsAt qid) in Hpos.
  destruct (filter (pointsAt qid) col) as [| d rest] eqn:E;
    [simpl in Hpos; lia |].
  assert (Hd : In d (filter (pointsAt qid) col)) by (rewrite E; left; reflexivity).
  apply filter_In in Hd as [Hd Hp].
  assert (Hne : doc_id d <> []).
  { rewrite Forall_forall in Hids. apply Hids. exact Hd. }
  exists d. repeat split; try assumption.
  unfold sentAndId. simpl.
  destruct (doc_id d); [congruence | reflexivity].
Qed.

Lemma recordToAdd_questionId env q :
  RetrievedQuestion.questionId (recordToAdd env q) = Question.id q.
Proof. unfold recordToAdd. destruct (getAISummary _ q); reflexivity. Qed.

Lemma recordToAdd_isChosen env q :
  RetrievedQuestion.isChosen (recordToAdd env q) = true.
Proof. unfold recordToAdd. destruct (getAISummary _ q); reflexivity. Qed.

(** The two ways a mark can go. *)
Lemma mark_existing env q col docId :
  sentAndId (isQuestionAlreadySent (checkFault env) col (Question.id q)) =
  Some docId ->
  markQuestionAsSent env q col = (Some docId, col).
Proof. intros H. unfold markQuestionAsSent. rewrite H. reflexivity. Qed.

Lemma mark_new env q col newId place :
  sentAndId (isQuestionAlreadySent (checkFault env) col (Question.id q)) =
  None ->
  added env = Ok (newId, place) ->
  markQuestionAsSent env q col =
  (Some newId, withDoc place (mkDoc newId (recordToAdd env q)) col).
Proof.
  intros H Ha. unfold markQuestionAsSent. rewrite H.
  fold (recordToAdd env q). unfold addDoc. rewrite Ha. reflexivity.
Qed.

Lemma filter_all {A} (f : A -> bool) (l : list A) :
  (forall x, In x l -> f x = true) -> filter f l = l.
Proof.
  induction l as [| a l IH]; intros H; [reflexivity |].
  simpl. rewrite (H a) by (left; reflexivity).
  rewrite IH; [reflexivity |]. intros x Hx. apply H. right. exact Hx.
Qed.

(** Deleting by id takes exactly the one document that has the id. *)
Lemma delete_one {A} (col : Collection A) (d : Doc A) :
  NoDup (List.map (@doc_id A) col) -> In d col ->
  exists l1 l2, col = l1 ++ d :: l2 /\
                snd (deleteDoc false (doc_id d) col) = l1 ++ l2.
Proof.
  intros Hnd Hd. apply in_split in Hd as (l1 & l2 & ->).
  exists l1, l2. split; [reflexivity |].
  rewrite map_app in Hnd. simpl in Hnd.
  apply NoDup_remove_2 in Hnd. rewrite in_app_iff in Hnd.
  unfold deleteDoc. cbn [snd]. rewrite filter_app. simpl.
  rewrite eqb_refl. simpl.
  rewrite !filter_all; [reflexivity | |];
    intros x Hx; apply negb_true_iff, eqb_neq; intros E;
    apply Hnd; [right | left]; rewrite <- E; apply in_map; exact Hx.
Qed.

End SentRecords.

Section ToggleClaims.

Import QuestionService.

Variable question : Question.t.
Variable col : Collection RetrievedQuestion.t.

(** C4: marking the same question twice in sequence, on a store that
    answers and holds at most one record for the question, returns the
    same record id both times; the second call leaves the collection as
    the first one left it (it inserts nothing), and exactly one record
    for the question is stored afterwards. *)
Theorem mark_twice_same_id (env1 env2 : MarkEnv) :
  wellFormed col ->
  (recordsFor (Question.id question) col <= 1)%nat ->
  markSucceeds env1 ->
  checkFault env2 = false ->
  let first := markQuestionAsSent env1 question col in
  let second := markQuestionAsSent env2 question (snd first) in
  exists docId,
    fst first = Some docId /\
    fst second = Some docId /\
    snd second = snd first /\
    recordsFor (Question.id question) (snd second) = 1%nat.
Proof.
  intros Hwf Hle (Hc1 & newId & place & Hadd & Hne) Hc2. cbv zeta.
  destruct (Nat.eq_dec (recordsFor (Question.id question) col) 0)
    as [Hzero | Hpos].
  - (* no record yet: the first call inserts, the second one finds it *)
    rewrite (@mark_new env1 question col newId place);
      [| rewrite check_absent by exact Hzero; reflexivity | exact Hadd].
    cbn [fst snd].
    set (col1 := withDoc place (mkDoc newId (recordToAdd env1 question)) col).
    assert (Hfound :
              sentAndId (isQuestionAlreadySent (checkFault env2) col1
                                               (Question.id question)) =
              Some newId).
    { rewrite Hc2, check_unfold. unfold col1, withDoc.
      rewrite filter_app. cbn [filter].
      unfold pointsAt at 2. cbn [doc_data].
      rewrite recordToAdd_questionId, eqb_refl.
      assert (Hnone : forall l, (forall d, In d l -> In d col) ->
                                filter (pointsAt (Question.id question)) l = []).
      { intros l Hl. induction l as [| d l IH]; [reflexivity |].
        simpl. unfold pointsAt at 1.
        destruct (eqb _ (Question.id question)) eqn:E.
        - apply eqb_eq in E. exfalso.
          eapply recordsFor_zero; [exact Hzero | apply Hl; left; reflexivity | exact E].
        - apply IH. intros d' Hd'. apply Hl. right. exact Hd'. }
      rewrite Hnone.
      - simpl. unfold sentAndId. simpl.
        destruct newId; [congruence | reflexivity].
      - intros d Hd. rewrite <- (firstn_skipn place col).
        apply in_app_iff. left. exact Hd. }
    rewrite (mark_existing _ _ _ Hfound). cbn [fst snd].
    exists newId. repeat split.
    unfold col1. rewrite recordsFor_withDoc. unfold pointsAt.
    cbn [doc_data]. rewrite recordToAdd_questionId, eqb_refl. lia.
  - (* a record exists: both calls return its id and insert nothing *)
    destruct (@check_present col (Question.id question) Hwf)
      as (d & _ & _ & _ & _ & Hfound); [lia |].
    rewrite (@mark_existing env1 question col (doc_id d))
      by (rewrite Hc1; exact Hfound).
    cbn [fst snd].
    rewrite (@mark_existing env2 question col (doc_id d))
      by (rewrite Hc2; exact Hfound).
    cbn [fst snd].
    exists (doc_id d). repeat split. lia.
Qed.

(** C5: from a store with no record for the question, marking it and
    then unmarking its id has the unmarking return true, and a later
    check of the id reports [isSent = false]. *)
Theorem mark_then_unsend (envM : MarkEnv) (envU : UnsendEnv) (fault : bool) :
  recordsFor (Question.id question) col = 0%nat ->
  markSucceeds envM ->
  unsendSucceeds envU ->
  let marked := markQuestionAsSent envM question col in
  let unsent := unsendQuestion envU (Question.id question) (snd marked) in
  fst unsent = true /\
  isSent (isQuestionAlreadySent fault (snd unsent) (Question.id question))
  = false.
Proof.
  intros Hzero (_ & newId & place & Hadd & Hne) (Hl & Hdel). cbv zeta.
  rewrite (@mark_new envM question col newId place);
    [| rewrite check_absent by exact Hzero; reflexivity | exact Hadd].
  cbn [snd].
  set (newDoc := mkDoc newId (recordToAdd envM question)).
  assert (Hfilter : filter (pointsAt (Question.id question))
                           (withDoc place newDoc col) = [newDoc]).
  { unfold withDoc. rewrite filter_app. cbn [filter].
    unfold pointsAt at 2. unfold newDoc at 1. cbn [doc_data].
    rewrite recordToAdd_questionId, eqb_refl.
    assert (Hnone : forall l, (forall d, In d l -> In d col) ->
                              filter (pointsAt (Question.id question)) l = []).
    { intros l Hin. induction l as [| d l IH]; [reflexivity |].
      simpl. unfold pointsAt at 1.
      destruct (eqb _ (Question.id question)) eqn:E.
      - apply eqb_eq in E. exfalso.
        eapply recordsFor_zero; [exact Hzero | apply Hin; left; reflexivity | exact E].
      - apply IH. intros d' Hd'. apply Hin. right. exact Hd'. }
    rewrite !Hnone; [reflexivity | |];
      intros d Hd; rewrite <- (firstn_skipn place col); apply in_app_iff;
      [right | left]; exact Hd. }
  unfold unsendQuestion. rewrite Hl, check_unfold, Hfilter.
  unfold sentAndId. cbn [isSent retrievedDocId doc_id newDoc].
  assert (Ht : truthy newId = true) by (apply truthy_nonempty; exact Hne).
  rewrite Ht. unfold deleteDoc. rewrite Hdel. cbn [fst snd bind tryCatch].
  split; [reflexivity |].
  rewrite check_absent; [reflexivity |].
  apply recordsFor_zero. intros d Hd.
  apply filter_In in Hd as [Hd Hid].
  apply in_withDoc in Hd as [-> | Hd].
  - simpl in Hid. rewrite eqb_refl in Hid. discriminate.
  - eapply recordsFor_zero; [exact Hzero | exact Hd].
Qed.

(** C6: on a question with no record, when the summary request fails
    (the functions client is not initialized, or the call throws) and
    the store accepts the insert, the mark is not aborted: the record
    built by [createRetrievedQuestion], which has no [aiSummary], is
    inserted and the id of the new document is returned. *)
Theorem mark_survives_summary_failure
        (env : MarkEnv) (newId : jsstring) (place : nat) :
  recordsFor (Question.id question) col = 0%nat ->
  summaryFails (ai env) ->
  added env = Ok (newId, place) ->
  markQuestionAsSent env question col =
  (Some newId,
   withDoc place
           (mkDoc newId (createRetrievedQuestion (now env) question)) col)
  /\ RetrievedQuestion.aiSummary
       (createRetrievedQuestion (now env) question) = None.
Proof.
  intros Hzero Hfail Hadd. split; [| reflexivity].
  rewrite (@mark_new env question col newId place);
    [| rewrite check_absent by exact Hzero; reflexivity | exact Hadd].
  unfold recordToAdd, getAISummary.
  destruct Hfail as [Hinit | Hcall].
  - rewrite Hinit. reflexivity.
  - rewrite Hcall. destruct (functionsInitialized (ai env)); reflexivity.
Qed.

(** C9: on a well-formed store that answers and holds two or more
    records for one question id, a single unmarking returns true and
    deletes exactly one document, so that the remaining duplicates stay
    in place and a later check of the id still reports
    [isSent = true]. *)
Theorem unsend_deletes_one (env : UnsendEnv) (qid : jsstring) :
  wellFormed col ->
  (2 <= recordsFor qid col)%nat ->
  unsendSucceeds env ->
  let unsent := unsendQuestion env qid col in
  fst unsent = true /\
  length (snd unsent) = (length col - 1)%nat /\
  recordsFor qid (snd unsent) = (recordsFor qid col - 1)%nat /\
  isSent (isQuestionAlreadySent false (snd unsent) qid) = true.
Proof.
  intros Hwf Htwo (Hl & Hdel). cbv zeta.
  destruct (@check_present col qid Hwf)
    as (d & Hd & Hp & _ & _ & Hfound); [lia |].
  destruct (@delete_one _ col d (proj1 Hwf) Hd) as (l1 & l2 & Hcol & Hrest).
  assert (Hun : unsendQuestion env qid col = (true, l1 ++ l2)).
  { unfold unsendQuestion. rewrite Hl, Hfound.
    rewrite <- Hrest. unfold deleteDoc. rewrite Hdel. reflexivity. }
  rewrite Hun. cbn [fst snd].
  assert (Hcount : recordsFor qid (l1 ++ l2) = (recordsFor qid col - 1)%nat).
  { rewrite Hcol, !recordsFor_app, recordsFor_cons, Hp. lia. }
  split; [reflexivity |].
  split; [rewrite Hcol, !length_app; simpl; lia |].
  split; [exact Hcount |].
  rewrite check_unfold.
  destruct (filter (pointsAt qid) (l1 ++ l2)) as [| d0 rest] eqn:E;
    [| reflexivity].
  assert (Hpos : (0 < recordsFor qid (l1 ++ l2))%nat) by lia.
  unfold recordsFor in Hpos. fold (pointsAt qid) in Hpos.
  rewrite E in Hpos. inversion Hpos.
Qed.

End ToggleClaims.

Lemma mark_twice_same_id_witness :
  let first :=
    QuestionService.markQuestionAsSent
      (Examples.markEnv (js "rec-2")) Examples.addTwo Examples.sentTwoSum in
  let second :=
    QuestionService.markQuestionAsSent
      (Examples.markEnv (js "rec-7")) Examples.addTwo (snd first) in
  exists docId,
    fst first = Some docId /\
    fst second = Some docId /\
    snd second = snd first /\
    QuestionService.recordsFor (Question.id Examples.addTwo) (snd second)
    = 1%nat.
Proof.
  apply mark_twice_same_id.
  - split.
    + simpl. constructor; [intros [] | constructor].
    + repeat constructor. discriminate.
  - vm_compute. lia.
  - split; [reflexivity |].
    exists (js "rec-2"), 0%nat. split; [reflexivity | discriminate].
  - reflexivity.
Defined.

Lemma mark_then_unsend_witness :
  let marked :=
    QuestionService.markQuestionAsSent
      (Examples.markEnv (js "rec-2")) Examples.addTwo Examples.sentTwoSum in
  let unsent :=
    QuestionService.unsendQuestion
      Examples.quietUnsend (Question.id Examples.addTwo) (snd marked) in
  fst unsent = true /\
  QuestionService.isSent
    (QuestionService.isQuestionAlreadySent
       false (snd unsent) (Question.id Examples.addTwo)) = false.
Proof.
  apply mark_then_unsend.
  - vm_compute. reflexivity.
  - split; [reflexivity |].
    exists (js "rec-2"), 0%nat. split; [reflexivity | discriminate].
  - split; reflexivity.
Defined.

Lemma mark_survives_summary_failure_witness :
  QuestionService.markQuestionAsSent
    (Examples.markEnv (js "rec-2")) Examples.addTwo Examples.sentTwoSum =
  (Some (js "rec-2"),
   QuestionService.withDoc
     0 (mkDoc (js "rec-2")
              (createRetrievedQuestion Examples.noon Examples.addTwo))
     Examples.sentTwoSum)
  /\ RetrievedQuestion.aiSummary
       (createRetrievedQuestion Examples.noon Examples.addTwo) = None.
Proof.
  apply (@mark_survives_summary_failure
           Examples.addTwo Examples.sentTwoSum
           (Examples.markEnv (js "rec-2")) (js "rec-2") 0%nat).
  - vm_compute. reflexivity.
  - right. reflexivity.
  - reflexivity.
Defined.

Lemma unsend_deletes_one_witness :
  let unsent :=
    QuestionService.unsendQuestion
      Examples.quietUnsend (Question.id Examples.twoSum)
      Examples.sentTwice in
  fst unsent = true /\
  length (snd unsent) = (length Examples.sentTwice - 1)%nat /\
  QuestionService.recordsFor (Question.id Examples.twoSum) (snd unsent) =
  (QuestionService.recordsFor (Question.id Examples.twoSum)
                              Examples.sentTwice - 1)%nat /\
  QuestionService.isSent
    (QuestionService.isQuestionAlreadySent
       false (snd unsent) (Question.id Examples.twoSum)) = true.
Proof.
  apply unsend_deletes_one.
  - split.
    + simpl. constructor.
      * intros [H | []]. discriminate H.
      * constructor; [intros [] | constructor].
    + repeat constructor; discriminate.
  - vm_compute. lia.
  - split; reflexivity.
Defined.

(** ** The invariant of the [isChosen] field *)

Section ChosenInvariant.

Import QuestionService System.

Lemma allChosen_withDoc place d col :
  RetrievedQuestion.isChosen (doc_data d) = true ->
  allChosen col -> allChosen (withDoc place d col).
Proof.
  unfold allChosen. rewrite !Forall_forall. intros Hd Hcol x Hx.
  apply in_withDoc in Hx as [-> | Hx]; [exact Hd | apply Hcol; exact Hx].
Qed.

Lemma allChosen_filter (f : Doc RetrievedQuestion.t -> bool) col :
  allChosen col -> allChosen (filter f col).
Proof.
  unfold allChosen. rewrite !Forall_forall. intros Hcol x Hx.
  apply filter_In in Hx as [Hx _]. apply Hcol. exact Hx.
Qed.

Lemma allChosen_update id s col :
  allChosen col ->
  allChosen (updateDoc id (RetrievedQuestion.set_aiSummary s) col).
Proof.
  unfold allChosen, updateDoc. intros Hcol.
  induction Hcol as [| d l Hd _ IH]; simpl; constructor; [| exact IH].
  destruct (eqb (doc_id d) id); [simpl |]; exact Hd.
Qed.

(** What a mark does to the collection: nothing, or one insertion of a
    record built from the question. *)
Lemma mark_effect (env : MarkEnv) (q : Question.t) (col : Store) :
  snd (markQuestionAsSent env q col) = col \/
  exists newId place,
    snd (markQuestionAsSent env q col) =
    withDoc place (mkDoc newId (recordToAdd env q)) col.
Proof.
  destruct (sentAndId (isQuestionAlreadySent (checkFault env) col
                                             (Question.id q)))
    as [docId |] eqn:E.
  - left. rewrite (mark_existing _ _ _ E). reflexivity.
  - destruct (added env) as [[newId place] |] eqn:Ea.
    + right. exists newId, place. rewrite (mark_new _ _ _ E Ea). reflexivity.
    + left. unfold markQuestionAsSent. rewrite E. unfold addDoc.
      rewrite Ea. reflexivity.
Qed.

Lemma mark_keeps_chosen env q col :
  allChosen col -> allChosen (snd (markQuestionAsSent env q col)).
Proof.
  intros H. destruct (mark_effect env q col) as [-> | (newId & place & ->)];
    [exact H |].
  apply allChosen_withDoc; [apply recordToAdd_isChosen | exact H].
Qed.

Lemma unsend_keeps_chosen env qid col :
  allChosen col -> allChosen (snd (unsendQuestion env qid col)).
Proof.
  intros H. unfold unsendQuestion.
  destruct (sentAndId _) as [docId |]; [| exact H].
  unfold deleteDoc. destruct (deleteFault env); [exact H |].
  cbn [snd]. apply allChosen_filter. exact H.
Qed.

Lemma visit_keeps_chosen env acc doc :
  allChosen (snd acc) -> allChosen (snd (Backfill.visit env acc doc)).
Proof.
  destruct acc as [n col]. unfold Backfill.visit. cbn [snd]. intros H.
  destruct (_ || _); [exact H |].
  destruct (RetrievedQuestion.aiSummary (doc_data doc)); [exact H |].
  destruct (Backfill.generateAISummary _); [| exact H].
  destruct (Backfill.updateFault env doc); [exact H |].
  cbn [snd]. apply allChosen_update. exact H.
Qed.

Lemma backfill_keeps_chosen env col :
  allChosen col ->
  allChosen (snd (Backfill.backfillWeekSummaries env col)).
Proof.
  intros H. unfold Backfill.backfillWeekSummaries.
  destruct (Backfill.apiKey env) as [key |]; [| exact H].
  destruct (negb (truthy key)); [exact H |].
  destruct (getDocs _ _ col) as [snapshot |]; [| exact H].
  assert (Hfold : forall acc,
             allChosen (snd acc) ->
             allChosen (snd (fold_left (Backfill.visit env) snapshot acc))).
  { induction snapshot as [| d l IH]; intros acc Hacc; [exact Hacc |].
    simpl. apply IH, visit_keeps_chosen, Hacc. }
  specialize (Hfold (Backfill.mkCounters 0 0, col) H).
  destruct (fold_left _ snapshot _) as [n col']. exact Hfold.
Qed.

Lemma step_keeps_chosen col col' :
  step col col' -> allChosen col -> allChosen col'.
Proof.
  intros Hstep H. destruct Hstep.
  - apply mark_keeps_chosen, H.
  - apply unsend_keeps_chosen, H.
  - apply backfill_keeps_chosen, H.
Qed.

(** C10: in every state of the sent-record collection that the
    operations of the system (mark, unmark, backfill of summaries) reach
    from the empty collection, every record has [isChosen = true]; and a
    mark from such a state either leaves the collection as it is or
    inserts one record, whose [isChosen] is [true]. *)
Theorem isChosen_constantly_true (col : Store) :
  reachable col ->
  allChosen col /\
  forall (env : MarkEnv) (q : Question.t),
    snd (markQuestionAsSent env q col) = col \/
    exists newId place r,
      snd (markQuestionAsSent env q col) =
      withDoc place (mkDoc newId r) col /\
      RetrievedQuestion.isChosen r = true.
Proof.
  intros Hreach. split.
  - induction Hreach as [| col col' _ IH Hstep]; [constructor |].
    eapply step_keeps_chosen; [exact Hstep | exact IH].
  - intros env q.
    destruct (mark_effect env q col) as [E | (newId & place & E)];
      [left; exact E |].
    right. exists newId, place, (recordToAdd env q).
    split; [exact E | apply recordToAdd_isChosen].
Qed.

End ChosenInvariant.

Lemma isChosen_constantly_true_witness :
  let col :=
    snd (QuestionService.unsendQuestion
           Examples.quietUnsend (Question.id Examples.twoSum)
           (snd (QuestionService.markQuestionAsSent
                   (Examples.markEnv (js "rec-2")) Examples.addTwo
                   (snd (QuestionService.markQuestionAsSent
                           (Examples.markEnv (js "rec-1")) Examples.twoSum
                           []))))) in
  System.allChosen col /\
  forall (env : QuestionService.MarkEnv) (q : Question.t),
    snd (QuestionService.markQuestionAsSent env q col) = col \/
    exists newId place r,
      snd (QuestionService.markQuestionAsSent env q col) =
      QuestionService.withDoc place (mkDoc newId r) col /\
      RetrievedQuestion.isChosen r = true.
Proof.
  apply isChosen_constantly_true.
  eapply System.reachable_step; [| apply System.step_unsend].
  eapply System.reachable_step; [| apply System.step_mark].
  eapply System.reachable_step; [| apply System.step_mark].
  apply System.reachable_empty.
Defined.

(** ** The week range *)

Section WeekRange.

Import JsDate.
Local Open Scope Z_scope.

Lemma MonthFromTime_range (t : Z) : 0 <= MonthFromTime t <= 11.
Proof.
  unfold MonthFromTime.
  repeat match goal with
         | |- context [if ?c then _ else _] => destruct c
         end; lia.
Qed.

(** Setting the day of the month moves the day number by the
    difference, whatever the month and the year are. *)
Lemma MakeDay_of_date (t k : Z) :
  MakeDay (YearFromTime t) (MonthFromTime t) (DateFromTime t + k) =
  Day t + k.
Proof.
  pose proof (MonthFromTime_range t) as Hm.
  unfold MakeDay, DateFromTime, DayWithinYear, InLeapYear.
  rewrite Z.div_small, Z.mod_small by lia.
  rewrite Z.add_0_r. lia.
Qed.

Lemma TimeClip_in_range (t : Z) :
  - maxTime <= t <= maxTime -> TimeClip t = Some t.
Proof.
  intros H. unfold TimeClip.
  destruct (Z.leb_spec (Z.abs t) maxTime); [reflexivity | lia].
Qed.

(** What the getters read at midnight of a day [D], and one
    millisecond before the midnight that ends the day [D + 4], when [D]
    is a Sunday. *)
Lemma midnight_fields (D : Z) :
  D mod 7 = 3 ->
  WeekDay (D * msPerDay) = 0 /\
  HourFromTime (D * msPerDay) = 0 /\
  MinFromTime (D * msPerDay) = 0 /\
  SecFromTime (D * msPerDay) = 0 /\
  msFromTime (D * msPerDay) = 0.
Proof.
  unfold WeekDay, HourFromTime, MinFromTime, SecFromTime, msFromTime, Day.
  unfold msPerDay, msPerHour, msPerMinute, msPerSecond.
  intros Hw. repeat split; Z.to_euclidean_division_equations; lia.
Qed.

Lemma end_of_day_fields (D : Z) :
  D mod 7 = 3 ->
  WeekDay ((D + 4) * msPerDay + 86399999) = 4 /\
  Day ((D + 4) * msPerDay + 86399999) = D + 4 /\
  HourFromTime ((D + 4) * msPerDay + 86399999) = 23 /\
  MinFromTime ((D + 4) * msPerDay + 86399999) = 59 /\
  SecFromTime ((D + 4) * msPerDay + 86399999) = 59 /\
  msFromTime ((D + 4) * msPerDay + 86399999) = 999.
Proof.
  unfold WeekDay, HourFromTime, MinFromTime, SecFromTime, msFromTime, Day.
  unfold msPerDay, msPerHour, msPerMinute, msPerSecond.
  intros Hw. repeat split; Z.to_euclidean_division_equations; lia.
Qed.

(** The calendar year of a day: the last year that starts on or before
    it. *)
Lemma DayFromYear_step (y : Z) :
  365 <= DayFromYear (y + 1) - DayFromYear y <= 366.
Proof.
  unfold DayFromYear. Z.to_euclidean_division_equations. lia.
Qed.

Lemma yearSearch_spec (fuel : nat) (d y : Z) :
  DayFromYear y <= d ->
  d - DayFromYear y < 365 * Z.of_nat fuel ->
  DayFromYear (yearSearch fuel d y) <= d
  < DayFromYear (yearSearch fuel d y + 1).
Proof.
  revert y. induction fuel as [| fuel IH]; intros y Hle Hfuel.
  - simpl in Hfuel. lia.
  - cbn [yearSearch].
    destruct (Z.leb_spec (DayFromYear (y + 1)) d) as [Hnext | Hnext].
    + apply IH; [exact Hnext |]. pose proof (DayFromYear_step y). lia.
    + lia.
Qed.

Lemma YearFromTime_spec (t : Z) :
  DayFromYear (YearFromTime t) <= Day t < DayFromYear (YearFromTime t + 1).
Proof.
  unfold YearFromTime. set (d := Day t).
  apply yearSearch_spec.
  - unfold DayFromYear. Z.to_euclidean_division_equations. lia.
  - rewrite Z2Nat.id by (Z.to_euclidean_division_equations; lia).
    unfold DayFromYear. Z.to_euclidean_division_equations. lia.
Qed.

Variable LocalTZA : Z -> bool -> Z.
Variable tza : Z.
Variable t : Z.
Hypothesis Hsteady : steadyAround LocalTZA tza t.

Local Abbreviation local := (LocalTime LocalTZA).
Local Abbreviation near x :=
  (t - 8 * msPerDay <= x <= t + 6 * msPerDay).

Lemma LocalTime_steady (x : Z) : near x -> local x = x + tza.
Proof.
  intros H. unfold LocalTime. rewrite (proj2 Hsteady) by exact H.
  reflexivity.
Qed.

Lemma UTC_steady (x : Z) : near x -> UTC LocalTZA x = x - tza.
Proof.
  intros H. unfold UTC. rewrite (proj2 Hsteady) by exact H. reflexivity.
Qed.

Lemma setDate_shift (tv k : Z) :
  near tv -> near (tv + tza + k * msPerDay) ->
  - maxTime <= tv + k * msPerDay <= maxTime ->
  setDate LocalTZA (Some tv) (Some (DateFromTime (local tv) + k)) =
  Some (tv + k * msPerDay).
Proof.
  intros Hn Hn' H. unfold setDate. rewrite MakeDay_of_date.
  unfold MakeDate. rewrite (LocalTime_steady Hn).
  assert (E : (Day (tv + tza) + k) * msPerDay + TimeWithinDay (tv + tza)
              = tv + tza + k * msPerDay).
  { unfold Day, TimeWithinDay.
    pose proof (Z.div_mod (tv + tza) msPerDay). unfold msPerDay in *. lia. }
  rewrite E, (UTC_steady Hn').
  rewrite <- TimeClip_in_range by exact H. f_equal. lia.
Qed.

Lemma setHours_day (tv h m s ms : Z) :
  near tv ->
  near (Day (tv + tza) * msPerDay + MakeTime h m s ms) ->
  - maxTime <=
    Day (tv + tza) * msPerDay + MakeTime h m s ms - tza <= maxTime ->
  setHours LocalTZA (Some tv) h m s ms =
  Some (Day (tv + tza) * msPerDay + MakeTime h m s ms - tza).
Proof.
  intros Hn Hn' H. unfold setHours, MakeDate.
  rewrite (LocalTime_steady Hn), (UTC_steady Hn').
  apply TimeClip_in_range. exact H.
Qed.

(** Where the zone keeps one offset around the reference instant, and
    the week is representable: the range starts on a Sunday at local
    00:00:00.000, ends on the Thursday four days later at local
    23:59:59.999, and does not start after the reference instant (nor a
    week or more before it). *)
Lemma getWeekRange_steady_zone :
  weekRepresentable t ->
  exists s e,
    getWeekRange LocalTZA (Some t) = mkWeekRange (Some s) (Some e) /\
    (getDay LocalTZA (Some s) = Some 0 /\
     getHours LocalTZA (Some s) = Some 0 /\
     getMinutes LocalTZA (Some s) = Some 0 /\
     getSeconds LocalTZA (Some s) = Some 0 /\
     getMilliseconds LocalTZA (Some s) = Some 0) /\
    (getDay LocalTZA (Some e) = Some 4 /\
     Day (local e) = Day (local s) + 4 /\
     getHours LocalTZA (Some e) = Some 23 /\
     getMinutes LocalTZA (Some e) = Some 59 /\
     getSeconds LocalTZA (Some e) = Some 59 /\
     getMilliseconds LocalTZA (Some e) = Some 999) /\
    s <= t < s + 7 * msPerDay.
Proof.
  intros Hrep. unfold weekRepresentable in Hrep.
  pose proof (proj1 Hsteady) as Htza.
  set (L := t + tza).
  assert (EL : local t = L).
  { apply LocalTime_steady. unfold msPerDay. lia. }
  set (dow := WeekDay L).
  assert (Hdow : 0 <= dow <= 6).
  { unfold dow, WeekDay. pose proof (Z.mod_pos_bound (Day L + 4) 7). lia. }
  assert (HL : L = Day L * msPerDay + TimeWithinDay L).
  { unfold Day, TimeWithinDay. pose proof (Z.div_mod L msPerDay).
    unfold msPerDay in *. lia. }
  assert (Htw : 0 <= TimeWithinDay L < msPerDay).
  { unfold TimeWithinDay. apply Z.mod_pos_bound. reflexivity. }
  (* the Sunday, still at the time of day of the reference instant *)
  set (s1 := t + (- dow) * msPerDay).
  assert (E1 : setDate LocalTZA (Some t)
                       (numSub (getDate LocalTZA (Some t))
                               (getDay LocalTZA (Some t)))
               = Some s1).
  { cbn [getDate getDay option_map numSub]. rewrite EL. fold dow.
    replace (DateFromTime L - dow) with (DateFromTime L + (- dow)) by lia.
    rewrite <- EL. apply setDate_shift; unfold msPerDay, maxTime in *; lia. }
  assert (HD1 : Day (s1 + tza) = Day L - dow).
  { unfold s1.
    replace (t + - dow * msPerDay + tza) with (L + (- dow) * msPerDay)
      by (unfold L; lia).
    unfold Day. rewrite Z.div_add by discriminate. lia. }
  (* the Sunday at midnight *)
  set (s := (Day L - dow) * msPerDay - tza).
  assert (E2 : setHours LocalTZA (Some s1) 0 0 0 0 = Some s).
  { rewrite setHours_day; rewrite ?HD1; unfold MakeTime.
    - unfold s. f_equal. lia.
    - unfold s1, msPerDay in *. lia.
    - unfold L, msPerDay in *. lia.
    - unfold L, msPerDay, maxTime in *. lia. }
  assert (Hs : near s) by (unfold s, L, msPerDay in *; lia).
  assert (HLs : local s = (Day L - dow) * msPerDay).
  { rewrite (LocalTime_steady Hs). unfold s. lia. }
  assert (HDs : Day (local s) = Day L - dow).
  { rewrite HLs. unfold Day. apply Z.div_mul. discriminate. }
  (* the Thursday *)
  set (e1 := s + 4 * msPerDay).
  assert (E3 : setDate LocalTZA (Some s)
                       (numAdd (getDate LocalTZA (Some s)) (Some 4))
               = Some e1).
  { cbn [getDate option_map numAdd].
    apply setDate_shift; unfold s, L, msPerDay, maxTime in *; lia. }
  assert (HDe1 : Day (e1 + tza) = Day L - dow + 4).
  { unfold e1, s.
    replace ((Day L - dow) * msPerDay - tza + 4 * msPerDay + tza)
      with ((Day L - dow + 4) * msPerDay) by lia.
    unfold Day at 1. apply Z.div_mul. discriminate. }
  set (e := (Day L - dow + 4) * msPerDay + MakeTime 23 59 59 999 - tza).
  assert (E4 : setHours LocalTZA (Some e1) 23 59 59 999 = Some e).
  { rewrite setHours_day; rewrite ?HDe1; [reflexivity | | |];
      unfold e1, s, L, MakeTime, msPerHour, msPerMinute, msPerSecond,
        msPerDay, maxTime in *; lia. }
  assert (He : near e).
  { unfold e, L, MakeTime, msPerHour, msPerMinute, msPerSecond,
      msPerDay in *. lia. }
  assert (HLe : local e = (Day L - dow + 4) * msPerDay + 86399999).
  { rewrite (LocalTime_steady He).
    unfold e, MakeTime, msPerHour, msPerMinute, msPerSecond. lia. }
  assert (Hw : (Day L - dow) mod 7 = 3).
  { unfold dow, WeekDay.
    pose proof (Z.div_mod (Day L + 4) 7).
    replace (Day L - (Day L + 4) mod 7)
      with (3 + ((Day L + 4) / 7 - 1) * 7) by lia.
    rewrite Z.mod_add by discriminate. reflexivity. }
  exists s, e. split; [| split; [| split]].
  - unfold getWeekRange. rewrite E1, E2, E3, E4. reflexivity.
  - cbn [getDay getHours getMinutes getSeconds getMilliseconds option_map].
    rewrite HLs.
    destruct (midnight_fields _ Hw) as (-> & -> & -> & -> & ->).
    repeat split; reflexivity.
  - cbn [getDay getHours getMinutes getSeconds getMilliseconds option_map].
    rewrite HLe, HDs.
    destruct (end_of_day_fields _ Hw) as (-> & -> & -> & -> & -> & ->).
    repeat split; reflexivity.
  - unfold s, L, msPerDay in *. lia.
Qed.

End WeekRange.

(** ** The week range on the clock of any zone *)

Section WeekOnClock.

Import JsDate WeekClock.
Local Open Scope Z_scope.

Variable LocalTZA : Z -> bool -> Z.

Local Abbreviation local := (LocalTime LocalTZA).
Local Abbreviation utc := (UTC LocalTZA).

(** Setting the day of the month moves the local time by whole days;
    the zone then says which instant stands for it. *)
Lemma setDate_local (tv k : Z) :
  setDate LocalTZA (Some tv) (Some (DateFromTime (local tv) + k)) =
  TimeClip (utc (local tv + k * msPerDay)).
Proof.
  unfold setDate. rewrite MakeDay_of_date. unfold MakeDate.
  f_equal. f_equal. unfold Day, TimeWithinDay.
  pose proof (Z.div_mod (local tv) msPerDay). unfold msPerDay in *. lia.
Qed.

(** The Sunday of a week, as a local time. *)
Lemma weekSunday_facts (t : Z) :
  let D := Day (local t) - WeekDay (local t) in
  weekSunday LocalTZA t = D * msPerDay /\
  D mod 7 = 3 /\
  local t + (- WeekDay (local t)) * msPerDay =
  weekSunday LocalTZA t + TimeWithinDay (local t) /\
  Day (weekSunday LocalTZA t + TimeWithinDay (local t)) = D /\
  Day (weekSunday LocalTZA t + 4 * msPerDay) = D + 4 /\
  weekSunday LocalTZA t <= local t < weekSunday LocalTZA t + 7 * msPerDay.
Proof.
  intros D. unfold weekSunday. fold D.
  assert (Hdow : 0 <= WeekDay (local t) <= 6).
  { unfold WeekDay. pose proof (Z.mod_pos_bound (Day (local t) + 4) 7). lia. }
  assert (HL : local t = Day (local t) * msPerDay + TimeWithinDay (local t)).
  { unfold Day, TimeWithinDay. pose proof (Z.div_mod (local t) msPerDay).
    unfold msPerDay in *. lia. }
  assert (Htw : 0 <= TimeWithinDay (local t) < msPerDay).
  { unfold TimeWithinDay. apply Z.mod_pos_bound. reflexivity. }
  split; [reflexivity |]. split.
  { unfold D, WeekDay.
    pose proof (Z.div_mod (Day (local t) + 4) 7).
    replace (Day (local t) - (Day (local t) + 4) mod 7)
      with (3 + ((Day (local t) + 4) / 7 - 1) * 7) by lia.
    rewrite Z.mod_add by discriminate. reflexivity. }
  split; [unfold D; lia |]. split.
  { unfold Day at 1. rewrite Z.add_comm, Z.div_add by discriminate.
    rewrite Z.div_small by exact Htw. lia. }
  split.
  { replace (D * msPerDay + 4 * msPerDay) with ((D + 4) * msPerDay) by lia.
    unfold Day at 1. apply Z.div_mul. discriminate. }
  unfold D, msPerDay in *. lia.
Qed.

(** The range of a week that is on the clock. *)
Lemma getWeekRange_on_clock (t : Z) :
  weekOnClock LocalTZA t ->
  getWeekRange LocalTZA (Some t) =
  mkWeekRange (Some (utc (weekSunday LocalTZA t)))
              (Some (utc (weekSunday LocalTZA t + 5 * msPerDay - 1))).
Proof.
  intros ((Hk1 & Hh1) & ((Hshown & _) & Hh2) & (Hk3 & Hh3) & (_ & Hh4)).
  destruct (weekSunday_facts t) as (Esun & Hw & Esame & HD1 & HD4 & _).
  set (D := Day (local t) - WeekDay (local t)) in *.
  set (sunday := weekSunday LocalTZA t) in *.
  unfold holds in *.
  (* the Sunday, still at the time of day of the reference instant *)
  assert (E1 : setDate LocalTZA (Some t)
                       (numSub (getDate LocalTZA (Some t))
                               (getDay LocalTZA (Some t)))
               = Some (utc (sunday + TimeWithinDay (local t)))).
  { cbn [getDate getDay option_map numSub].
    replace (DateFromTime (local t) - WeekDay (local t))
      with (DateFromTime (local t) + (- WeekDay (local t))) by lia.
    rewrite setDate_local, Esame. apply TimeClip_in_range. exact Hh1. }
  (* the Sunday at midnight *)
  assert (E2 : setHours LocalTZA
                        (Some (utc (sunday + TimeWithinDay (local t))))
                        0 0 0 0
               = Some (utc sunday)).
  { unfold setHours, MakeDate, MakeTime. unfold keepsDay in Hk1.
    rewrite Hk1, HD1.
    replace (D * msPerDay +
             (0 * msPerHour + 0 * msPerMinute + 0 * msPerSecond + 0))
      with sunday by lia.
    apply TimeClip_in_range. exact Hh2. }
  (* the Thursday *)
  assert (E3 : setDate LocalTZA (Some (utc sunday))
                       (numAdd (getDate LocalTZA (Some (utc sunday)))
                               (Some 4))
               = Some (utc (sunday + 4 * msPerDay))).
  { cbn [getDate option_map numAdd]. rewrite setDate_local.
    unfold shown in Hshown. rewrite Hshown.
    apply TimeClip_in_range. exact Hh3. }
  assert (E4 : setHours LocalTZA (Some (utc (sunday + 4 * msPerDay)))
                        23 59 59 999
               = Some (utc (sunday + 5 * msPerDay - 1))).
  { unfold setHours, MakeDate, MakeTime. unfold keepsDay in Hk3.
    rewrite Hk3, HD4.
    replace ((D + 4) * msPerDay +
             (23 * msPerHour + 59 * msPerMinute + 59 * msPerSecond + 999))
      with (sunday + 5 * msPerDay - 1)
      by (unfold msPerHour, msPerMinute, msPerSecond, msPerDay in *; lia).
    apply TimeClip_in_range. exact Hh4. }
  unfold getWeekRange. rewrite E1, E2, E3, E4. reflexivity.
Qed.

(** C8, as it holds: for a reference instant whose week is on the
    clock of the zone, the range starts on a Sunday at local
    00:00:00.000, ends on the Thursday four days later at local
    23:59:59.999, the start is not after the reference instant, and on
    the local clock the reference instant is less than seven days after
    the start. *)
Theorem getWeekRange_sunday_thursday (t : Z) :
  weekOnClock LocalTZA t ->
  exists s e,
    getWeekRange LocalTZA (Some t) = mkWeekRange (Some s) (Some e) /\
    (getDay LocalTZA (Some s) = Some 0 /\
     getHours LocalTZA (Some s) = Some 0 /\
     getMinutes LocalTZA (Some s) = Some 0 /\
     getSeconds LocalTZA (Some s) = Some 0 /\
     getMilliseconds LocalTZA (Some s) = Some 0) /\
    (getDay LocalTZA (Some e) = Some 4 /\
     Day (local e) = Day (local s) + 4 /\
     getHours LocalTZA (Some e) = Some 23 /\
     getMinutes LocalTZA (Some e) = Some 59 /\
     getSeconds LocalTZA (Some e) = Some 59 /\
     getMilliseconds LocalTZA (Some e) = Some 999) /\
    s <= t /\
    local s <= local t < local s + 7 * msPerDay.
Proof.
  intros Hweek. pose proof (getWeekRange_on_clock Hweek) as Hrange.
  destruct Hweek as (_ & ((Hshown & Hfirst) & _) & _ & (Hlast & _)).
  destruct (weekSunday_facts t) as (Esun & Hw & _ & _ & _ & Hin).
  set (D := Day (local t) - WeekDay (local t)) in *.
  set (sunday := weekSunday LocalTZA t) in *.
  unfold shown in Hshown, Hlast.
  assert (HLe : local (utc (sunday + 5 * msPerDay - 1)) =
                (D + 4) * msPerDay + 86399999).
  { rewrite Hlast, Esun. unfold msPerDay. lia. }
  assert (HDs : Day (local (utc sunday)) = D).
  { rewrite Hshown, Esun. unfold Day. apply Z.div_mul. discriminate. }
  exists (utc sunday), (utc (sunday + 5 * msPerDay - 1)).
  split; [exact Hrange |]. split; [| split; [| split]].
  - cbn [getDay getHours getMinutes getSeconds getMilliseconds option_map].
    rewrite Hshown, Esun.
    destruct (midnight_fields _ Hw) as (-> & -> & -> & -> & ->).
    repeat split; reflexivity.
  - cbn [getDay getHours getMinutes getSeconds getMilliseconds option_map].
    rewrite HLe, HDs.
    destruct (end_of_day_fields _ Hw) as (-> & -> & -> & -> & -> & ->).
    repeat split; reflexivity.
  - apply Hfirst. exact Hin.
  - rewrite Hshown. exact Hin.
Qed.

(** A record of a local Friday or Saturday is outside the range of
    every week that is on the clock, where local days never go back. *)
Lemma weekend_outside_range (t t' : Z) :
  weekOnClock LocalTZA t ->
  dayMonotone LocalTZA ->
  5 <= WeekDay (local t') ->
  t' < utc (weekSunday LocalTZA t) \/
  utc (weekSunday LocalTZA t + 5 * msPerDay - 1) < t'.
Proof.
  intros (_ & ((Hshown & _) & _) & _ & (Hlast & _)) Hmono Hday.
  destruct (weekSunday_facts t) as (Esun & Hw & _ & _ & _ & _).
  set (D := Day (local t) - WeekDay (local t)) in *.
  set (sunday := weekSunday LocalTZA t) in *.
  unfold shown in Hshown, Hlast.
  destruct (Z.lt_ge_cases t' (utc sunday)) as [H | Hge]; [left; exact H |].
  destruct (Z.lt_ge_cases (utc (sunday + 5 * msPerDay - 1)) t')
    as [H | Hle]; [right; exact H |].
  exfalso.
  pose proof (Hmono _ _ Hge) as H1. pose proof (Hmono _ _ Hle) as H2.
  rewrite Hshown in H1. rewrite Hlast in H2.
  assert (E1 : Day sunday = D).
  { rewrite Esun. unfold Day. apply Z.div_mul. discriminate. }
  assert (E2 : Day (sunday + 5 * msPerDay - 1) = D + 4).
  { rewrite Esun. unfold Day, msPerDay.
    Z.to_euclidean_division_equations. lia. }
  rewrite E1 in H1. rewrite E2 in H2.
  unfold WeekDay in Hday.
  generalize dependent (Day (local t')). intros d Hday H1 H2.
  Z.to_euclidean_division_equations. lia.
Qed.

End WeekOnClock.

(** Berlin, in the week after the clocks went forward. *)
Lemma berlin2024_week :
  WeekClock.weekOnClock Examples.berlin2024 Examples.berlinWednesday.
Proof.
  assert (Esun : WeekClock.weekSunday Examples.berlin2024
                                      Examples.berlinWednesday =
                 1711843200000%Z) by (vm_compute; reflexivity).
  assert (Etod : JsDate.TimeWithinDay
                   (JsDate.LocalTime Examples.berlin2024
                                     Examples.berlinWednesday) =
                 43200000%Z) by (vm_compute; reflexivity).
  unfold WeekClock.weekOnClock. rewrite Esun, Etod. cbv zeta.
  split; [split; [vm_compute; reflexivity | vm_compute; split; discriminate] |].
  split; [split; [| vm_compute; split; discriminate] |].
  - split; [vm_compute; reflexivity |].
    intros x Hx.
    assert (E : JsDate.UTC Examples.berlin2024 1711843200000 =
                1711839600000%Z) by (vm_compute; reflexivity).
    rewrite E.
    unfold JsDate.LocalTime, Examples.berlin2024, JsDate.msPerDay in Hx.
    destruct (Z.ltb_spec x 1711846800000); lia.
  - split; split; vm_compute; try reflexivity; split; discriminate.
Qed.

Lemma berlin2024_dayMonotone : WeekClock.dayMonotone Examples.berlin2024.
Proof.
  intros x y Hxy.
  unfold JsDate.LocalTime, Examples.berlin2024, JsDate.Day, JsDate.msPerDay.
  destruct (Z.ltb_spec x 1711846800000), (Z.ltb_spec x 1729990800000),
    (Z.ltb_spec y 1711846800000), (Z.ltb_spec y 1729990800000);
    try lia; Z.to_euclidean_division_equations; lia.
Qed.

Lemma getWeekRange_sunday_thursday_witness :
  exists s e,
    JsDate.getWeekRange Examples.berlin2024
                        (Some Examples.berlinWednesday) =
    JsDate.mkWeekRange (Some s) (Some e) /\
    (JsDate.getDay Examples.berlin2024 (Some s) = Some 0 /\
     JsDate.getHours Examples.berlin2024 (Some s) = Some 0 /\
     JsDate.getMinutes Examples.berlin2024 (Some s) = Some 0 /\
     JsDate.getSeconds Examples.berlin2024 (Some s) = Some 0 /\
     JsDate.getMilliseconds Examples.berlin2024 (Some s) = Some 0)%Z /\
    (JsDate.getDay Examples.berlin2024 (Some e) = Some 4 /\
     JsDate.Day (JsDate.LocalTime Examples.berlin2024 e) =
     JsDate.Day (JsDate.LocalTime Examples.berlin2024 s) + 4 /\
     JsDate.getHours Examples.berlin2024 (Some e) = Some 23 /\
     JsDate.getMinutes Examples.berlin2024 (Some e) = Some 59 /\
     JsDate.getSeconds Examples.berlin2024 (Some e) = Some 59 /\
     JsDate.getMilliseconds Examples.berlin2024 (Some e) = Some 999)%Z /\
    (s <= Examples.berlinWednesday)%Z /\
    (JsDate.LocalTime Examples.berlin2024 s <=
     JsDate.LocalTime Examples.berlin2024 Examples.berlinWednesday <
     JsDate.LocalTime Examples.berlin2024 s + 7 * JsDate.msPerDay)%Z.
Proof.
  apply (@getWeekRange_sunday_thursday
           Examples.berlin2024 Examples.berlinWednesday).
  exact berlin2024_week.
Defined.

(** C8, as it is stated, fails at the earliest instant a [Date] can hold
    (a Tuesday in UTC): the Sunday before it is not representable, so the
    start of the range is an invalid date and not a Sunday. *)
Lemma getWeekRange_earliest_instant :
  JsDate.TimeClip (- JsDate.maxTime) = Some (- JsDate.maxTime)%Z /\
  JsDate.getDay Examples.utc (Some (- JsDate.maxTime)%Z) = Some 2%Z /\
  JsDate.start
    (JsDate.getWeekRange Examples.utc (Some (- JsDate.maxTime)%Z)) = None /\
  JsDate.getDay Examples.utc
    (JsDate.start
       (JsDate.getWeekRange Examples.utc (Some (- JsDate.maxTime)%Z)))
  <> Some 0%Z.
Proof.
  vm_compute. repeat split; discriminate.
Qed.

(** Nor does C8 hold where the local midnight of the Sunday does not
    exist: in Santiago, in the week of 8 September 2024, the range starts
    at 01:00 local time. *)
Lemma getWeekRange_skipped_midnight :
  let range :=
    JsDate.getWeekRange Examples.santiago2024
                        (Some Examples.santiagoWednesday) in
  JsDate.start range = Some 1725768000000%Z /\
  JsDate.getDay Examples.santiago2024 (JsDate.start range) = Some 0%Z /\
  JsDate.getHours Examples.santiago2024 (JsDate.start range) = Some 1%Z.
Proof.
  vm_compute. repeat split; reflexivity.
Qed.

(** ** Parsing the reply *)

Section Parsing.

Lemma inked_nonempty (s : jsstring) : inked s -> s <> [].
Proof. intros (c & Hc & _) ->. inversion Hc. Qed.

Lemma trimStart_inked (s : jsstring) : inked s -> inked (trimStart s).
Proof.
  induction s as [| a s IH]; intros (c & Hc & Hs); [inversion Hc |].
  simpl. destruct (isSpace a) eqn:Ea.
  - apply IH. exists c. split; [| exact Hs].
    destruct Hc as [-> | Hc]; [congruence | exact Hc].
  - exists c. split; assumption.
Qed.

Lemma rev_inked (s : jsstring) : inked s -> inked (rev s).
Proof.
  intros (c & Hc & Hs). exists c. split; [| exact Hs].
  apply in_rev. rewrite rev_involutive. exact Hc.
Qed.

Lemma trim_inked (s : jsstring) : inked s -> inked (trim s).
Proof.
  intros H. unfold trim, trimEnd.
  apply rev_inked, trimStart_inked, rev_inked, trimStart_inked, H.
Qed.

Lemma stripPrefix_app (p s rest : jsstring) :
  stripPrefix p s = Some rest <-> s = p ++ rest.
Proof.
  revert s. induction p as [| a p IH]; intros s; simpl.
  - split; congruence.
  - destruct s as [| b s]; [split; discriminate |].
    destruct (N.eqb_spec a b) as [-> | Hne].
    + rewrite IH. split; congruence.
    + split; [discriminate | congruence].
Qed.

Lemma includes_split (p s : jsstring) :
  includes p s = true <-> exists pre post, s = pre ++ p ++ post.
Proof.
  split.
  - induction s as [| b s IH]; simpl; unfold startsWith.
    + destruct (stripPrefix p []) as [rest |] eqn:E; [| discriminate].
      intros _. apply stripPrefix_app in E. exists [], rest. exact E.
    + destruct (stripPrefix p (b :: s)) as [rest |] eqn:E.
      * intros _. apply stripPrefix_app in E. exists [], rest. exact E.
      * intros H. destruct (IH H) as (pre & post & ->).
        exists (b :: pre), post. reflexivity.
  - intros (pre & post & ->). induction pre as [| b pre IH].
    + assert (E : startsWith p (p ++ post) = true).
      { unfold startsWith.
        rewrite (proj2 (stripPrefix_app p (p ++ post) post) eq_refl).
        reflexivity. }
      simpl. destruct (p ++ post); simpl; rewrite E; reflexivity.
    + simpl. destruct (startsWith p (b :: pre ++ p ++ post));
        [reflexivity | exact IH].
Qed.

Lemma includes_label_inked (content : jsstring) :
  includes solutionLabel content = true -> inked content.
Proof.
  intros H. apply includes_split in H as (pre & post & ->).
  exists 1508%N. split; [| reflexivity].
  apply in_app_iff. right. left. reflexivity.
Qed.

Lemma orDefault_nonempty (x : option jsstring) (y : jsstring) :
  y <> [] -> orDefault x y <> [].
Proof.
  intros Hy. destruct x as [[| c s] |]; simpl; [exact Hy | discriminate | exact Hy].
Qed.

(** A pattern that starts with a literal text matches only in a text
    that includes it. *)
Lemma regexMatch_literal (lit : jsstring) (r : regex) (content : jsstring) :
  includes lit content = false ->
  regexMatch (RSeq (RLit lit) r) content = None.
Proof.
  induction content as [| b s IH]; simpl; unfold startsWith.
  - destruct (stripPrefix lit []); [discriminate | reflexivity].
  - destruct (stripPrefix lit (b :: s)); [discriminate |].
    intros H. simpl. apply IH. exact H.
Qed.

(** Any text with a visible character gets a solution that is not
    empty. *)
Lemma parseAIResponse_never_empty (content : jsstring) :
  inked content -> solution (Utils.parseAIResponse content) <> [].
Proof.
  intros H. apply orDefault_nonempty, inked_nonempty, trim_inked, H.
Qed.

(** C7: [parseAIResponse] is a total function, and on every text: when
    the text includes the solution label the solution it returns is not
    empty, and when the text does not include the label the solution is
    the trimmed text. *)
Theorem parseAIResponse_solution (content : jsstring) :
  if includes solutionLabel content
  then solution (Utils.parseAIResponse content) <> []
  else solution (Utils.parseAIResponse content) = trim content.
Proof.
  destruct (includes solutionLabel content) eqn:E.
  - apply parseAIResponse_never_empty, includes_label_inked, E.
  - unfold Utils.parseAIResponse, Utils.solutionRe. cbn [solution].
    rewrite regexMatch_literal by exact E. reflexivity.
Qed.

(** C3, at the reply of the test "should handle missing time
    complexity": the rule of the specification and [parseAIResponse]
    give the solution text alone, while the parsing written inline in
    [getQuestionSummary] runs on through the line of the space label. *)
Theorem inline_parsing_runs_past_space_label :
  ParseSpec.solutionOf Examples.missingTime = Examples.simpleSolution /\
  solution (Utils.parseAIResponse Examples.missingTime) =
  Examples.simpleSolution /\
  solution (Index.parseContent Examples.missingTime) =
  Examples.simpleSolution ++ newline ++ spaceLabel ++ js " O(1)" /\
  solution (Index.parseContent Examples.missingTime) <>
  ParseSpec.solutionOf Examples.missingTime.
Proof.
  vm_compute. repeat split. discriminate.
Qed.

End Parsing.

(** ** The solution pattern against the rule of the specification

    A pattern of the shape [solutionPattern ahead] captures the text
    between the label and the first place at which the lookahead holds;
    the place is described by a predicate [stops] on the rest of the
    text. *)

Section SolutionPattern.

Import ParseSpec.

Variable ahead : regex.
Variable stops : jsstring -> bool.

(** The lookahead holds where [stops] does and at the end of the text,
    and it leaves the capture alone. *)
Hypothesis ahead_stops :
  forall (r : jsstring) (cap : option jsstring)
         (k : jsstring -> option jsstring -> option MatchState),
    matchHere (RAhead ahead) r cap k =
    if stops r || negb (truthy r) then k r cap else None.

Lemma trim_nonempty_inked (s : jsstring) : trim s <> [] -> inked s.
Proof.
  intros H.
  assert (Hblank : (forall c, In c s -> isSpace c = true) -> trimStart s = []).
  { clear. induction s as [| a s IH]; intros Hs; [reflexivity |].
    simpl. rewrite (Hs a) by (left; reflexivity).
    apply IH. intros c Hc. apply Hs. right. exact Hc. }
  destruct (forallb isSpace s) eqn:E.
  - exfalso. apply H. unfold trim. rewrite Hblank; [reflexivity |].
    intros c Hc. rewrite forallb_forall in E. apply E. exact Hc.
  - clear -E. induction s as [| a s IH]; [discriminate |].
    simpl in E. destruct (isSpace a) eqn:Ea.
    + destruct (IH E) as (c & Hc & Hs). exists c. split; [right |]; assumption.
    + exists a. split; [left; reflexivity | exact Ea].
Qed.

(** [\s*] runs over the white space in front of the text. *)
Lemma starGreedy_space (rest : jsstring)
      (k : jsstring -> option MatchState) (m : MatchState) :
  k (trimStart rest) = Some m -> starGreedy CSpace rest k = Some m.
Proof.
  induction rest as [| c tl IH]; simpl; [tauto |].
  destruct (isSpace c); [| tauto].
  intros H. rewrite (IH H). reflexivity.
Qed.

(** White space in front of the segment does not change what the rest of
    the segment is. *)
Lemma upto_trimStart (rest : jsstring) :
  inked (upto stops rest) ->
  inked (upto stops (trimStart rest)) /\
  trimStart (upto stops rest) = trimStart (upto stops (trimStart rest)).
Proof.
  induction rest as [| c tl IH]; intros Hink.
  - split; [exact Hink | reflexivity].
  - cbn [upto] in Hink. destruct (stops (c :: tl)) eqn:Es.
    + destruct Hink as (x & [] & _).
    + cbn [trimStart]. destruct (isSpace c) eqn:Ec.
      * assert (Htl : inked (upto stops tl)).
        { destruct Hink as (x & [<- | Hx] & Hs); [congruence |].
          exists x. split; assumption. }
        destruct (IH Htl) as [H1 H2]. split; [exact H1 |].
        cbn [upto]. rewrite Es. cbn [trimStart]. rewrite Ec. exact H2.
      * split; [| reflexivity]. cbn [upto]. rewrite Es. exact Hink.
Qed.

(** The lazy capture: having read [done], the search goes on through
    [tl] and stops at the first place where the lookahead holds. *)
Lemma lazy_capture (body tl done : jsstring) :
  body = done ++ tl ->
  let K := fun r : jsstring =>
             matchHere (RAhead ahead) r
                       (Some (firstn (length body - length r) body)) accept in
  exists r, orTry (K tl) (plusLazy CAny tl K) =
            Some (r, Some (done ++ upto stops tl)).
Proof.
  intros Hbody K. revert done Hbody.
  induction tl as [| x tl IH]; intros done Hbody.
  - exists []. unfold K. rewrite ahead_stops.
    rewrite orb_true_r. unfold accept. cbn [orTry length].
    rewrite Nat.sub_0_r, firstn_all.
    replace (upto stops []) with (@nil N) by (simpl; destruct (stops []); reflexivity).
    rewrite Hbody. reflexivity.
  - cbn [upto]. destruct (stops (x :: tl)) eqn:Es.
    + exists (x :: tl). unfold K at 1. rewrite ahead_stops, Es.
      unfold accept. cbn [orb orTry].
      replace (length body - length (x :: tl))%nat with (length done)
        by (rewrite Hbody, length_app; lia).
      rewrite Hbody, firstn_app, firstn_all, Nat.sub_diag. simpl.
      rewrite !app_nil_r. reflexivity.
    + assert (HK : K (x :: tl) = None).
      { unfold K. rewrite ahead_stops, Es. reflexivity. }
      rewrite HK. cbn [orTry plusLazy classMatches].
      destruct (IH (done ++ [x])) as (r & Hr).
      { rewrite Hbody, <- app_assoc. reflexivity. }
      exists r. rewrite Hr, <- app_assoc. reflexivity.
Qed.

(** The pattern after the label, on a text whose segment is not blank. *)
Lemma afterLabel_capture (rest : jsstring) :
  inked (upto stops rest) ->
  exists r, matchHere (afterLabel ahead) rest None accept =
            Some (r, Some (upto stops (trimStart rest))).
Proof.
  intros Hink. destruct (upto_trimStart rest Hink) as [Hbody _].
  set (body := trimStart rest) in *.
  destruct body as [| c body'] eqn:Eb.
  { exfalso. destruct Hbody as (x & Hx & _). simpl in Hx.
    destruct (stops []); inversion Hx. }
  assert (Es : stops (c :: body') = false).
  { destruct (stops (c :: body')) eqn:E; [| reflexivity].
    exfalso. destruct Hbody as (x & Hx & _). cbn [upto] in Hx.
    rewrite E in Hx. inversion Hx. }
  destruct (@lazy_capture (c :: body') body' [c] eq_refl) as (r & Hr).
  exists r. unfold afterLabel. cbn [matchHere].
  apply starGreedy_space. fold body. rewrite Eb.
  cbn [plusLazy classMatches upto]. rewrite Es. exact Hr.
Qed.

Lemma afterSolutionLabel_none (content : jsstring) :
  afterSolutionLabel content = None ->
  includes solutionLabel content = false.
Proof.
  induction content as [| b s IH]; cbn [afterSolutionLabel includes];
    unfold startsWith.
  - destruct (stripPrefix solutionLabel []); [discriminate | reflexivity].
  - destruct (stripPrefix solutionLabel (b :: s)); [discriminate | exact IH].
Qed.

(** The search for the pattern stops at the first label. *)
Lemma regexMatch_first_label (content rest : jsstring) (m : MatchState) :
  afterSolutionLabel content = Some rest ->
  matchHere (afterLabel ahead) rest None accept = Some m ->
  regexMatch (solutionPattern ahead) content = Some m.
Proof.
  intros Hrest Hm. induction content as [| b s IH].
  - cbn [afterSolutionLabel] in Hrest.
    destruct (stripPrefix solutionLabel []) eqn:E; [| discriminate].
    discriminate E.
  - cbn [afterSolutionLabel] in Hrest. cbn [regexMatch].
    change (matchHere (solutionPattern ahead) (b :: s) None accept)
      with (match stripPrefix solutionLabel (b :: s) with
            | Some rest0 => matchHere (afterLabel ahead) rest0 None accept
            | None => None
            end).
    destruct (stripPrefix solutionLabel (b :: s)) as [rest' |] eqn:E.
    + injection Hrest as ->. rewrite Hm. reflexivity.
    + cbn [orTry]. apply IH. exact Hrest.
Qed.

(** Whenever the segment of the rule is not empty, the pattern yields
    it. *)
Theorem solutionBy_segment (content : jsstring) :
  segment stops content <> [] ->
  solutionBy (solutionPattern ahead) content = segment stops content.
Proof.
  unfold segment, solutionBy.
  destruct (afterSolutionLabel content) as [rest |] eqn:E; intros Hne.
  - assert (Hink : inked (upto stops rest))
      by (apply trim_nonempty_inked; exact Hne).
    destruct (afterLabel_capture rest Hink) as (r & Hr).
    rewrite (regexMatch_first_label content E Hr).
    cbn [group1 option_map orDefault].
    assert (Et : trim (upto stops (trimStart rest)) = trim (upto stops rest)).
    { unfold trim. destruct (upto_trimStart rest Hink) as [_ ->].
      reflexivity. }
    rewrite Et. unfold orElse.
    destruct (trim (upto stops rest)); [congruence | reflexivity].
  - unfold solutionPattern.
    rewrite regexMatch_literal by (apply afterSolutionLabel_none; exact E).
    reflexivity.
Qed.

End SolutionPattern.

(** ** The two solution patterns of the sources *)

Section TwoPatterns.

Import ParseSpec.

Lemma stripPrefix_concat (p q s : jsstring) :
  stripPrefix (p ++ q) s =
  match stripPrefix p s with
  | Some r => stripPrefix q r
  | None => None
  end.
Proof.
  revert s. induction p as [| a p IH]; intros s; [reflexivity |].
  destruct s as [| b s]; [reflexivity |].
  simpl. destruct (a =? b)%N; [apply IH | reflexivity].
Qed.

(** The lookahead of [utils.ts]: [(?=\n(?:זמן|מקום):|$)]. *)
Lemma utils_ahead (r : jsstring) (cap : option jsstring)
      (k : jsstring -> option jsstring -> option MatchState) :
  matchHere
    (RAhead (RAlt (RSeq (RLit newline)
                        (RSeq (RAlt (RLit zman) (RLit makom)) (RLit colon)))
                  REnd)) r cap k =
  if atNextLabel r || negb (truthy r) then k r cap else None.
Proof.
  destruct r as [| b s]; [reflexivity |].
  remember (b :: s) as r eqn:Er.
  assert (Ht : truthy r = true) by (rewrite Er; reflexivity).
  rewrite Ht. cbn [negb]. rewrite orb_false_r.
  unfold atNextLabel, atTimeLine, atSpaceLine, startsWith, timeLabel,
    spaceLabel.
  rewrite !stripPrefix_concat.
  cbn [matchHere]. clear Ht.
  destruct (stripPrefix newline r) as [r1 |];
    [| rewrite Er; reflexivity].
  rewrite !stripPrefix_concat.
  destruct (stripPrefix zman r1) as [r2 |].
  - destruct (stripPrefix colon r2) as [r3 |]; [reflexivity |].
    destruct (stripPrefix makom r1) as [r4 |]; [| rewrite Er; reflexivity].
    destruct (stripPrefix colon r4); [| rewrite Er]; reflexivity.
  - destruct (stripPrefix makom r1) as [r4 |]; [| rewrite Er; reflexivity].
    destruct (stripPrefix colon r4); [| rewrite Er]; reflexivity.
Qed.

(** The lookahead of [index.ts]: [(?=\nזמן:|$)]. *)
Lemma index_ahead (r : jsstring) (cap : option jsstring)
      (k : jsstring -> option jsstring -> option MatchState) :
  matchHere (RAhead (RAlt (RLit (newline ++ timeLabel)) REnd)) r cap k =
  if atTimeLine r || negb (truthy r) then k r cap else None.
Proof.
  destruct r as [| b s]; [reflexivity |].
  remember (b :: s) as r eqn:Er.
  assert (Ht : truthy r = true) by (rewrite Er; reflexivity).
  rewrite Ht. cbn [negb]. rewrite orb_false_r.
  unfold atTimeLine, startsWith.
  cbn [matchHere]. clear Ht.
  destruct (stripPrefix (newline ++ timeLabel) r);
    [| rewrite Er]; reflexivity.
Qed.

(** [parseAIResponse] follows the rule of the specification on every
    text for which the rule gives a solution that is not empty. *)
Theorem parseAIResponse_follows_rule (content : jsstring) :
  solutionOf content <> [] ->
  solution (Utils.parseAIResponse content) = solutionOf content.
Proof.
  intros H. unfold solutionOf.
  rewrite <- (@solutionBy_segment _ atNextLabel utils_ahead content H).
  reflexivity.
Qed.

(** The parsing written inline in [index.ts] follows the rule with the
    time label alone. *)
Theorem parseContent_stops_at_time_label (content : jsstring) :
  solutionUptoTime content <> [] ->
  solution (Index.parseContent content) = solutionUptoTime content.
Proof.
  intros H. unfold solutionUptoTime.
  rewrite <- (@solutionBy_segment _ atTimeLine index_ahead content H).
  reflexivity.
Qed.

(** Where the segment of the rule is blank, [parseAIResponse] returns
    other text: with a time line right after the label, that line. *)
Example parseAIResponse_blank_segment :
  solutionOf Examples.emptySolution = [] /\
  solution (Utils.parseAIResponse Examples.emptySolution) =
  timeLabel ++ js " O(n)".
Proof. vm_compute. split; reflexivity. Qed.

Example parseAIResponse_on_missing_time :
  solution (Utils.parseAIResponse Examples.missingTime) =
  solutionOf Examples.missingTime.
Proof.
  apply parseAIResponse_follows_rule. vm_compute. discriminate.
Qed.

End TwoPatterns.

(* ================================================================= *)
(** * Part III: further properties of the code                        *)
(* ================================================================= *)

(** ** Selection: what it returns, and when it returns nothing *)

Section SelectionInDepth.

Import QuestionService.

Variable env : SelectEnv.
Variable questionsCol : Collection Question.t.
Variable retrievedQuestionsCol : Collection RetrievedQuestion.t.
Variable difficulty : jsstring.

Local Abbreviation pool := (questionsOfDifficulty questionsCol difficulty).
Local Abbreviation unsentPool :=
  (filter (fun question =>
             negb (arrayIncludes (sentIds retrievedQuestionsCol)
                                 (Question.id question))) pool).

(** The selection, whatever the store and the draw do. *)
Lemma select_shape :
  getRandomUnsentQuestionByDifficulty env questionsCol
                                      retrievedQuestionsCol difficulty =
  if questionsFault env then None
  else match pool with
       | [] => None
       | _ :: _ =>
           if retrievedFault env then None
           else match unsentPool with
                | [] => nth_error pool (randomIndex (random env)
                                                    (length pool))
                | _ :: _ =>
                    nth_error unsentPool
                              (randomIndex (random env)
                                           (length unsentPool))
                end
       end.
Proof.
  unfold getRandomUnsentQuestionByDifficulty, getDocs.
  destruct (questionsFault env); [reflexivity |].
  cbn [bind tryCatch]. fold pool.
  destruct pool as [| q0 qs] eqn:E; [reflexivity |].
  cbn [length Nat.eqb]. destruct (retrievedFault env); [reflexivity |].
  cbn [bind tryCatch].
  assert (Hall : filter (fun _ : Doc RetrievedQuestion.t => true)
                        retrievedQuestionsCol = retrievedQuestionsCol).
  { clear. induction retrievedQuestionsCol as [| d l IH]; simpl;
      [reflexivity | now rewrite IH]. }
  rewrite Hall. fold (sentIds retrievedQuestionsCol). cbv zeta.
  destruct (filter _ (q0 :: qs)) as [| a av]; reflexivity.
Qed.

(** Whatever the store and the draw do, a question that the selection
    returns is one of the questions of the requested difficulty, and it
    is a question already sent only if all of them are. *)
Theorem select_result_sound (q : Question.t) :
  getRandomUnsentQuestionByDifficulty env questionsCol
                                      retrievedQuestionsCol difficulty
  = Some q ->
  In q pool /\
  Question.difficulty q = difficulty /\
  (In (Question.id q) (sentIds retrievedQuestionsCol) ->
   forall q', In q' pool ->
              In (Question.id q') (sentIds retrievedQuestionsCol)).
Proof.
  rewrite select_shape.
  destruct (questionsFault env); [discriminate |].
  destruct pool as [| q0 qs] eqn:Epool; [discriminate |].
  destruct (retrievedFault env); [discriminate |].
  rewrite <- Epool. clear Epool q0 qs.
  destruct unsentPool as [| a av] eqn:Eav; intros Hq.
  - apply nth_error_In in Hq. split; [exact Hq |].
    split; [apply (questionsOfDifficulty_difficulty _ _ _ Hq) |].
    intros _ q' Hq'.
    destruct (arrayIncludes (sentIds retrievedQuestionsCol)
                            (Question.id q')) eqn:E.
    + apply arrayIncludes_In. exact E.
    + exfalso.
      assert (Hin : In q' unsentPool).
      { apply filter_In. split; [exact Hq' | rewrite E; reflexivity]. }
      rewrite Eav in Hin. inversion Hin.
  - apply nth_error_In in Hq. rewrite <- Eav in Hq.
    apply filter_In in Hq as [Hq Hneg].
    split; [exact Hq |].
    split; [apply (questionsOfDifficulty_difficulty _ _ _ Hq) |].
    intros Hsent. apply arrayIncludes_In in Hsent.
    rewrite Hsent in Hneg. discriminate.
Qed.

(** With a draw in the range of [Math.random], the selection returns
    null exactly when a store read throws or the difficulty has no
    question; a throw of the second read goes unnoticed when the first
    one found no question. *)
Theorem select_null_iff :
  randomRange (random env) ->
  getRandomUnsentQuestionByDifficulty env questionsCol
                                      retrievedQuestionsCol difficulty
  = None <->
  questionsFault env = true \/ pool = [] \/ retrievedFault env = true.
Proof.
  intros Hrnd. rewrite select_shape.
  destruct (questionsFault env); [tauto |].
  destruct pool as [| q0 qs] eqn:Epool; [tauto |].
  destruct (retrievedFault env); [tauto |].
  rewrite <- Epool.
  assert (Hpool : pool <> []) by (rewrite Epool; discriminate).
  split; [| intros [H | [H | H]]; congruence].
  intros Hnone. exfalso.
  destruct unsentPool as [| a av] eqn:Eav.
  - destruct (random_pick Hrnd Hpool) as (x & Hx & _). congruence.
  - assert (Hav : unsentPool <> []) by (rewrite Eav; discriminate).
    destruct (random_pick Hrnd Hav) as (x & Hx & _).
    rewrite Eav in Hx. congruence.
Qed.

End SelectionInDepth.

Lemma select_result_sound_witness :
  In Examples.addTwo
     (QuestionService.questionsOfDifficulty Examples.questions
                                             Examples.easy) /\
  Question.difficulty Examples.addTwo = Examples.easy /\
  (In (Question.id Examples.addTwo)
      (QuestionService.sentIds Examples.sentTwoSum) ->
   forall q',
     In q' (QuestionService.questionsOfDifficulty Examples.questions
                                                   Examples.easy) ->
     In (Question.id q') (QuestionService.sentIds Examples.sentTwoSum)).
Proof.
  apply (@select_result_sound Examples.quietSelect Examples.questions
                              Examples.sentTwoSum Examples.easy).
  reflexivity.
Defined.

Lemma select_null_iff_witness :
  QuestionService.getRandomUnsentQuestionByDifficulty
    Examples.quietSelect Examples.questions Examples.sentTwoSum
    (js "Hard") = None <->
  QuestionService.questionsFault Examples.quietSelect = true \/
  QuestionService.questionsOfDifficulty Examples.questions (js "Hard")
  = [] \/
  QuestionService.retrievedFault Examples.quietSelect = true.
Proof.
  apply select_null_iff.
  unfold QuestionService.randomRange. simpl. lia.
Defined.

(** ** Mark and unmark: what they write and what they return *)

Section ToggleInDepth.

Import QuestionService.

Implicit Types (col : Collection RetrievedQuestion.t) (qid : jsstring).

(** When the check exposes an id, it is the id of the first record
    listed for the question. *)
Lemma sentAndId_found fault col qid docId :
  sentAndId (isQuestionAlreadySent fault col qid) = Some docId ->
  fault = false /\ docId <> [] /\
  exists l1 d l2,
    col = l1 ++ d :: l2 /\ doc_id d = docId /\ pointsAt qid d = true /\
    recordsFor qid l1 = 0%nat.
Proof.
  destruct fault; [discriminate |].
  rewrite check_unfold.
  destruct (filter (pointsAt qid) col) as [| d rest] eqn:E;
    [discriminate |].
  unfold sentAndId. cbn [isSent retrievedDocId].
  destruct (truthy (doc_id d)) eqn:Et; [| discriminate].
  intros H. injection H as <-.
  split; [reflexivity |]. split; [apply truthy_nonempty; exact Et |].
  clear Et. revert d rest E.
  induction col as [| x l IH]; intros d rest E; [discriminate |].
  cbn [filter] in E. destruct (pointsAt qid x) eqn:Ex.
  - injection E as Hx _. subst d. exists [], x, l.
    repeat split; assumption.
  - destruct (IH d rest E) as (l1 & d' & l2 & -> & Hid & Hp & Hz).
    exists (x :: l1), d', l2. repeat split; try assumption.
    rewrite recordsFor_cons, Ex. exact Hz.
Qed.

Lemma sentAndId_none_fault col qid :
  sentAndId (isQuestionAlreadySent true col qid) = None.
Proof. reflexivity. Qed.

(** The id that a mark returns is the id of a stored record of the
    question, whatever the store does; and a mark returns null only when
    it has written nothing. *)
Theorem mark_returns_stored_id (env : MarkEnv) (q : Question.t) col :
  match fst (markQuestionAsSent env q col) with
  | Some docId =>
      exists d, In d (snd (markQuestionAsSent env q col)) /\
                doc_id d = docId /\
                RetrievedQuestion.questionId (doc_data d) = Question.id q
  | None => snd (markQuestionAsSent env q col) = col
  end.
Proof.
  destruct (sentAndId (isQuestionAlreadySent (checkFault env) col
                                             (Question.id q)))
    as [docId |] eqn:E.
  - rewrite (mark_existing _ _ _ E). cbn [fst snd].
    apply sentAndId_found in E
      as (_ & _ & l1 & d & l2 & -> & Hid & Hp & _).
    exists d. split; [apply in_elt |]. split; [exact Hid |].
    apply eqb_eq. exact Hp.
  - destruct (added env) as [[newId place] |] eqn:Ea.
    + rewrite (mark_new _ _ _ E Ea). cbn [fst snd].
      exists (mkDoc newId (recordToAdd env q)).
      split; [apply in_withDoc; left; reflexivity |].
      split; [reflexivity | apply recordToAdd_questionId].
    + unfold markQuestionAsSent. rewrite E. unfold addDoc. rewrite Ea.
      reflexivity.
Qed.

(** A mark whose existence check throws goes on to insert: the error
    is taken for "not sent", and a question that already has records
    gets one more. *)
Theorem mark_inserts_when_check_throws
        (env : MarkEnv) (q : Question.t) col
        (newId : jsstring) (place : nat) :
  checkFault env = true ->
  added env = Ok (newId, place) ->
  markQuestionAsSent env q col =
  (Some newId, withDoc place (mkDoc newId (recordToAdd env q)) col) /\
  recordsFor (Question.id q) (snd (markQuestionAsSent env q col)) =
  S (recordsFor (Question.id q) col).
Proof.
  intros Hc Ha.
  assert (E : markQuestionAsSent env q col =
              (Some newId,
               withDoc place (mkDoc newId (recordToAdd env q)) col)).
  { apply mark_new; [rewrite Hc; reflexivity | exact Ha]. }
  split; [exact E |].
  rewrite E. cbn [snd]. rewrite recordsFor_withDoc. unfold pointsAt.
  cbn [doc_data]. rewrite recordToAdd_questionId, eqb_refl. reflexivity.
Qed.

(** An unmark on a well-formed store: when it returns false the store
    is as before; when it returns true exactly one document is gone,
    and it is a record of that question.  The records of the other
    questions stay. *)
Theorem unsend_effect (env : UnsendEnv) qid col :
  wellFormed col ->
  (if fst (unsendQuestion env qid col)
   then length (snd (unsendQuestion env qid col)) + 1 = length col /\
        recordsFor qid (snd (unsendQuestion env qid col)) + 1 =
        recordsFor qid col
   else snd (unsendQuestion env qid col) = col)%nat /\
  forall other,
    other <> qid ->
    recordsFor other (snd (unsendQuestion env qid col)) =
    recordsFor other col.
Proof.
  intros Hwf. unfold unsendQuestion.
  destruct (sentAndId (isQuestionAlreadySent (lookupFault env) col qid))
    as [docId |] eqn:E; [| split; reflexivity].
  apply sentAndId_found in E as (_ & _ & l1 & d & l2 & Hcol & Hid & Hp & _).
  unfold deleteDoc. destruct (deleteFault env); [split; reflexivity |].
  assert (Hd : In d col) by (rewrite Hcol; apply in_elt).
  destruct (@delete_one _ col d (proj1 Hwf) Hd) as (m1 & m2 & Hcol' & Hrest).
  unfold deleteDoc in Hrest. cbn [snd] in Hrest. rewrite Hid in Hrest.
  cbn [fst snd bind tryCatch]. rewrite Hrest.
  split.
  - rewrite Hcol', !length_app, !recordsFor_app, recordsFor_cons, Hp.
    simpl. lia.
  - intros other Hother.
    rewrite Hcol', !recordsFor_app, recordsFor_cons.
    assert (Hno : pointsAt other d = false).
    { apply eqb_neq. intros Eo. apply Hother. rewrite <- Eo.
      apply eqb_eq. exact Hp. }
    rewrite Hno. reflexivity.
Qed.

End ToggleInDepth.

Lemma mark_inserts_when_check_throws_witness :
  QuestionService.markQuestionAsSent
    (QuestionService.mkMarkEnv true Examples.aiDown Examples.noon
                               (Ok (js "rec-9", 1%nat)))
    Examples.twoSum Examples.sentTwoSum =
  (Some (js "rec-9"),
   QuestionService.withDoc
     1 (mkDoc (js "rec-9")
              (QuestionService.recordToAdd
                 (QuestionService.mkMarkEnv true Examples.aiDown
                                            Examples.noon
                                            (Ok (js "rec-9", 1%nat)))
                 Examples.twoSum))
     Examples.sentTwoSum) /\
  QuestionService.recordsFor
    (Question.id Examples.twoSum)
    (snd (QuestionService.markQuestionAsSent
            (QuestionService.mkMarkEnv true Examples.aiDown Examples.noon
                                       (Ok (js "rec-9", 1%nat)))
            Examples.twoSum Examples.sentTwoSum)) =
  S (QuestionService.recordsFor (Question.id Examples.twoSum)
                                Examples.sentTwoSum).
Proof.
  apply mark_inserts_when_check_throws; reflexivity.
Defined.

Lemma unsend_effect_witness :
  (if fst (QuestionService.unsendQuestion
             Examples.quietUnsend (Question.id Examples.twoSum)
             Examples.sentBoth)
   then length (snd (QuestionService.unsendQuestion
                       Examples.quietUnsend (Question.id Examples.twoSum)
                       Examples.sentBoth)) + 1 =
        length Examples.sentBoth /\
        QuestionService.recordsFor
          (Question.id Examples.twoSum)
          (snd (QuestionService.unsendQuestion
                  Examples.quietUnsend (Question.id Examples.twoSum)
                  Examples.sentBoth)) + 1 =
        QuestionService.recordsFor (Question.id Examples.twoSum)
                                   Examples.sentBoth
   else snd (QuestionService.unsendQuestion
               Examples.quietUnsend (Question.id Examples.twoSum)
               Examples.sentBoth) = Examples.sentBoth)%nat /\
  forall other,
    other <> Question.id Examples.twoSum ->
    QuestionService.recordsFor
      other
      (snd (QuestionService.unsendQuestion
              Examples.quietUnsend (Question.id Examples.twoSum)
              Examples.sentBoth)) =
    QuestionService.recordsFor other Examples.sentBoth.
Proof.
  apply unsend_effect. split.
  - simpl. constructor.
    + intros [H | []]. discriminate H.
    + constructor; [intros [] | constructor].
  - repeat constructor; discriminate.
Defined.

(** ** The backfill of summaries *)

Section BackfillInDepth.

Import Backfill BackfillView BackfillCount.

Implicit Types (col : Collection RetrievedQuestion.t).

Variable env : BackfillEnv.

(** One turn of the loop, seen through [pending] and [written]. *)
Lemma visit_view (n : Counters) col (doc : Doc RetrievedQuestion.t) :
  visit env (n, col) doc =
  if pending env doc then
    match written env doc with
    | Some aiSummary =>
        (mkCounters (S (updated n)) (errors n),
         updateDoc (doc_id doc)
                   (RetrievedQuestion.set_aiSummary aiSummary) col)
    | None => (mkCounters (updated n) (S (errors n)), col)
    end
  else (n, col).
Proof.
  unfold visit, pending, written.
  destruct (_ || _); [reflexivity |]. cbn [negb andb].
  destruct (RetrievedQuestion.aiSummary (doc_data doc)); [reflexivity |].
  destruct (generateAISummary (fetch env doc)); [| reflexivity].
  destruct (updateFault env doc); reflexivity.
Qed.

Lemma sameButSummary_refl (a : Doc RetrievedQuestion.t) :
  sameButSummary a a.
Proof. repeat split. Qed.

Lemma sameButSummary_trans (a b c : Doc RetrievedQuestion.t) :
  sameButSummary a b -> sameButSummary b c -> sameButSummary a c.
Proof.
  unfold sameButSummary. intros H1 H2.
  repeat match goal with
         | H : _ /\ _ |- _ => destruct H
         end.
  repeat split; congruence.
Qed.

Lemma Forall2_sameButSummary_refl col : Forall2 sameButSummary col col.
Proof.
  induction col; constructor; [apply sameButSummary_refl | assumption].
Qed.

Lemma Forall2_sameButSummary_trans col1 col2 col3 :
  Forall2 sameButSummary col1 col2 -> Forall2 sameButSummary col2 col3 ->
  Forall2 sameButSummary col1 col3.
Proof.
  intros H. revert col3. induction H; intros col3 H3; inversion H3; subst;
    constructor; [eapply sameButSummary_trans; eassumption | auto].
Qed.

Lemma updateDoc_sameButSummary id s col :
  Forall2 sameButSummary col
          (updateDoc id (RetrievedQuestion.set_aiSummary s) col).
Proof.
  induction col as [| d l IH]; simpl; constructor; [| exact IH].
  destruct (eqb (doc_id d) id); repeat split.
Qed.

Lemma visit_sameButSummary (acc : Counters * Collection RetrievedQuestion.t)
      (doc : Doc RetrievedQuestion.t) :
  Forall2 sameButSummary (snd acc) (snd (visit env acc doc)).
Proof.
  destruct acc as [n col]. rewrite visit_view. cbn [snd].
  destruct (pending env doc); [| apply Forall2_sameButSummary_refl].
  destruct (written env doc) as [s |];
    [apply updateDoc_sameButSummary | apply Forall2_sameButSummary_refl].
Qed.

Lemma loop_sameButSummary (l : list (Doc RetrievedQuestion.t))
      (acc : Counters * Collection RetrievedQuestion.t) :
  Forall2 sameButSummary (snd acc) (snd (fold_left (visit env) l acc)).
Proof.
  revert acc. induction l as [| d l IH]; intros acc;
    [apply Forall2_sameButSummary_refl |].
  simpl. eapply Forall2_sameButSummary_trans;
    [apply visit_sameButSummary | apply IH].
Qed.

Lemma filter_true {A} (l : list A) : filter (fun _ => true) l = l.
Proof. induction l as [| a l IH]; simpl; [reflexivity | now rewrite IH]. Qed.

(** A backfill, when it runs, is the loop over the collection. *)
Lemma backfill_runs col :
  runs env ->
  backfillWeekSummaries env col =
  (Ok (fst (fold_left (visit env) col (mkCounters 0 0, col))),
   snd (fold_left (visit env) col (mkCounters 0 0, col))).
Proof.
  intros ((key & Hk & Hne) & Hl). unfold backfillWeekSummaries, getDocs.
  rewrite Hk, Hl.
  destruct key; [congruence |]. cbn [truthy negb].
  rewrite filter_true.
  destruct (fold_left (visit env) col (mkCounters 0 0, col)); reflexivity.
Qed.

(** Otherwise it throws and leaves the collection alone. *)
Lemma backfill_stops col :
  ~ runs env -> backfillWeekSummaries env col = (Throw, col).
Proof.
  intros Hno. unfold backfillWeekSummaries, getDocs.
  destruct (apiKey env) as [key |] eqn:Hk; [| reflexivity].
  destruct key as [| c key]; [reflexivity |]. cbn [truthy negb].
  destruct (listFault env) eqn:Hl; [reflexivity |].
  exfalso. apply Hno. split; [| exact Hl].
  exists (c :: key). split; [exact Hk | discriminate].
Qed.

Lemma runs_dec : runs env \/ ~ runs env.
Proof.
  unfold runs. destruct (apiKey env) as [[| c key] |].
  - right. intros ((k & Hk & Hne) & _). congruence.
  - destruct (listFault env).
    + right. intros (_ & H). discriminate.
    + left. split; [| reflexivity]. exists (c :: key).
      split; [reflexivity | discriminate].
  - right. intros ((k & Hk & _) & _). discriminate.
Qed.

(** A backfill never adds, removes, reorders or re-identifies a
    document, and never changes a field other than the summary,
    whatever the requests and the store do. *)
Theorem backfill_keeps_documents col :
  Forall2 sameButSummary col (snd (backfillWeekSummaries env col)).
Proof.
  destruct runs_dec as [Hr | Hr].
  - rewrite (backfill_runs col Hr). cbn [snd].
    apply (loop_sameButSummary col (mkCounters 0 0, col)).
  - rewrite (backfill_stops col Hr). apply Forall2_sameButSummary_refl.
Qed.

(** The counters of the loop count documents, whatever the collection
    becomes. *)
Lemma loop_counts (l : list (Doc RetrievedQuestion.t))
      (n : Counters) col :
  fst (fold_left (visit env) l (n, col)) =
  mkCounters (updated n + length (filter (succeeds env) l))
             (errors n + length (filter (fails env) l)).
Proof.
  revert n col. induction l as [| d l IH]; intros n col.
  - simpl. rewrite !Nat.add_0_r. destruct n; reflexivity.
  - cbn [fold_left filter]. rewrite visit_view.
    unfold succeeds at 1, fails at 1.
    destruct (pending env d); cbn [andb].
    + destruct (written env d) as [s |]; rewrite IH; cbn [updated errors length];
        f_equal; lia.
    + apply IH.
Qed.

(** When a backfill returns, [updated] is the number of pending
    documents whose request and update both succeeded and [errors] the
    number of those for which one of them failed; when it throws, the
    collection is as before. *)
Theorem backfill_counts col :
  match fst (backfillWeekSummaries env col) with
  | Ok n =>
      updated n = length (filter (succeeds env) col) /\
      errors n = length (filter (fails env) col)
  | Throw => snd (backfillWeekSummaries env col) = col
  end.
Proof.
  destruct runs_dec as [Hr | Hr].
  - rewrite (backfill_runs col Hr). cbn [fst].
    rewrite loop_counts. cbn [updated errors]. split; reflexivity.
  - rewrite (backfill_stops col Hr). reflexivity.
Qed.

Lemma updateDoc_other id (f : RetrievedQuestion.t -> RetrievedQuestion.t)
      col :
  ~ In id (List.map (@doc_id _) col) -> updateDoc id f col = col.
Proof.
  induction col as [| d l IH]; intros Hno; [reflexivity |].
  simpl. destruct (eqb (doc_id d) id) eqn:E.
  - exfalso. apply Hno. left. apply eqb_eq. exact E.
  - f_equal. apply IH. intros H. apply Hno. right. exact H.
Qed.

Lemma map_refreshed_ids (l : list (Doc RetrievedQuestion.t)) :
  List.map (@doc_id _) (List.map (refreshed env) l) =
  List.map (@doc_id _) l.
Proof.
  induction l as [| d l IH]; [reflexivity |]. simpl. rewrite IH. f_equal.
  unfold refreshed. destruct (pending env d); [| reflexivity].
  destruct (written env d); reflexivity.
Qed.

(** With unique ids, the loop refreshes the documents one by one. *)
Lemma loop_refreshes (todo done : list (Doc RetrievedQuestion.t))
      (n : Counters) :
  NoDup (List.map (@doc_id _) (done ++ todo)) ->
  snd (fold_left (visit env) todo
                 (n, List.map (refreshed env) done ++ todo)) =
  List.map (refreshed env) (done ++ todo).
Proof.
  revert done n. induction todo as [| d todo IH]; intros done n Hnd.
  - simpl. rewrite !app_nil_r. reflexivity.
  - cbn [fold_left]. rewrite visit_view.
    assert (Hsplit : done ++ d :: todo = (done ++ [d]) ++ todo)
      by (rewrite <- app_assoc; reflexivity).
    assert (Hnew : forall n' c,
               c = List.map (refreshed env) (done ++ [d]) ++ todo ->
               snd (fold_left (visit env) todo (n', c)) =
               List.map (refreshed env) (done ++ d :: todo)).
    { intros n' c ->. rewrite Hsplit. apply IH. rewrite <- Hsplit.
      exact Hnd. }
    rewrite map_app in Hnd. apply NoDup_remove_2 in Hnd.
    rewrite in_app_iff in Hnd.
    assert (Hshape : List.map (refreshed env) (done ++ [d]) ++ todo =
                     List.map (refreshed env) done
                     ++ refreshed env d :: todo).
    { rewrite map_app, <- app_assoc. reflexivity. }
    destruct (pending env d) eqn:Ep.
    + destruct (written env d) as [s |] eqn:Ew.
      * apply Hnew. rewrite Hshape.
        unfold updateDoc. rewrite map_app. cbn [List.map].
        rewrite eqb_refl.
        fold (updateDoc (doc_id d) (RetrievedQuestion.set_aiSummary s)
                        (List.map (refreshed env) done)).
        fold (updateDoc (doc_id d) (RetrievedQuestion.set_aiSummary s) todo).
        rewrite !updateDoc_other.
        -- replace (refreshed env d)
             with (mkDoc (doc_id d)
                         (RetrievedQuestion.set_aiSummary s (doc_data d)))
             by (unfold refreshed; rewrite Ep, Ew; reflexivity).
           reflexivity.
        -- intros H. apply Hnd. right. exact H.
        -- rewrite map_refreshed_ids. intros H. apply Hnd. left. exact H.
      * apply Hnew. rewrite Hshape.
        replace (refreshed env d) with d
          by (unfold refreshed; rewrite Ep, Ew; reflexivity).
        reflexivity.
    + apply Hnew. rewrite Hshape.
      replace (refreshed env d) with d
        by (unfold refreshed; rewrite Ep; reflexivity).
      reflexivity.
Qed.

(** The collection after a backfill that runs on unique ids. *)
Lemma backfill_result col :
  NoDup (List.map (@doc_id _) col) -> runs env ->
  snd (backfillWeekSummaries env col) = List.map (refreshed env) col.
Proof.
  intros Hnd Hr. rewrite (backfill_runs col Hr). cbn [snd].
  apply (loop_refreshes col [] (mkCounters 0 0)). exact Hnd.
Qed.

(** A backfill never replaces a summary: a document that has one is
    found unchanged afterwards. *)
Theorem backfill_keeps_summaries col (d : Doc RetrievedQuestion.t) :
  NoDup (List.map (@doc_id _) col) ->
  In d col ->
  RetrievedQuestion.aiSummary (doc_data d) <> None ->
  In d (snd (backfillWeekSummaries env col)).
Proof.
  intros Hnd Hd Hs. destruct runs_dec as [Hr | Hr].
  - rewrite (backfill_result col Hnd Hr). apply in_map_iff. exists d.
    split; [| exact Hd]. unfold refreshed, pending.
    destruct (RetrievedQuestion.aiSummary (doc_data d)); [| congruence].
    rewrite andb_false_r. reflexivity.
  - rewrite (backfill_stops col Hr). exact Hd.
Qed.

Lemma refreshed_not_pending (d : Doc RetrievedQuestion.t) :
  fails env d = false -> pending env (refreshed env d) = false.
Proof.
  unfold fails, refreshed. destruct (pending env d) eqn:Ep; [| intros _; exact Ep].
  cbn [andb]. destruct (written env d) as [s |]; [intros _ | discriminate].
  unfold pending. cbn [doc_data RetrievedQuestion.set_aiSummary
                       RetrievedQuestion.aiSummary].
  apply andb_false_r.
Qed.

Lemma loop_idle (l : list (Doc RetrievedQuestion.t))
      (acc : Counters * Collection RetrievedQuestion.t) :
  (forall d, In d l -> pending env d = false) ->
  fold_left (visit env) l acc = acc.
Proof.
  revert acc. induction l as [| d l IH]; intros acc H; [reflexivity |].
  cbn [fold_left]. destruct acc as [n c]. rewrite visit_view.
  rewrite (H d) by (left; reflexivity).
  apply IH. intros d' Hd'. apply H. right. exact Hd'.
Qed.

End BackfillInDepth.

(** ** A second backfill in the same week *)

Section BackfillAgain.

Import JsDate Backfill BackfillView BackfillCount.

Implicit Types (col : Collection RetrievedQuestion.t).

Variables env env' : BackfillEnv.

Lemma refreshed_sentDate (d : Doc RetrievedQuestion.t) :
  RetrievedQuestion.sentDate (doc_data (refreshed env d)) =
  RetrievedQuestion.sentDate (doc_data d).
Proof.
  unfold refreshed. destruct (pending env d); [| reflexivity].
  destruct (written env d); reflexivity.
Qed.

(** What is pending for the second backfill was pending for the
    first. *)
Lemma pending_sameWeek col (d : Doc RetrievedQuestion.t) :
  sameWeek env env' col -> In d col ->
  pending env' (refreshed env d) = pending env (refreshed env d).
Proof.
  intros (Hrange & Hparse) Hd. unfold pending.
  rewrite Hrange, !refreshed_sentDate, (Hparse d Hd). reflexivity.
Qed.

(** A backfill that finished without an error left nothing to do: a
    later backfill in the same week, whatever its key, its requests and
    the faults it meets, changes nothing, and when it runs it returns
    [{updated: 0, errors: 0}]. *)
Theorem backfill_twice col (n : Counters) :
  NoDup (List.map (@doc_id _) col) ->
  fst (backfillWeekSummaries env col) = Ok n ->
  errors n = 0%nat ->
  sameWeek env env' col ->
  snd (backfillWeekSummaries env' (snd (backfillWeekSummaries env col))) =
  snd (backfillWeekSummaries env col) /\
  (runs env' ->
   fst (backfillWeekSummaries env' (snd (backfillWeekSummaries env col))) =
   Ok (mkCounters 0 0)).
Proof.
  intros Hnd Hok Herr Hweek. destruct (runs_dec env) as [Hr | Hr];
    [| rewrite (backfill_stops col Hr) in Hok; discriminate].
  assert (Hfail : length (filter (fails env) col) = 0%nat).
  { rewrite (backfill_runs col Hr) in Hok. cbn [fst] in Hok.
    rewrite loop_counts in Hok. injection Hok as <-.
    cbn [errors] in Herr. exact Herr. }
  rewrite (@backfill_result env col Hnd Hr).
  assert (Hidle : forall d', In d' (List.map (refreshed env) col) ->
                             pending env' d' = false).
  { intros d' Hd'. apply in_map_iff in Hd' as (d & <- & Hd).
    rewrite (@pending_sameWeek col d Hweek Hd).
    apply refreshed_not_pending.
    destruct (fails env d) eqn:Ef; [| reflexivity].
    exfalso. assert (Hin : In d (filter (fails env) col))
      by (apply filter_In; split; assumption).
    destruct (filter (fails env) col); [inversion Hin | discriminate Hfail]. }
  destruct (runs_dec env') as [Hr' | Hr'].
  - rewrite (@backfill_runs env' _ Hr'), (@loop_idle env' _ _ Hidle).
    split; [reflexivity | intros _; reflexivity].
  - rewrite (@backfill_stops env' _ Hr').
    split; [reflexivity | intros H; contradiction].
Qed.

End BackfillAgain.

(** ** One record for each question *)

Section OneRecord.

Import QuestionService BackfillView Checked.

Implicit Types (col : Collection RetrievedQuestion.t).

Lemma sameButSummary_ids col col' :
  Forall2 sameButSummary col col' ->
  List.map (@doc_id _) col' = List.map (@doc_id _) col.
Proof.
  induction 1 as [| a b l l' Hab _ IH]; [reflexivity |].
  simpl. rewrite IH. f_equal. symmetry. apply Hab.
Qed.

Lemma sameButSummary_records col col' qid :
  Forall2 sameButSummary col col' ->
  recordsFor qid col' = recordsFor qid col.
Proof.
  induction 1 as [| a b l l' Hab _ IH]; [reflexivity |].
  rewrite !recordsFor_cons, IH. unfold pointsAt.
  destruct Hab as (_ & -> & _). reflexivity.
Qed.

Lemma wellFormed_ids col col' :
  List.map (@doc_id _) col' = List.map (@doc_id _) col ->
  wellFormed col -> wellFormed col'.
Proof.
  intros Hids [Hnd Hne]. split; [rewrite Hids; exact Hnd |].
  apply Forall_forall. intros d Hd.
  assert (Hin : In (doc_id d) (List.map (@doc_id _) col)).
  { rewrite <- Hids. apply in_map. exact Hd. }
  apply in_map_iff in Hin as (d' & <- & Hd').
  rewrite Forall_forall in Hne. apply Hne. exact Hd'.
Qed.

Lemma wellFormed_withDoc place (d : Doc RetrievedQuestion.t) col :
  doc_id d <> [] -> ~ In (doc_id d) (List.map (@doc_id _) col) ->
  wellFormed col -> wellFormed (withDoc place d col).
Proof.
  intros Hne Hnew [Hnd Hids]. split.
  - unfold withDoc. rewrite map_app. cbn [List.map].
    apply (NoDup_Add (a := doc_id d)
                     (l := List.map (@doc_id _) (firstn place col)
                           ++ List.map (@doc_id _) (skipn place col))).
    + apply Add_app.
    + rewrite <- map_app, firstn_skipn. split; assumption.
  - apply Forall_forall. intros x Hx.
    apply in_withDoc in Hx as [-> | Hx]; [exact Hne |].
    rewrite Forall_forall in Hids. apply Hids. exact Hx.
Qed.

Lemma wellFormed_filter (g : Doc RetrievedQuestion.t -> bool) col :
  wellFormed col -> wellFormed (filter g col).
Proof.
  intros [Hnd Hids]. split.
  - clear Hids. induction col as [| d l IH]; [constructor |].
    simpl in Hnd. inversion Hnd as [| x xs Hx Hl]; subst.
    simpl. destruct (g d); [| apply IH; exact Hl].
    simpl. constructor; [| apply IH; exact Hl].
    intros Hin. apply Hx. apply in_map_iff in Hin as (d' & E & Hd').
    apply filter_In in Hd' as [Hd' _]. rewrite <- E. apply in_map. exact Hd'.
  - apply Forall_forall. intros x Hx. apply filter_In in Hx as [Hx _].
    rewrite Forall_forall in Hids. apply Hids. exact Hx.
Qed.

Lemma recordsFor_filter (g : Doc RetrievedQuestion.t -> bool) col qid :
  (recordsFor qid (filter g col) <= recordsFor qid col)%nat.
Proof.
  induction col as [| d l IH]; [reflexivity |].
  simpl. destruct (g d); rewrite !recordsFor_cons; lia.
Qed.

(** In the sequential system, with existence checks that are answered
    and documents created under unused ids, every state reached from
    the empty collection is well formed and holds at most one sent
    record for each question. *)
Theorem one_record_per_question col :
  reachable col -> wellFormed col /\ uniqueRecords col.
Proof.
  induction 1 as [| col col' _ [Hwf Huniq] Hstep].
  - split; [split; [apply NoDup_nil | apply Forall_nil] |].
    intros qid. unfold recordsFor. simpl. lia.
  - destruct Hstep as [env q col Hcheck Hfresh | env qid col | env col].
    + destruct (sentAndId (isQuestionAlreadySent (checkFault env) col
                                                 (Question.id q)))
        as [docId |] eqn:E.
      { rewrite (mark_existing _ _ _ E). split; assumption. }
      destruct (added env) as [[newId place] |] eqn:Ea.
      * rewrite (mark_new _ _ _ E Ea). cbn [snd].
        destruct (Hfresh newId place Ea) as [Hne Hnew].
        assert (Hzero : recordsFor (Question.id q) col = 0%nat).
        { destruct (recordsFor (Question.id q) col) eqn:Er; [reflexivity |].
          destruct (@check_present col (Question.id q) Hwf)
            as (d & _ & _ & _ & _ & Hfound); [lia |].
          rewrite Hcheck in E. congruence. }
        split; [apply wellFormed_withDoc; assumption |].
        intros qid. rewrite recordsFor_withDoc. unfold pointsAt.
        cbn [doc_data]. rewrite recordToAdd_questionId.
        destruct (eqb (Question.id q) qid) eqn:Eq.
        -- apply eqb_eq in Eq. subst qid. rewrite Hzero. lia.
        -- apply Huniq.
      * unfold markQuestionAsSent. rewrite E. unfold addDoc. rewrite Ea.
        split; assumption.
    + unfold unsendQuestion.
      destruct (sentAndId _) as [docId |]; [| split; assumption].
      unfold deleteDoc. destruct (deleteFault env); [split; assumption |].
      cbn [snd]. split; [apply wellFormed_filter; exact Hwf |].
      intros qid'. etransitivity; [apply recordsFor_filter | apply Huniq].
    + assert (Hsame : Forall2 sameButSummary col
                              (snd (Backfill.backfillWeekSummaries env col))).
      { destruct (runs_dec env) as [Hr | Hr].
        - rewrite (backfill_runs col Hr). cbn [snd].
          apply (loop_sameButSummary env col (Backfill.mkCounters 0 0, col)).
        - rewrite (backfill_stops col Hr). apply Forall2_sameButSummary_refl. }
      split.
      * eapply wellFormed_ids; [apply sameButSummary_ids; exact Hsame | exact Hwf].
      * intros qid. rewrite (sameButSummary_records qid Hsame). apply Huniq.
Qed.

End OneRecord.

(** ** The handlers of the question card *)

Section CardHandlers.

Import QuestionService App.

Implicit Types (col : Collection RetrievedQuestion.t) (st : State).

(** With a store that answers, a retrieval in a difficulty that has
    questions shows one of them, marked as sent, with a record in the
    store to back the mark. *)
Theorem retrieve_shows_marked_question
        (env : RetrieveEnv) st
        (questionsCol : Collection Question.t) col :
  selectSucceeds (selecting env) ->
  markSucceeds (marking env) ->
  questionsOfDifficulty questionsCol (selectedDifficulty st) <> [] ->
  exists q,
    fst (handleGetRandomQuestion env st questionsCol col) =
    mkState (selectedDifficulty st) (Some q) false None true /\
    In q (questionsOfDifficulty questionsCol (selectedDifficulty st)) /\
    (0 < recordsFor (Question.id q)
                    (snd (handleGetRandomQuestion env st questionsCol col)))%nat.
Proof.
  intros (Hqf & Hrf & Hrnd) (Hc & newId & place & Ha & Hne) Hpool.
  unfold handleGetRandomQuestion. rewrite select_shape, Hqf, Hrf.
  set (pool := questionsOfDifficulty questionsCol (selectedDifficulty st))
    in *.
  set (unsentPool := filter _ pool).
  assert (Hpick : exists q,
             match pool with
             | [] => None
             | _ :: _ =>
                 match unsentPool with
                 | [] => nth_error pool
                                   (randomIndex (random (selecting env))
                                                (length pool))
                 | _ :: _ =>
                     nth_error unsentPool
                               (randomIndex (random (selecting env))
                                            (length unsentPool))
                 end
             end = Some q /\ In q pool).
  { destruct pool as [| q0 qs] eqn:Ep; [congruence |].
    destruct unsentPool as [| a av] eqn:Eu.
    - apply random_pick; [exact Hrnd | discriminate].
    - destruct (@random_pick _ (random (selecting env)) (a :: av) Hrnd)
        as (q & Hq & Hin); [discriminate |].
      exists q. split; [exact Hq |].
      rewrite <- Eu in Hin. apply filter_In in Hin as [Hin _]. exact Hin. }
  destruct Hpick as (q & -> & Hin). exists q.
  destruct (sentAndId (isQuestionAlreadySent (checkFault (marking env)) col
                                             (Question.id q)))
    as [docId |] eqn:E.
  - rewrite (mark_existing _ _ _ E).
    apply sentAndId_found in E
      as (_ & Hd & l1 & d & l2 & -> & _ & Hp & _).
    assert (Ht : truthy docId = true) by (apply truthy_nonempty; exact Hd).
    rewrite Ht. cbn [fst snd]. split; [reflexivity |].
    split; [exact Hin |].
    rewrite recordsFor_app, recordsFor_cons, Hp. lia.
  - rewrite (mark_new _ _ _ E Ha).
    assert (Ht : truthy newId = true) by (apply truthy_nonempty; exact Hne).
    rewrite Ht. cbn [fst snd]. split; [reflexivity |].
    split; [exact Hin |].
    rewrite recordsFor_withDoc. unfold pointsAt. cbn [doc_data].
    rewrite recordToAdd_questionId, eqb_refl. lia.
Qed.

(** A retrieval that finds nothing (a store read throws, or the
    difficulty has no question) shows the message, writes nothing, and
    leaves the sent flag as it was. *)
Theorem retrieve_nothing
        (env : RetrieveEnv) st
        (questionsCol : Collection Question.t) col :
  questionsFault (selecting env) = true \/
  questionsOfDifficulty questionsCol (selectedDifficulty st) = [] \/
  retrievedFault (selecting env) = true ->
  handleGetRandomQuestion env st questionsCol col =
  (mkState (selectedDifficulty st) None false
           (Some (js "No more unsent " ++ selectedDifficulty st
                  ++ js " questions available!"))
           (questionSent st),
   col).
Proof.
  intros H. unfold handleGetRandomQuestion. rewrite select_shape.
  destruct (questionsFault (selecting env)); [reflexivity |].
  destruct (questionsOfDifficulty questionsCol (selectedDifficulty st));
    [reflexivity |].
  destruct (retrievedFault (selecting env)); [reflexivity |].
  destruct H as [H | [H | H]]; discriminate.
Qed.

(** On a card whose flag agrees with a well-formed store, a toggle
    with a store that answers flips the flag, and the flag agrees with
    the store again: the record is gone after an unmark and there is
    one after a mark. *)
Theorem toggle_flips (env : ToggleEnv) st col (q : Question.t) :
  randomQuestion st = Some q ->
  wellFormed col ->
  consistent st col ->
  unsendSucceeds (unsending env) ->
  markSucceeds (remarking env) ->
  questionSent (fst (handleToggleSentStatus env st col)) =
  negb (questionSent st) /\
  randomQuestion (fst (handleToggleSentStatus env st col)) = Some q /\
  consistent (fst (handleToggleSentStatus env st col))
             (snd (handleToggleSentStatus env st col)).
Proof.
  intros Hq Hwf Hcons (Hl & Hdel) (Hc & newId & place & Ha & Hne).
  unfold consistent in Hcons. rewrite Hq in Hcons.
  unfold handleToggleSentStatus. rewrite Hq.
  destruct (questionSent st) eqn:Es.
  - destruct (@check_present col (Question.id q) Hwf)
      as (d & Hd & Hp & _ & _ & Hfound); [lia |].
    destruct (@delete_one _ col d (proj1 Hwf) Hd)
      as (l1 & l2 & Hcol & Hrest).
    assert (Hun : unsendQuestion (unsending env) (Question.id q) col
                  = (true, l1 ++ l2)).
    { unfold unsendQuestion. rewrite Hl, Hfound.
      rewrite <- Hrest. unfold deleteDoc. rewrite Hdel. reflexivity. }
    rewrite Hun. cbn [fst snd questionSent randomQuestion].
    split; [reflexivity |]. split; [first [reflexivity | exact Hq] |].
    unfold consistent. cbn [randomQuestion questionSent]. rewrite ?Hq.
    rewrite Hcol, !recordsFor_app, recordsFor_cons, Hp in Hcons.
    rewrite recordsFor_app. lia.
  - rewrite (@mark_new (remarking env) q col newId place);
      [| rewrite check_absent by exact Hcons; reflexivity | exact Ha].
    assert (Ht : truthy newId = true) by (apply truthy_nonempty; exact Hne).
    rewrite Ht. cbn [fst snd questionSent randomQuestion].
    split; [reflexivity |]. split; [first [reflexivity | exact Hq] |].
    unfold consistent. cbn [randomQuestion questionSent]. rewrite ?Hq.
    rewrite recordsFor_withDoc. unfold pointsAt. cbn [doc_data].
    rewrite recordToAdd_questionId, eqb_refl, Hcons. reflexivity.
Qed.

Lemma countDifficulty_step (e m h : nat) (d : Doc RetrievedQuestion.t) :
  countDifficulty (e, m, h) d =
  (e + (if eqb (RetrievedQuestion.difficulty (doc_data d)) (js "Easy")
        then 1 else 0),
   m + (if eqb (RetrievedQuestion.difficulty (doc_data d)) (js "Medium")
        then 1 else 0),
   h + (if eqb (RetrievedQuestion.difficulty (doc_data d)) (js "Hard")
        then 1 else 0))%nat.
Proof.
  unfold countDifficulty.
  remember (RetrievedQuestion.difficulty (doc_data d)) as diff eqn:Ed.
  clear Ed.
  destruct (eqb diff (js "Easy")) eqn:Ee.
  { apply eqb_eq in Ee. subst diff. simpl.
    rewrite ?Nat.add_0_r, ?Nat.add_1_r. reflexivity. }
  destruct (eqb diff (js "Medium")) eqn:Em.
  { apply eqb_eq in Em. subst diff. simpl.
    rewrite ?Nat.add_0_r, ?Nat.add_1_r. reflexivity. }
  destruct (eqb diff (js "Hard"));
    rewrite ?Nat.add_0_r, ?Nat.add_1_r; reflexivity.
Qed.

Lemma countDifficulty_loop (snapshot : Collection RetrievedQuestion.t)
      (e m h : nat) :
  fold_left countDifficulty snapshot (e, m, h) =
  (e + length (filter (fun d => eqb (RetrievedQuestion.difficulty
                                       (doc_data d)) (js "Easy"))
                      snapshot),
   m + length (filter (fun d => eqb (RetrievedQuestion.difficulty
                                       (doc_data d)) (js "Medium"))
                      snapshot),
   h + length (filter (fun d => eqb (RetrievedQuestion.difficulty
                                       (doc_data d)) (js "Hard"))
                      snapshot))%nat.
Proof.
  revert e m h. induction snapshot as [| d l IH]; intros e m h.
  - simpl. rewrite !Nat.add_0_r. reflexivity.
  - cbn [fold_left filter]. rewrite countDifficulty_step, IH.
    destruct (eqb _ (js "Easy")); destruct (eqb _ (js "Medium"));
      destruct (eqb _ (js "Hard")); cbn [length];
      rewrite ?Nat.add_0_r, <- ?Nat.add_assoc; reflexivity.
Qed.

(** The listener counts every record in [sent], and each record of a
    known difficulty in exactly one of the three counters, so that
    their sum is the number of records of known difficulty and never
    exceeds [sent]; the counters of the questions are left alone. *)
Theorem sent_counters (snapshot : Collection RetrievedQuestion.t)
        (prevStats : Stats) :
  let stats := onRetrievedSnapshot snapshot prevStats in
  sent stats = length snapshot /\
  (sentEasy stats + sentMedium stats + sentHard stats =
   length (filter knownDifficulty snapshot))%nat /\
  (sentEasy stats + sentMedium stats + sentHard stats <= sent stats)%nat /\
  (total stats, easy stats, medium stats, hard stats) =
  (total prevStats, easy prevStats, medium prevStats, hard prevStats).
Proof.
  cbv zeta. unfold onRetrievedSnapshot. rewrite countDifficulty_loop.
  cbn [sent sentEasy sentMedium sentHard total easy medium hard Nat.add].
  assert (Hsum :
            (length (filter (fun d => eqb (RetrievedQuestion.difficulty
                                             (doc_data d)) (js "Easy"))
                            snapshot)
             + length (filter (fun d => eqb (RetrievedQuestion.difficulty
                                               (doc_data d)) (js "Medium"))
                              snapshot)
             + length (filter (fun d => eqb (RetrievedQuestion.difficulty
                                               (doc_data d)) (js "Hard"))
                              snapshot)
             = length (filter knownDifficulty snapshot))%nat).
  { induction snapshot as [| d l IH]; [reflexivity |].
    cbn [filter]. unfold knownDifficulty at 1.
    remember (RetrievedQuestion.difficulty (doc_data d)) as diff eqn:Ed.
    clear Ed.
    destruct (eqb diff (js "Easy")) eqn:Ee.
    { apply eqb_eq in Ee. subst diff. simpl. rewrite <- IH. lia. }
    destruct (eqb diff (js "Medium")) eqn:Em.
    { apply eqb_eq in Em. subst diff. simpl. rewrite <- IH. lia. }
    destruct (eqb diff (js "Hard")); simpl; rewrite <- IH; lia. }
  split; [reflexivity |]. split; [exact Hsum |].
  split; [| reflexivity].
  rewrite Hsum. apply filter_length_le.
Qed.

End CardHandlers.

Lemma backfill_keeps_summaries_witness :
  In (mkDoc (js "rec-1")
            (RetrievedQuestion.set_aiSummary
               Samples.someSummary
               (createRetrievedQuestion Examples.noon Examples.twoSum)))
     (snd (Backfill.backfillWeekSummaries Samples.backfillEnv
                                          Samples.sentHalfSummarized)).
Proof.
  apply backfill_keeps_summaries.
  - simpl. constructor.
    + intros [H | []]. discriminate H.
    + constructor; [intros [] | constructor].
  - left. reflexivity.
  - discriminate.
Defined.

Lemma backfill_twice_witness :
  snd (Backfill.backfillWeekSummaries
         Samples.laterBackfillEnv
         (snd (Backfill.backfillWeekSummaries Samples.backfillEnv
                                              Examples.sentBoth))) =
  snd (Backfill.backfillWeekSummaries Samples.backfillEnv
                                      Examples.sentBoth) /\
  (BackfillView.runs Samples.laterBackfillEnv ->
   fst (Backfill.backfillWeekSummaries
          Samples.laterBackfillEnv
          (snd (Backfill.backfillWeekSummaries Samples.backfillEnv
                                               Examples.sentBoth))) =
   Ok (Backfill.mkCounters 0 0)).
Proof.
  apply (@backfill_twice Samples.backfillEnv Samples.laterBackfillEnv
                         Examples.sentBoth (Backfill.mkCounters 2 0)).
  - simpl. constructor.
    + intros [H | []]. discriminate H.
    + constructor; [intros [] | constructor].
  - vm_compute. reflexivity.
  - reflexivity.
  - split; [vm_compute; reflexivity | intros d _; reflexivity].
Defined.

Lemma one_record_per_question_witness :
  let col :=
    snd (QuestionService.markQuestionAsSent
           (Examples.markEnv (js "rec-2")) Examples.addTwo
           (snd (QuestionService.markQuestionAsSent
                   (Examples.markEnv (js "rec-1")) Examples.twoSum []))) in
  wellFormed col /\ Checked.uniqueRecords col.
Proof.
  apply one_record_per_question.
  eapply Checked.reachable_step;
    [| apply Checked.step_mark; [reflexivity |]].
  - eapply Checked.reachable_step;
      [apply Checked.reachable_empty
      | apply Checked.step_mark; [reflexivity |]].
    intros newId place H. injection H as <- _.
    split; [discriminate | intros []].
  - intros newId place H. injection H as <- _.
    split; [discriminate |]. vm_compute. intros [H | []]. discriminate H.
Defined.

Lemma retrieve_shows_marked_question_witness :
  exists q,
    fst (App.handleGetRandomQuestion
           Samples.retrieveEnv (Samples.card None false)
           Examples.questions Examples.sentTwoSum) =
    App.mkState (App.selectedDifficulty (Samples.card None false))
                (Some q) false None true /\
    In q (QuestionService.questionsOfDifficulty
            Examples.questions
            (App.selectedDifficulty (Samples.card None false))) /\
    (0 < QuestionService.recordsFor
           (Question.id q)
           (snd (App.handleGetRandomQuestion
                   Samples.retrieveEnv (Samples.card None false)
                   Examples.questions Examples.sentTwoSum)))%nat.
Proof.
  apply retrieve_shows_marked_question.
  - split; [reflexivity | split; [reflexivity |]].
    unfold QuestionService.randomRange. simpl. lia.
  - split; [reflexivity |].
    exists (js "rec-2"), 0%nat. split; [reflexivity | discriminate].
  - discriminate.
Defined.

Lemma retrieve_nothing_witness :
  App.handleGetRandomQuestion
    Samples.retrieveEnv
    (App.mkState (js "Hard") (Some Examples.twoSum) false None true)
    Examples.questions Examples.sentTwoSum =
  (App.mkState (js "Hard") None false
               (Some (js "No more unsent " ++ js "Hard"
                      ++ js " questions available!"))
               true,
   Examples.sentTwoSum).
Proof.
  apply (@retrieve_nothing
           Samples.retrieveEnv
           (App.mkState (js "Hard") (Some Examples.twoSum) false None true)
           Examples.questions Examples.sentTwoSum).
  right. left. reflexivity.
Defined.

Lemma toggle_flips_witness :
  App.questionSent
    (fst (App.handleToggleSentStatus
            Samples.toggleEnv (Samples.card (Some Examples.twoSum) true)
            Examples.sentTwoSum)) =
  negb (App.questionSent (Samples.card (Some Examples.twoSum) true)) /\
  App.randomQuestion
    (fst (App.handleToggleSentStatus
            Samples.toggleEnv (Samples.card (Some Examples.twoSum) true)
            Examples.sentTwoSum)) = Some Examples.twoSum /\
  App.consistent
    (fst (App.handleToggleSentStatus
            Samples.toggleEnv (Samples.card (Some Examples.twoSum) true)
            Examples.sentTwoSum))
    (snd (App.handleToggleSentStatus
            Samples.toggleEnv (Samples.card (Some Examples.twoSum) true)
            Examples.sentTwoSum)).
Proof.
  apply toggle_flips.
  - reflexivity.
  - split; [simpl; constructor; [intros [] | constructor] |].
    repeat constructor. discriminate.
  - vm_compute. reflexivity.
  - split; reflexivity.
  - split; [reflexivity |].
    exists (js "rec-2"), 0%nat. split; [reflexivity | discriminate].
Defined.

(** ** The week range as a function of the instant *)

Section WeekRangeInDepth.

Import JsDate WeekCheck.
Local Open Scope Z_scope.

(** The range in closed form. *)
Lemma getWeekRange_value (LocalTZA : Z -> bool -> Z) (tza t : Z) :
  steadyAround LocalTZA tza t ->
  weekRepresentable t ->
  getWeekRange LocalTZA (Some t) =
  mkWeekRange (Some (weekStart tza t))
              (Some (weekStart tza t + 5 * msPerDay - 1)).
Proof.
  intros Hsteady Hrep. unfold weekRepresentable in Hrep.
  pose proof (proj1 Hsteady) as Htza.
  unfold weekStart. set (L := t + tza). set (dow := WeekDay L).
  assert (Hdow : 0 <= dow <= 6).
  { unfold dow, WeekDay. pose proof (Z.mod_pos_bound (Day L + 4) 7). lia. }
  assert (HL : L = Day L * msPerDay + TimeWithinDay L).
  { unfold Day, TimeWithinDay. pose proof (Z.div_mod L msPerDay).
    unfold msPerDay in *. lia. }
  assert (Htw : 0 <= TimeWithinDay L < msPerDay).
  { unfold TimeWithinDay. apply Z.mod_pos_bound. reflexivity. }
  assert (EL : LocalTime LocalTZA t = L).
  { apply (LocalTime_steady Hsteady). unfold msPerDay. lia. }
  set (s1 := t + (- dow) * msPerDay).
  assert (E1 : setDate LocalTZA (Some t)
                       (numSub (getDate LocalTZA (Some t))
                               (getDay LocalTZA (Some t)))
               = Some s1).
  { cbn [getDate getDay option_map numSub]. rewrite EL. fold dow.
    replace (DateFromTime L - dow) with (DateFromTime L + (- dow)) by lia.
    rewrite <- EL.
    apply (setDate_shift Hsteady); unfold msPerDay, maxTime in *; lia. }
  assert (HD1 : Day (s1 + tza) = Day L - dow).
  { unfold s1.
    replace (t + - dow * msPerDay + tza) with (L + (- dow) * msPerDay)
      by (unfold L; lia).
    unfold Day. rewrite Z.div_add by discriminate. lia. }
  set (s := (Day L - dow) * msPerDay - tza).
  assert (E2 : setHours LocalTZA (Some s1) 0 0 0 0 = Some s).
  { rewrite (setHours_day Hsteady); rewrite ?HD1; unfold MakeTime.
    - unfold s. f_equal. lia.
    - unfold s1, msPerDay in *. lia.
    - unfold L, msPerDay in *. lia.
    - unfold L, msPerDay, maxTime in *. lia. }
  set (e1 := s + 4 * msPerDay).
  assert (E3 : setDate LocalTZA (Some s)
                       (numAdd (getDate LocalTZA (Some s)) (Some 4))
               = Some e1).
  { cbn [getDate option_map numAdd].
    apply (setDate_shift Hsteady);
      unfold s, L, msPerDay, maxTime in *; lia. }
  assert (HDe1 : Day (e1 + tza) = Day L - dow + 4).
  { unfold e1, s.
    replace ((Day L - dow) * msPerDay - tza + 4 * msPerDay + tza)
      with ((Day L - dow + 4) * msPerDay) by lia.
    unfold Day at 1. apply Z.div_mul. discriminate. }
  assert (E4 : setHours LocalTZA (Some e1) 23 59 59 999
               = Some (s + 5 * msPerDay - 1)).
  { rewrite (setHours_day Hsteady); rewrite ?HDe1;
      [f_equal | | |];
      unfold e1, s, L, MakeTime, msPerHour, msPerMinute, msPerSecond,
        msPerDay, maxTime in *; lia. }
  unfold getWeekRange. rewrite E1, E2, E3, E4. reflexivity.
Qed.

Lemma fixedZone_steady (LocalTZA : Z -> bool -> Z) (tza t : Z) :
  fixedZone LocalTZA tza -> steadyAround LocalTZA tza t.
Proof. intros [Hb Hf]. split; [exact Hb | intros x isUTC _; apply Hf]. Qed.

(** The reference instant lies in its own range exactly from Sunday to
    Thursday: on a Friday or a Saturday the range of the instant is the
    week that has just ended. *)
Theorem now_in_own_week_range (LocalTZA : Z -> bool -> Z) (tza t : Z) :
  steadyAround LocalTZA tza t ->
  weekRepresentable t ->
  isDateInWeekRange (Some t) (getWeekRange LocalTZA (Some t)) =
  (WeekDay (LocalTime LocalTZA t) <=? 4).
Proof.
  intros Hsteady Hrep. rewrite (getWeekRange_value Hsteady Hrep).
  assert (EL : LocalTime LocalTZA t = t + tza).
  { apply (LocalTime_steady Hsteady).
    unfold weekRepresentable, msPerDay in *. lia. }
  rewrite EL. unfold isDateInWeekRange, dateGe, dateLe, weekStart.
  cbn [start end_].
  set (L := t + tza).
  assert (Hdow : 0 <= WeekDay L <= 6).
  { unfold WeekDay. pose proof (Z.mod_pos_bound (Day L + 4) 7). lia. }
  assert (HL : L = Day L * msPerDay + TimeWithinDay L).
  { unfold Day, TimeWithinDay. pose proof (Z.div_mod L msPerDay).
    unfold msPerDay in *. lia. }
  assert (Htw : 0 <= TimeWithinDay L < msPerDay).
  { unfold TimeWithinDay. apply Z.mod_pos_bound. reflexivity. }
  assert (Ht : t = L - tza) by (unfold L; lia).
  generalize dependent (WeekDay L). generalize dependent (Day L).
  generalize dependent (TimeWithinDay L).
  intros twd Htw D HL dow Hdow.
  unfold msPerDay in *.
  destruct (Z.leb_spec dow 4);
    [apply andb_true_iff; split; apply Z.leb_le; lia |].
  apply andb_false_iff. right. apply Z.leb_gt. lia.
Qed.

(** The range is a function of the local week: in a zone at a fixed
    offset, another instant gets the same range exactly when it lies in
    the seven days that begin at the start of the range. *)
Theorem same_week_same_range
        (LocalTZA : Z -> bool -> Z) (tza t t' : Z) :
  fixedZone LocalTZA tza ->
  weekRepresentable t ->
  weekRepresentable t' ->
  getWeekRange LocalTZA (Some t') = getWeekRange LocalTZA (Some t) <->
  weekStart tza t <= t' < weekStart tza t + 7 * msPerDay.
Proof.
  intros Hfix Hrep Hrep'.
  rewrite (getWeekRange_value (fixedZone_steady t Hfix) Hrep).
  rewrite (getWeekRange_value (fixedZone_steady t' Hfix) Hrep').
  assert (Hstart : forall u,
             weekStart tza u =
             (7 * ((Day (u + tza) + 4) / 7) - 4) * msPerDay - tza).
  { intros u. unfold weekStart, WeekDay.
    pose proof (Z.div_mod (Day (u + tza) + 4) 7). f_equal. f_equal. lia. }
  assert (Hin : forall u,
             weekStart tza u <= u < weekStart tza u + 7 * msPerDay).
  { intros u. rewrite Hstart. unfold Day, msPerDay.
    Z.to_euclidean_division_equations. lia. }
  split.
  - intros H. injection H as H _. rewrite <- H. apply Hin.
  - intros H.
    assert (E : weekStart tza t' = weekStart tza t).
    { pose proof (Hin t') as H'. rewrite !Hstart in *.
      unfold Day, msPerDay in *.
      Z.to_euclidean_division_equations. lia. }
    rewrite E. reflexivity.
Qed.

End WeekRangeInDepth.

Lemma now_in_own_week_range_witness :
  WeekCheck.isDateInWeekRange
    (Some Examples.santiagoLater)
    (JsDate.getWeekRange Examples.santiago2024
                         (Some Examples.santiagoLater)) =
  (JsDate.WeekDay (JsDate.LocalTime Examples.santiago2024
                                    Examples.santiagoLater) <=? 4)%Z.
Proof.
  apply (@now_in_own_week_range Examples.santiago2024 (-10800000)%Z).
  - split; [vm_compute; split; discriminate |].
    intros x isUTC Hx. unfold Examples.santiago2024.
    unfold Examples.santiagoLater, JsDate.msPerDay in Hx.
    destruct isUTC;
      match goal with
      | |- context [(?a <? ?b)%Z] => destruct (Z.ltb_spec a b)
      end; try reflexivity; lia.
  - unfold JsDate.weekRepresentable. vm_compute. split; discriminate.
Defined.

Lemma same_week_same_range_witness :
  JsDate.getWeekRange Examples.utcPlus2 (Some 1766872800000%Z) =
  JsDate.getWeekRange Examples.utcPlus2 (Some Examples.newYearNoon) <->
  (WeekCheck.weekStart 7200000 Examples.newYearNoon <= 1766872800000
   < WeekCheck.weekStart 7200000 Examples.newYearNoon
     + 7 * JsDate.msPerDay)%Z.
Proof.
  apply same_week_same_range.
  - split; [vm_compute; split; discriminate | reflexivity].
  - unfold JsDate.weekRepresentable. vm_compute. split; discriminate.
  - unfold JsDate.weekRepresentable. vm_compute. split; discriminate.
Defined.

(** ** The complexities and the empty solution *)

Section ParsedFields.

Import ReplyFormat.

(** What a greedy star has read when the match succeeds. *)
Lemma starGreedy_inv (cl : cclass) (inp : jsstring)
      (k : jsstring -> option MatchState) (m : MatchState) :
  starGreedy cl inp k = Some m ->
  exists pre rest,
    inp = pre ++ rest /\ forallb (classMatches cl) pre = true /\
    k rest = Some m.
Proof.
  induction inp as [| c tl IH]; cbn [starGreedy].
  - intros H. exists [], []. repeat split. exact H.
  - destruct (classMatches cl c) eqn:Ec.
    + destruct (starGreedy cl tl k) as [m' |] eqn:E; cbn [orTry].
      * intros H. injection H as ->.
        destruct (IH eq_refl) as (pre & rest & -> & Hpre & Hk).
        exists (c :: pre), rest. repeat split; [| exact Hk].
        simpl. rewrite Ec. exact Hpre.
      * intros H. exists [], (c :: tl). repeat split. exact H.
    + intros H. exists [], (c :: tl). repeat split. exact H.
Qed.

Lemma firstn_prefix {A} (a b : list A) :
  firstn (length (a ++ b) - length b) (a ++ b) = a.
Proof.
  rewrite length_app, Nat.add_sub, firstn_app, Nat.sub_diag, firstn_all.
  simpl. apply app_nil_r.
Qed.

(** What the complexity pattern captures. *)
Lemma complexityRe_capture (label inp : jsstring) (m : MatchState) :
  matchHere (complexityRe label) inp None accept = Some m ->
  exists body, snd m = Some (bigO body) /\ body <> [] /\
               lacks 41 body = true.
Proof.
  unfold complexityRe. cbn [matchHere].
  destruct (stripPrefix label inp) as [r1 |]; [| discriminate].
  intros H. apply starGreedy_inv in H as (_ & g & _ & _ & H).
  destruct (stripPrefix (js "O(") g) as [r2 |] eqn:E2; [| discriminate].
  apply stripPrefix_app in E2.
  destruct r2 as [| c r3]; [discriminate |].
  destruct (classMatches (CNot 41) c) eqn:Ec; [| discriminate].
  apply starGreedy_inv in H as (pre & r4 & -> & Hpre & H).
  destruct (stripPrefix (js ")") r4) as [r5 |] eqn:E5; [| discriminate].
  apply stripPrefix_app in E5. unfold accept in H. injection H as <-.
  exists (c :: pre). cbn [snd]. split; [| split; [discriminate |]].
  - f_equal. subst g r4. unfold bigO.
    replace (js "O(" ++ c :: pre ++ js ")" ++ r5)
      with ((js "O(" ++ (c :: pre) ++ js ")") ++ r5)
      by (rewrite <- !app_assoc; reflexivity).
    apply firstn_prefix.
  - unfold lacks. cbn [forallb]. unfold classMatches in Ec, Hpre.
    rewrite Ec. exact Hpre.
Qed.

(** A match is a match at some place of the text. *)
Lemma regexMatch_somewhere (r : regex) (content : jsstring)
      (m : MatchState) :
  regexMatch r content = Some m ->
  exists pre rest, content = pre ++ rest /\
                   matchHere r rest None accept = Some m.
Proof.
  induction content as [| c tl IH]; cbn [regexMatch].
  - destruct (matchHere r [] None accept) eqn:E; [| discriminate].
    intros H. exists [], []. split; [reflexivity |]. rewrite E. exact H.
  - destruct (matchHere r (c :: tl) None accept) eqn:E; cbn [orTry].
    + intros H. exists [], (c :: tl). split; [reflexivity |].
      rewrite E. exact H.
    + intros H. destruct (IH H) as (pre & rest & -> & Hm).
      exists (c :: pre), rest. split; [reflexivity | exact Hm].
Qed.

Lemma complexity_field (label content : jsstring) :
  wellFormedComplexity
    (orDefault (group1 (regexMatch (complexityRe label) content))
               unknownComplexity).
Proof.
  destruct (regexMatch (complexityRe label) content) as [m |] eqn:E.
  - apply regexMatch_somewhere in E as (_ & rest & _ & Hm).
    apply complexityRe_capture in Hm as (body & Hcap & Hne & Hl).
    destruct m as [r cap]. cbn [snd] in Hcap. subst cap.
    cbn [group1 orDefault]. exists body. repeat split; assumption.
  - exists (js "?"). repeat split. discriminate.
Qed.

(** Both parsers return complexities of the form [O(body)] with a body
    that is not empty and has no closing parenthesis, whatever the
    text is. *)
Theorem complexities_well_formed (content : jsstring) :
  wellFormedComplexity (timeComplexity (Utils.parseAIResponse content)) /\
  wellFormedComplexity (spaceComplexity (Utils.parseAIResponse content)) /\
  wellFormedComplexity (timeComplexity (Index.parseContent content)) /\
  wellFormedComplexity (spaceComplexity (Index.parseContent content)).
Proof.
  repeat split; apply complexity_field.
Qed.

(** A text without the time label gets the time complexity [O(?)], and
    a text without the space label the space complexity [O(?)], from
    both parsers. *)
Theorem complexity_defaults (content : jsstring) :
  (includes timeLabel content = false ->
   timeComplexity (Utils.parseAIResponse content) = js "O(?)" /\
   timeComplexity (Index.parseContent content) = js "O(?)") /\
  (includes spaceLabel content = false ->
   spaceComplexity (Utils.parseAIResponse content) = js "O(?)" /\
   spaceComplexity (Index.parseContent content) = js "O(?)").
Proof.
  split; intros H;
    unfold Utils.parseAIResponse, Index.parseContent, complexityRe;
    cbn [timeComplexity spaceComplexity];
    rewrite regexMatch_literal by exact H; split; reflexivity.
Qed.

Lemma blank_trim (s : jsstring) : blank s = true -> trim s = [].
Proof.
  intros H. unfold trim.
  assert (E : trimStart s = []).
  { induction s as [| c tl IH]; [reflexivity |].
    simpl in H. apply andb_true_iff in H as [Hc Htl].
    simpl. rewrite Hc. apply IH. exact Htl. }
  rewrite E. reflexivity.
Qed.

Lemma blank_or_inked (s : jsstring) :
  if blank s then ~ inked s else inked s.
Proof.
  induction s as [| c tl IH]; simpl.
  - intros (x & [] & _).
  - destruct (isSpace c) eqn:Ec; simpl.
    + destruct (blank tl).
      * intros (x & [<- | Hx] & Hs); [congruence |].
        apply IH. exists x. split; assumption.
      * destruct IH as (x & Hx & Hs). exists x. split; [right |]; assumption.
    + exists c. split; [left; reflexivity | exact Ec].
Qed.

(** Both parsers return an empty solution exactly for a text of white
    space only (the empty text included). *)
Theorem solution_empty_iff_blank (content : jsstring) :
  (solution (Utils.parseAIResponse content) = [] <->
   blank content = true) /\
  (solution (Index.parseContent content) = [] <->
   blank content = true).
Proof.
  pose proof (blank_or_inked content) as Hb.
  assert (Hnolabel : blank content = true ->
                     includes solutionLabel content = false).
  { intros E. rewrite E in Hb.
    destruct (includes solutionLabel content) eqn:Ei; [| reflexivity].
    exfalso. apply Hb. apply includes_label_inked. exact Ei. }
  split; (split; intros H;
          [destruct (blank content); [reflexivity |]; exfalso;
           revert H; apply orDefault_nonempty, inked_nonempty, trim_inked, Hb
          |]).
  - unfold Utils.parseAIResponse, Utils.solutionRe. cbn [solution].
    rewrite regexMatch_literal by (apply Hnolabel; exact H).
    apply blank_trim. exact H.
  - unfold Index.parseContent, Index.solutionRe. cbn [solution].
    rewrite regexMatch_literal by (apply Hnolabel; exact H).
    apply blank_trim. exact H.
Qed.

End ParsedFields.

Lemma complexity_defaults_witness :
  (timeComplexity (Utils.parseAIResponse Examples.simpleSolution)
   = js "O(?)" /\
   timeComplexity (Index.parseContent Examples.simpleSolution)
   = js "O(?)") /\
  (spaceComplexity (Utils.parseAIResponse Examples.simpleSolution)
   = js "O(?)" /\
   spaceComplexity (Index.parseContent Examples.simpleSolution)
   = js "O(?)").
Proof.
  split.
  - apply (proj1 (complexity_defaults Examples.simpleSolution)).
    reflexivity.
  - apply (proj2 (complexity_defaults Examples.simpleSolution)).
    reflexivity.
Defined.

(** ** Parsing a reply in the format of the prompt *)

Section FormattedReply.

Import ReplyFormat ParseSpec.

Lemma regexMatch_step_fail (lit : jsstring) (r : regex) (c : N)
      (rest : jsstring) :
  stripPrefix lit (c :: rest) = None ->
  regexMatch (RSeq (RLit lit) r) (c :: rest) =
  regexMatch (RSeq (RLit lit) r) rest.
Proof. intros H. cbn [regexMatch matchHere]. rewrite H. reflexivity. Qed.

Lemma regexMatch_hit (r : regex) (inp : jsstring) (m : MatchState) :
  matchHere r inp None accept = Some m -> regexMatch r inp = Some m.
Proof.
  intros H. destruct inp; cbn [regexMatch]; rewrite H; reflexivity.
Qed.

(** The search passes over a text that lacks the first character of
    the literal. *)
Lemma regexMatch_skip_head (a : N) (lit : jsstring) (r : regex)
      (pre rest : jsstring) :
  lacks a pre = true ->
  regexMatch (RSeq (RLit (a :: lit)) r) (pre ++ rest) =
  regexMatch (RSeq (RLit (a :: lit)) r) rest.
Proof.
  induction pre as [| c pre IH]; intros H; [reflexivity |].
  simpl in H. apply andb_true_iff in H as [Hc Hpre].
  cbn [app]. rewrite regexMatch_step_fail; [apply IH; exact Hpre |].
  cbn [stripPrefix]. rewrite N.eqb_sym.
  apply negb_true_iff in Hc. rewrite Hc. reflexivity.
Qed.

(** A word followed by a colon does not begin inside a text without
    colons that is followed by a character foreign to the word. *)
Lemma stripPrefix_barrier (w x : jsstring) (b : N) (tail : jsstring) :
  lacks 58 x = true -> lacks b w = true -> b <> 58%N ->
  stripPrefix (w ++ colon) (x ++ b :: tail) = None.
Proof.
  intros Hx Hw Hb. revert x Hx.
  induction w as [| a w IH]; intros x Hx.
  - destruct x as [| c x]; cbn [app stripPrefix colon js List.map
                                  String.list_ascii_of_string].
    + change (N_of_ascii ":") with 58%N.
      destruct (N.eqb_spec 58 b); [congruence | reflexivity].
    + simpl in Hx. apply andb_true_iff in Hx as [Hc _].
      apply negb_true_iff in Hc. change (N_of_ascii ":") with 58%N.
      rewrite N.eqb_sym, Hc. reflexivity.
  - simpl in Hw. apply andb_true_iff in Hw as [Ha Hw].
    apply negb_true_iff in Ha.
    destruct x as [| c x]; cbn [app stripPrefix].
    + rewrite Ha. reflexivity.
    + destruct (a =? c)%N; [| reflexivity].
      apply IH; [exact Hw |].
      simpl in Hx. apply andb_true_iff in Hx as [_ Hx]. exact Hx.
Qed.

Lemma regexMatch_skip_barrier (w : jsstring) (r : regex)
      (x : jsstring) (b : N) (tail : jsstring) :
  lacks 58 x = true -> lacks b w = true -> b <> 58%N ->
  regexMatch (RSeq (RLit (w ++ colon)) r) (x ++ b :: tail) =
  regexMatch (RSeq (RLit (w ++ colon)) r) (b :: tail).
Proof.
  intros Hx Hw Hb. induction x as [| c x IH]; [reflexivity |].
  cbn [app]. rewrite regexMatch_step_fail.
  - apply IH. simpl in Hx. apply andb_true_iff in Hx as [_ Hx]. exact Hx.
  - apply (stripPrefix_barrier w (c :: x) tail Hx Hw Hb).
Qed.

(** A greedy star runs to the end of a text of the class when the next
    character is not of the class. *)
Lemma starGreedy_run (cl : cclass) (pre : jsstring) (c : N)
      (rest : jsstring) (k : jsstring -> option MatchState)
      (m : MatchState) :
  forallb (classMatches cl) pre = true ->
  classMatches cl c = false ->
  k (c :: rest) = Some m ->
  starGreedy cl (pre ++ c :: rest) k = Some m.
Proof.
  intros Hpre Hc Hk. induction pre as [| a pre IH].
  - cbn [app starGreedy]. rewrite Hc. exact Hk.
  - simpl in Hpre. apply andb_true_iff in Hpre as [Ha Hpre].
    cbn [app starGreedy]. rewrite Ha, (IH Hpre). reflexivity.
Qed.

(** The complexity pattern on a label followed by a space and
    [O(body)]. *)
Lemma complexityRe_hit (label body rest : jsstring) :
  body <> [] -> lacks 41 body = true ->
  matchHere (complexityRe label)
            (label ++ js " " ++ bigO body ++ rest) None accept =
  Some (rest, Some (bigO body)).
Proof.
  intros Hne Hl. unfold complexityRe. cbn [matchHere].
  rewrite (proj2 (stripPrefix_app label _ _) eq_refl).
  apply starGreedy_space.
  replace (bigO body ++ rest) with (js "O(" ++ body ++ js ")" ++ rest)
    by (unfold bigO; rewrite <- !app_assoc; reflexivity).
  change (trimStart (js " " ++ js "O(" ++ body ++ js ")" ++ rest))
    with (js "O(" ++ body ++ js ")" ++ rest).
  rewrite (proj2 (stripPrefix_app (js "O(") _ _) eq_refl).
  destruct body as [| c body]; [congruence |].
  simpl in Hl. apply andb_true_iff in Hl as [Hc Hbody].
  cbn [app]. unfold classMatches at 1. rewrite Hc.
  change (js ")" ++ rest) with (41%N :: rest).
  apply starGreedy_run; [exact Hbody | reflexivity |].
  change (stripPrefix (js ")") (41%N :: rest)) with (Some rest).
  unfold accept.
  replace (js "O(" ++ c :: body ++ 41%N :: rest)
    with (bigO (c :: body) ++ rest)
    by (unfold bigO; rewrite <- !app_assoc; reflexivity).
  rewrite firstn_prefix. reflexivity.
Qed.

(** Where a segment ends: at the first place at which [stops] holds. *)
Lemma upto_stop (stops : jsstring -> bool) (x rest : jsstring) :
  (forall y z, x = y ++ z -> z <> [] -> stops (z ++ rest) = false) ->
  stops rest = true ->
  upto stops (x ++ rest) = x.
Proof.
  intros Hin Hrest. induction x as [| c x IH].
  - destruct rest; cbn [app upto]; rewrite Hrest; reflexivity.
  - assert (H0 : stops ((c :: x) ++ rest) = false)
      by (apply (Hin [] (c :: x) eq_refl); discriminate).
    cbn [app] in H0. cbn [app upto]. rewrite H0.
    f_equal. apply IH. intros y z -> Hz.
    apply (Hin (c :: y) z eq_refl Hz).
Qed.

Lemma lacks_suffix (c : N) (y z : jsstring) :
  lacks c (y ++ z) = true -> lacks c z = true.
Proof.
  unfold lacks. rewrite forallb_app. intros H.
  apply andb_true_iff in H as [_ H]. exact H.
Qed.

(** Inside a text without colons that a new line follows, no line
    begins with a label. *)
Lemma no_label_line (w x tail : jsstring) :
  lacks 58 x = true -> lacks 10 w = true -> x <> [] ->
  startsWith (newline ++ w ++ colon) (x ++ 10%N :: tail) = false.
Proof.
  intros Hx Hw Hne. destruct x as [| c x]; [congruence |].
  unfold startsWith. cbn [app newline stripPrefix].
  destruct (10 =? c)%N; [| reflexivity].
  simpl in Hx. apply andb_true_iff in Hx as [_ Hx].
  rewrite stripPrefix_barrier; [reflexivity | exact Hx | exact Hw |].
  discriminate.
Qed.

(** A reply in the format of the prompt is parsed into its parts by
    both parsers: the solution (a trimmed text without colon), and the
    two complexities (bodies without closing parenthesis, the one of
    the time without colon). *)
Theorem parse_formatted_reply (sol time space : jsstring) :
  sol <> [] -> trim sol = sol -> lacks 58 sol = true ->
  time <> [] -> lacks 41 time = true -> lacks 58 time = true ->
  space <> [] -> lacks 41 space = true ->
  Utils.parseAIResponse (reply sol time space) =
  mkAISummary sol (bigO time) (bigO space) /\
  Index.parseContent (reply sol time space) =
  mkAISummary sol (bigO time) (bigO space).
Proof.
  intros Hsol Htrim Hsolc Htime Htimep Htimec Hspace Hspacep.
  set (afterSol := newline ++ timeLabel ++ js " " ++ bigO time ++
                   newline ++ spaceLabel ++ js " " ++ bigO space).
  assert (Ereply : reply sol time space =
                   (solutionLabel ++ js " ") ++ sol ++ afterSol).
  { unfold reply, afterSol. rewrite <- !app_assoc. reflexivity. }
  (* the time complexity *)
  assert (Et : group1 (regexMatch (complexityRe timeLabel)
                                  (reply sol time space)) =
               Some (bigO time)).
  { rewrite Ereply. unfold complexityRe at 1, timeLabel at 1.
    change (zman ++ colon) with (1494%N :: ([1502; 1503]%N ++ colon)).
    rewrite regexMatch_skip_head by reflexivity.
    change (1494%N :: ([1502; 1503]%N ++ colon)) with (zman ++ colon).
    change afterSol
      with (10%N :: (timeLabel ++ js " " ++ bigO time ++
                     newline ++ spaceLabel ++ js " " ++ bigO space)).
    rewrite regexMatch_skip_barrier;
      [| exact Hsolc | reflexivity | discriminate].
    rewrite regexMatch_step_fail by reflexivity.
    fold timeLabel. fold (complexityRe timeLabel).
    erewrite (regexMatch_hit _ _
                (@complexityRe_hit timeLabel time _ Htime Htimep)).
    reflexivity. }
  (* the space complexity *)
  assert (Es : group1 (regexMatch (complexityRe spaceLabel)
                                  (reply sol time space)) =
               Some (bigO space)).
  { rewrite Ereply. unfold complexityRe at 1, spaceLabel at 1.
    change (makom ++ colon)
      with (1502%N :: ([1511; 1493; 1501]%N ++ colon)).
    rewrite regexMatch_skip_head by reflexivity.
    change (1502%N :: ([1511; 1493; 1501]%N ++ colon))
      with (makom ++ colon).
    change afterSol
      with (10%N :: (timeLabel ++ js " " ++ bigO time ++
                     newline ++ spaceLabel ++ js " " ++ bigO space)).
    rewrite regexMatch_skip_barrier;
      [| exact Hsolc | reflexivity | discriminate].
    replace (10%N :: (timeLabel ++ js " " ++ bigO time ++
                      newline ++ spaceLabel ++ js " " ++ bigO space))
      with (10%N :: 1494%N :: 1502%N :: 1503%N :: 58%N :: 32%N
            :: 79%N :: 40%N
            :: (time ++ 41%N
                :: (newline ++ spaceLabel ++ js " " ++ bigO space)))
      by (unfold bigO at 2, timeLabel; rewrite <- !app_assoc;
          reflexivity).
    do 8 (rewrite regexMatch_step_fail by reflexivity).
    rewrite regexMatch_skip_barrier;
      [| exact Htimec | reflexivity | discriminate].
    rewrite regexMatch_step_fail by reflexivity.
    change (newline ++ spaceLabel ++ js " " ++ bigO space)
      with (10%N :: (spaceLabel ++ js " " ++ bigO space)).
    rewrite regexMatch_step_fail by reflexivity.
    fold spaceLabel. fold (complexityRe spaceLabel).
    replace (spaceLabel ++ js " " ++ bigO space)
      with (spaceLabel ++ js " " ++ bigO space ++ [])
      by (rewrite app_nil_r; reflexivity).
    erewrite (regexMatch_hit _ _
                (@complexityRe_hit spaceLabel space [] Hspace Hspacep)).
    reflexivity. }
  (* the solution *)
  assert (Hafter : afterSolutionLabel (reply sol time space) =
                   Some (js " " ++ sol ++ afterSol)).
  { rewrite Ereply. reflexivity. }
  assert (Hlacks : lacks 58 (js " " ++ sol) = true) by exact Hsolc.
  assert (Hseg : forall stops,
             (forall x tail, lacks 58 x = true -> x <> [] ->
                             stops (x ++ 10%N :: tail) = false) ->
             stops afterSol = true ->
             segment stops (reply sol time space) = sol).
  { intros stops Hno Hstop. unfold segment. rewrite Hafter.
    replace (js " " ++ sol ++ afterSol)
      with ((js " " ++ sol) ++ afterSol)
      by (rewrite <- app_assoc; reflexivity).
    rewrite upto_stop; [exact Htrim | | exact Hstop].
    intros y z Eyz Hz. apply Hno; [| exact Hz].
    apply (lacks_suffix 58 y). rewrite <- Eyz. exact Hlacks. }
  assert (Hutils : segment atNextLabel (reply sol time space) = sol).
  { apply Hseg; [| reflexivity].
    intros x tail Hx Hne. unfold atNextLabel, atTimeLine, atSpaceLine,
                           timeLabel, spaceLabel.
    rewrite !no_label_line; try assumption; reflexivity. }
  assert (Hindex : segment atTimeLine (reply sol time space) = sol).
  { apply Hseg; [| reflexivity].
    intros x tail Hx Hne. unfold atTimeLine, timeLabel.
    rewrite no_label_line; try assumption; reflexivity. }
  split.
  - unfold Utils.parseAIResponse. rewrite Et, Es.
    change (orDefault (option_map trim
                         (group1 (regexMatch Utils.solutionRe
                                             (reply sol time space))))
                      (trim (reply sol time space)))
      with (solutionBy (solutionPattern
                          (RAlt (RSeq (RLit newline)
                                      (RSeq (RAlt (RLit zman) (RLit makom))
                                            (RLit colon)))
                                REnd))
                       (reply sol time space)).
    rewrite (@solutionBy_segment _ atNextLabel utils_ahead);
      rewrite Hutils; [| exact Hsol].
    cbn [orDefault]. unfold orElse, bigO. reflexivity.
  - unfold Index.parseContent. rewrite Et, Es.
    change (orDefault (option_map trim
                         (group1 (regexMatch Index.solutionRe
                                             (reply sol time space))))
                      (trim (reply sol time space)))
      with (solutionBy (solutionPattern
                          (RAlt (RLit (newline ++ timeLabel)) REnd))
                       (reply sol time space)).
    rewrite (@solutionBy_segment _ atTimeLine index_ahead);
      rewrite Hindex; [| exact Hsol].
    cbn [orDefault]. unfold orElse, bigO. reflexivity.
Qed.

End FormattedReply.

Lemma parse_formatted_reply_witness :
  Utils.parseAIResponse
    (ReplyFormat.reply Examples.simpleSolution (js "n") (js "1")) =
  mkAISummary Examples.simpleSolution (ReplyFormat.bigO (js "n"))
              (ReplyFormat.bigO (js "1")) /\
  Index.parseContent
    (ReplyFormat.reply Examples.simpleSolution (js "n") (js "1")) =
  mkAISummary Examples.simpleSolution (ReplyFormat.bigO (js "n"))
              (ReplyFormat.bigO (js "1")).
Proof.
  apply parse_formatted_reply; try discriminate; reflexivity.
Defined.

(** ** The weekly summary *)

Section WeekList.

Import JsDate WeekCheck WeeklySummary.

Local Open Scope Z_scope.

Variable env : WeekEnv.

Implicit Types (q x y : Doc RetrievedQuestion.t).
Implicit Types (l : list (Doc RetrievedQuestion.t)).

Lemma insertSorted_perm x l :
  Permutation.Permutation (insertSorted env x l) (x :: l).
Proof.
  induction l as [| y tl IH]; simpl.
  - apply Permutation.Permutation_refl.
  - destruct (sortCompare env x y <=? 0).
    + apply Permutation.Permutation_refl.
    + apply Permutation.perm_trans with (y :: x :: tl).
      * apply Permutation.perm_skip. exact IH.
      * apply Permutation.perm_swap.
Qed.

Lemma sort_perm l : Permutation.Permutation (sort env l) l.
Proof.
  induction l as [| x tl IH]; simpl.
  - apply Permutation.perm_nil.
  - apply Permutation.perm_trans with (x :: sort env tl).
    + apply insertSorted_perm.
    + apply Permutation.perm_skip. exact IH.
Qed.

(** The comparator says "greater" only between two valid dates. *)
Lemma sortCompare_gt x y :
  (sortCompare env x y <=? 0) = false ->
  exists a b,
    sentTime env x = Some a /\ sentTime env y = Some b /\ b < a.
Proof.
  unfold sortCompare, compareSent, numSub. intros H.
  destruct (sentTime env x) as [a |], (sentTime env y) as [b |];
    try (simpl in H; discriminate H).
  exists a, b. apply Z.leb_gt in H.
  split; [reflexivity | split; [reflexivity | lia]].
Qed.

Lemma sortCompare_le x y a b :
  sentTime env x = Some a -> sentTime env y = Some b ->
  (sortCompare env x y <=? 0) = true -> a <= b.
Proof.
  unfold sortCompare, compareSent, numSub. intros -> -> H.
  apply Z.leb_le in H. lia.
Qed.

Lemma notLater_trans x y z :
  notLater env x y -> notLater env y z -> notLater env x z.
Proof.
  intros (a & b & Ea & Eb & Hab) (b' & c & Eb' & Ec & Hbc).
  rewrite Eb in Eb'. injection Eb' as <-.
  exists a, c. split; [exact Ea | split; [exact Ec | lia]].
Qed.

Lemma insertSorted_sorted x l :
  sentTime env x <> None ->
  Forall (fun q => sentTime env q <> None) l ->
  Sorted.StronglySorted (notLater env) l ->
  Sorted.StronglySorted (notLater env) (insertSorted env x l).
Proof.
  intros Hx Hl Hs. induction Hs as [| y tl Hs IH Hy]; simpl.
  - constructor; constructor.
  - inversion Hl as [| ? ? Hyv Htl]; subst.
    destruct (sortCompare env x y <=? 0) eqn:E.
    + assert (Hxy : notLater env x y).
      { destruct (sentTime env x) as [a |] eqn:Ea; [| congruence].
        destruct (sentTime env y) as [b |] eqn:Eb; [| congruence].
        exists a, b. split; [exact Ea | split; [exact Eb |]].
        eapply sortCompare_le; eassumption. }
      constructor.
      * constructor; assumption.
      * constructor; [exact Hxy |].
        eapply Forall_impl; [| exact Hy].
        intros z Hyz. eapply notLater_trans; eassumption.
    + constructor.
      * apply IH. exact Htl.
      * apply Forall_forall. intros z Hz.
        apply (Permutation.Permutation_in _ (insertSorted_perm x tl)) in Hz.
        destruct Hz as [<- | Hz].
        -- apply sortCompare_gt in E as (a & b & Ea & Eb & Hab).
           exists b, a. split; [exact Eb | split; [exact Ea | lia]].
        -- rewrite Forall_forall in Hy. apply Hy. exact Hz.
Qed.

Lemma sort_sorted l :
  Forall (fun q => sentTime env q <> None) l ->
  Sorted.StronglySorted (notLater env) (sort env l).
Proof.
  induction l as [| x tl IH]; intros Hl; simpl.
  - constructor.
  - inversion Hl as [| ? ? Hx Htl]; subst.
    apply insertSorted_sorted; [exact Hx | | apply IH; exact Htl].
    apply Forall_forall. intros z Hz.
    apply (Permutation.Permutation_in _ (sort_perm tl)) in Hz.
    rewrite Forall_forall in Htl. apply Htl. exact Hz.
Qed.

(** The sort is stable: the elements sent at one instant keep their
    order. *)
Lemma insertSorted_sentAt t x l :
  filter (sentAt env t) (insertSorted env x l) =
  filter (sentAt env t) (x :: l).
Proof.
  induction l as [| y tl IH]; [reflexivity |].
  cbn [insertSorted].
  destruct (sortCompare env x y <=? 0) eqn:E; [reflexivity |].
  apply sortCompare_gt in E as (a & b & Ea & Eb & Hab).
  cbn [filter] in *. rewrite IH.
  destruct (sentAt env t x) eqn:Ex, (sentAt env t y) eqn:Ey;
    try reflexivity.
  unfold sentAt in Ex, Ey. rewrite Ea in Ex. rewrite Eb in Ey.
  apply Z.eqb_eq in Ex, Ey. lia.
Qed.

Lemma sort_sentAt t l :
  filter (sentAt env t) (sort env l) = filter (sentAt env t) l.
Proof.
  induction l as [| x tl IH]; [reflexivity |].
  cbn [sort fold_right]. fold (sort env tl).
  rewrite insertSorted_sentAt. cbn [filter]. rewrite IH. reflexivity.
Qed.

Lemma inRange_valid range q :
  inRange env range q = true -> sentTime env q <> None.
Proof.
  unfold inRange, dateGe.
  destruct (sentTime env q); simpl; intros H; [discriminate | discriminate H].
Qed.

Lemma fetch_shown col st :
  listFault env = false ->
  weekQuestions (fetchWeekQuestions env col st) =
  sort env (filter (inRange env (getWeekRange (localTZA env) (now env)))
                   col).
Proof.
  intros Hfault. unfold fetchWeekQuestions, getDocs.
  rewrite Hfault, filter_true. reflexivity.
Qed.

(** When the store answers, the questions of the weekly summary
    are the records whose sent date lies in the range, each once, in the
    order of their sent instants, and records sent at the same instant
    in the order of the store. *)
Theorem week_questions_sorted col st :
  listFault env = false ->
  let inWeek :=
    filter (inRange env (getWeekRange (localTZA env) (now env))) col in
  let shown := weekQuestions (fetchWeekQuestions env col st) in
  Permutation.Permutation shown inWeek /\
  Sorted.StronglySorted (notLater env) shown /\
  (forall t,
      filter (sentAt env t) shown = filter (sentAt env t) inWeek).
Proof.
  intros Hfault inWeek shown.
  assert (E : shown = sort env inWeek) by (apply fetch_shown; exact Hfault).
  rewrite E.
  split; [apply sort_perm | split; [| intros t; apply sort_sentAt]].
  apply sort_sorted. apply Forall_forall. intros q Hq.
  apply filter_In in Hq as [_ Hq]. eapply inRange_valid. exact Hq.
Qed.


(** The two tests on the sent date agree on a valid date in a
    valid range, and differ on a date that does not parse: the backfill
    does not skip such a record, and the weekly summary leaves it
    out. *)
Theorem backfill_visits_undated_records (benv : Backfill.BackfillEnv) q :
  sameClock benv env ->
  RetrievedQuestion.aiSummary (doc_data q) = None ->
  let range := getWeekRange (localTZA env) (now env) in
  (sentTime env q = None ->
   BackfillView.pending benv q = true /\ inRange env range q = false) /\
  (forall t s e,
      sentTime env q = Some t ->
      start range = Some s -> end_ range = Some e ->
      BackfillView.pending benv q = inRange env range q).
Proof.
  intros (Hz & Hn & Hp) Hsum range.
  unfold BackfillView.pending, inRange. rewrite Hz, Hn, Hp, Hsum.
  fold range. fold (sentTime env q).
  split.
  - intros ->. split; [| reflexivity].
    unfold dateGt, dateLt. destruct (end_ range); reflexivity.
  - intros t s e -> -> ->. cbn [dateGe dateLe].
    unfold dateGt, dateLt. rewrite andb_true_r.
    destruct (Z.ltb_spec t s), (Z.ltb_spec e t),
      (Z.leb_spec s t), (Z.leb_spec t e); simpl; try reflexivity; lia.
Qed.

End WeekList.

Lemma week_questions_sorted_witness :
  Permutation.Permutation
    (WeeklySummary.weekQuestions
       (WeeklySummary.fetchWeekQuestions
          WeekSamples.weekEnv WeekSamples.week WeekSamples.unloaded))
    [WeekSamples.onThursday].
Proof.
  apply (@week_questions_sorted WeekSamples.weekEnv WeekSamples.week
           WeekSamples.unloaded).
  reflexivity.
Defined.


Lemma backfill_visits_undated_records_witness :
  BackfillView.pending WeekSamples.backfillEnv WeekSamples.undated = true /\
  WeeklySummary.inRange
    WeekSamples.weekEnv
    (JsDate.getWeekRange Examples.utcPlus2 (Some Examples.newYearNoon))
    WeekSamples.undated = false.
Proof.
  apply (@backfill_visits_undated_records
           WeekSamples.weekEnv WeekSamples.backfillEnv WeekSamples.undated).
  - repeat split.
  - reflexivity.
  - reflexivity.
Defined.

(** ** The message of the weekly summary *)

Section WeekMessage.

Import JsDate WeeklySummary ReplyFormat.

Implicit Types (q : Doc RetrievedQuestion.t).
Implicit Types (qs : list (Doc RetrievedQuestion.t)).

Lemma bullets_app (a b : jsstring) :
  bullets (a ++ b) = (bullets a + bullets b)%nat.
Proof. unfold bullets. rewrite filter_app, length_app. reflexivity. Qed.

Lemma bullets_lacks (s : jsstring) : lacks 8226 s = true -> bullets s = 0%nat.
Proof.
  unfold lacks, bullets. induction s as [| c tl IH]; simpl; [reflexivity |].
  intros H. apply andb_true_iff in H as [Hc Ht].
  apply negb_true_iff in Hc. rewrite Hc. apply IH. exact Ht.
Qed.

Lemma bullets_digits (d : Decimal.uint) :
  bullets (js (DecimalString.NilEmpty.string_of_uint d)) = 0%nat.
Proof.
  unfold bullets, js. induction d; simpl; try reflexivity; exact IHd.
Qed.

Lemma bullets_number (n : option Z) : bullets (numberToString n) = 0%nat.
Proof.
  destruct n as [[| p | p] |]; try reflexivity; unfold numberToString.
  - apply bullets_digits.
  - simpl Z.to_int. simpl DecimalString.NilEmpty.string_of_int.
    change (js (String "-" ?s)) with (45%N :: js s).
    apply (bullets_digits (Pos.to_uint p)).
Qed.

Lemma bullets_month (i : option Z) : bullets (monthName i) = 0%nat.
Proof.
  destruct i as [z |]; [| reflexivity]. unfold monthName.
  destruct (0 <=? z)%Z; [| reflexivity].
  generalize (Z.to_nat z). intros n.
  do 12 (destruct n as [| n]; [reflexivity |]). destruct n; reflexivity.
Qed.

Lemma bullets_formatDateRange (tza : Z -> bool -> Z) (a b : Date) :
  bullets (formatDateRange tza a b) = 0%nat.
Proof.
  unfold formatDateRange.
  destruct (numEq (getMonth tza a) (getMonth tza b));
    rewrite !bullets_app, !bullets_number, !bullets_month; reflexivity.
Qed.

Lemma bullets_join (sep : jsstring) (parts : list jsstring) (k : nat) :
  bullets sep = 0%nat ->
  Forall (fun p => bullets p = k) parts ->
  bullets (join sep parts) = (k * length parts)%nat.
Proof.
  intros Hsep. induction parts as [| p rest IH]; intros H.
  - change (bullets (join sep [])) with 0%nat. simpl length. lia.
  - inversion H as [| ? ? Hp Hrest]; subst.
    destruct rest as [| p' rest].
    + change (join sep [p]) with p. simpl length. lia.
    + change (join sep (p :: p' :: rest))
        with (p ++ sep ++ join sep (p' :: rest)).
      rewrite !bullets_app, Hsep, (IH Hrest). simpl length. lia.
Qed.

Lemma bullets_formatQuestion q :
  plain q = true -> bullets (formatQuestion q) = 1%nat.
Proof.
  unfold plain. intros H.
  apply andb_true_iff in H as [H Htags]. apply andb_true_iff in H as [Hid Ht].
  assert (Hnames :
            bullets (join (js ", ")
                          (List.map name
                             (RetrievedQuestion.topicTags (doc_data q)))) =
            0%nat).
  { rewrite (@bullets_join _ _ 0%nat); [reflexivity | reflexivity |].
    apply Forall_forall. intros p Hp. apply in_map_iff in Hp as (t & <- & Ht').
    apply bullets_lacks. rewrite forallb_forall in Htags. apply Htags, Ht'. }
  unfold formatQuestion.
  set (names := join (js ", ") _) in *.
  assert (Htopics : bullets (orElse names []) = 0%nat).
  { unfold orElse. destruct (truthy names); [exact Hnames | reflexivity]. }
  rewrite !bullets_app, (bullets_lacks _ Hid), (bullets_lacks _ Ht).
  destruct (truthy (orElse names [])).
  - rewrite !bullets_app, Htopics. reflexivity.
  - reflexivity.
Qed.

Lemma bullets_formatSection (label emoji : jsstring) qs :
  bullets label = 0%nat -> bullets emoji = 0%nat ->
  forallb plain qs = true ->
  bullets (formatSection label emoji qs) = length qs.
Proof.
  intros Hl He Hp. destruct qs as [| q tl]; [reflexivity |].
  unfold formatSection.
  rewrite !bullets_app, Hl, He.
  rewrite (@bullets_join _ _ 1%nat); [| reflexivity |].
  - rewrite length_map. change (bullets (js " ")) with 0%nat.
    change (bullets (js ":")) with 0%nat.
    change (bullets newline) with 0%nat. lia.
  - apply Forall_forall. intros p Hin.
    apply in_map_iff in Hin as (x & <- & Hx).
    apply bullets_formatQuestion.
    rewrite forallb_forall in Hp. apply Hp, Hx.
Qed.

Lemma forallb_filter {A} (f g : A -> bool) (l : list A) :
  forallb f l = true -> forallb f (filter g l) = true.
Proof.
  rewrite !forallb_forall. intros H x Hx.
  apply filter_In in Hx as [Hx _]. apply H, Hx.
Qed.

(** The three sections take each question of a known difficulty
    once. *)
Lemma sections_partition qs :
  (length (filter (hasDifficulty (js "Easy")) qs) +
   length (filter (hasDifficulty (js "Medium")) qs) +
   length (filter (hasDifficulty (js "Hard")) qs))%nat =
  length (filter knownDifficulty qs).
Proof.
  induction qs as [| q tl IH]; [reflexivity |].
  cbn [filter].
  assert (Ek : knownDifficulty q =
               hasDifficulty (js "Easy") q || hasDifficulty (js "Medium") q
               || hasDifficulty (js "Hard") q) by reflexivity.
  rewrite Ek.
  assert (Hone : forall a b,
             eqb a b = false ->
             hasDifficulty a q = true -> hasDifficulty b q = false).
  { intros a b Hab Ha. unfold hasDifficulty in *.
    apply eqb_eq in Ha. rewrite Ha. exact Hab. }
  destruct (hasDifficulty (js "Easy") q) eqn:E1.
  - rewrite (Hone (js "Easy") (js "Medium")), (Hone (js "Easy") (js "Hard"))
      by (reflexivity || exact E1).
    simpl. lia.
  - destruct (hasDifficulty (js "Medium") q) eqn:E2.
    + rewrite (Hone (js "Medium") (js "Hard")) by (reflexivity || exact E2).
      simpl. lia.
    + destruct (hasDifficulty (js "Hard") q); simpl; lia.
Qed.

Lemma generateMessage_nonempty (tza : Z -> bool -> Z) qs range :
  qs <> [] ->
  generateMessage tza qs range =
  heading ++ formatDateRange tza (start range) (end_ range) ++
  newline ++ newline ++
  formatSection (js "Easy") greenBook
                (filter (hasDifficulty (js "Easy")) qs) ++
  formatSection (js "Medium") orangeBook
                (filter (hasDifficulty (js "Medium")) qs) ++
  formatSection (js "Hard") redBook
                (filter (hasDifficulty (js "Hard")) qs) ++
  totalLabel ++ numberToString (Some (Z.of_nat (length qs))) ++ closing.
Proof. destruct qs; [congruence | reflexivity]. Qed.

(** In the message of a week with questions, each question whose
    difficulty is Easy, Medium or Hard has one bullet line, and a
    question of any other difficulty has none (the total at the end
    counts it all the same), for questions without a bullet in their
    own texts. *)
Theorem message_bullets (tza : Z -> bool -> Z) qs range :
  qs <> [] ->
  forallb plain qs = true ->
  bullets (generateMessage tza qs range) =
  length (filter knownDifficulty qs).
Proof.
  intros Hne Hplain. rewrite (generateMessage_nonempty tza range Hne).
  rewrite !bullets_app, bullets_formatDateRange, bullets_number.
  rewrite !bullets_formatSection
    by (reflexivity || (apply forallb_filter; exact Hplain)).
  rewrite <- sections_partition.
  change (bullets heading) with 0%nat.
  change (bullets newline) with 0%nat.
  change (bullets totalLabel) with 0%nat.
  change (bullets closing) with 0%nat.
  lia.
Qed.

End WeekMessage.

Lemma message_bullets_witness :
  WeeklySummary.bullets
    (WeeklySummary.generateMessage
       Examples.utcPlus2 WeekSamples.week
       (JsDate.getWeekRange Examples.utcPlus2 (Some Examples.newYearNoon))) =
  3%nat.
Proof.
  apply (@message_bullets Examples.utcPlus2 WeekSamples.week).
  - discriminate.
  - reflexivity.
Defined.

(** ** A reply without text *)

Section BlankReply.

Import ReplyFormat.

Lemma blank_lacks (c : N) (p content : jsstring) :
  isSpace c = false -> blank content = true ->
  includes (c :: p) content = false.
Proof.
  intros Hc Hb. destruct (includes (c :: p) content) eqn:E; [| reflexivity].
  apply includes_split in E as (pre & post & ->).
  unfold blank in Hb. rewrite forallb_app in Hb.
  apply andb_true_iff in Hb as [_ Hb].
  simpl in Hb. rewrite Hc in Hb. discriminate.
Qed.

(** An answer of the endpoint without content, or with a content
    of white space only, is not an error: [getQuestionSummary] and
    [generateAISummary] return the summary with an empty solution and
    the complexities [O(?)]. *)
Theorem summary_of_blank_content (key : jsstring) (c : option jsstring) :
  key <> [] ->
  blank (orDefault c []) = true ->
  Index.getQuestionSummary (Some key) (Index.FetchOk c) =
  Ok (mkAISummary [] (js "O(?)") (js "O(?)")) /\
  Backfill.generateAISummary (Index.FetchOk c) =
  Ok (mkAISummary [] (js "O(?)") (js "O(?)")).
Proof.
  intros Hkey Hb.
  assert (E : Index.parseContent (orDefault c []) =
              mkAISummary [] (js "O(?)") (js "O(?)")).
  { assert (Hs : includes solutionLabel (orDefault c []) = false)
      by exact (@blank_lacks 1508%N ([1514; 1512; 1493; 1503]%N ++ colon)
                             _ eq_refl Hb).
    assert (Ht : includes timeLabel (orDefault c []) = false)
      by exact (@blank_lacks 1494%N ([1502; 1503]%N ++ colon)
                             _ eq_refl Hb).
    assert (Hp : includes spaceLabel (orDefault c []) = false)
      by exact (@blank_lacks 1502%N ([1511; 1493; 1501]%N ++ colon)
                             _ eq_refl Hb).
    unfold Index.parseContent, Index.solutionRe, complexityRe.
    rewrite (@regexMatch_literal _ _ _ Hs), (@regexMatch_literal _ _ _ Ht),
      (@regexMatch_literal _ _ _ Hp).
    cbn [group1 option_map orDefault]. rewrite (blank_trim _ Hb).
    reflexivity. }
  unfold Index.getQuestionSummary, Backfill.generateAISummary.
  apply truthy_nonempty in Hkey. rewrite Hkey, E. split; reflexivity.
Qed.

End BlankReply.

Lemma summary_of_blank_content_witness :
  Index.getQuestionSummary (Some (js "key")) (Index.FetchOk None) =
  Ok (mkAISummary [] (js "O(?)") (js "O(?)")) /\
  Backfill.generateAISummary (Index.FetchOk None) =
  Ok (mkAISummary [] (js "O(?)") (js "O(?)")).
Proof.
  apply summary_of_blank_content; [discriminate | reflexivity].
Defined.
